(** * The HTTP/1.x connection engine of shim (src/httpconn.c)

    A shallow embedding of the per-connection state machine: first line and
    header reading, the body framing decision, the chunked decoder, the
    message writers and the write-side choke logic, together with models of
    the collaborators the engine drives (libevent buffers and bufferevents,
    the header list, the tokenizer, the URL tokenizer, the integer parser).

    The engine is written in a small monad over the connection and the list
    of owner callbacks invoked so far.  A call into the engine returns, or
    stops the process ([log_fatal], a failed [assert]), or uses up the budget
    of turns given to the read loop.  Buffers are lists of bytes, [size_t] is
    64 bits wide, and [ev_int64_t] arithmetic wraps around. *)

From Stdlib Require Import ZArith List Bool Ascii String Lia.
Import ListNotations.
Open Scope Z_scope.

Set Implicit Arguments.

(** ** Bytes and C strings *)

Definition bytes := list ascii.

Definition txt (s : string) : bytes := list_ascii_of_string s.

Definition CR : ascii := "013"%char.
Definition LF : ascii := "010"%char.
Definition NUL : ascii := "000"%char.
Definition SP : ascii := " "%char.
Definition CRLF : bytes := [CR; LF].

(** Length of a buffer as a [size_t] (taken to be 64 bits wide). *)
Definition blen (l : bytes) : Z := Z.of_nat (List.length l).

(** What the C string functions see of a byte array: the bytes before the
    first NUL. *)
Fixpoint cstr (l : bytes) : bytes :=
  match l with
  | [] => []
  | c :: r => if Ascii.eqb c NUL then [] else c :: cstr r
  end.

Definition bytes_eqb (x y : bytes) : bool :=
  if list_eq_dec ascii_dec x y then true else false.

Definition is_upper (c : ascii) : bool :=
  let n := nat_of_ascii c in (Nat.leb 65 n && Nat.leb n 90)%bool.

(** libevent's EVUTIL_TOLOWER. *)
Definition tolower (c : ascii) : ascii :=
  if is_upper c then ascii_of_nat (nat_of_ascii c + 32) else c.

(** libevent's [evutil_ascii_strcasecmp]: 0 when the strings are equal up to
    ASCII case, otherwise -1 or 1. *)
Fixpoint evutil_ascii_strcasecmp (s1 s2 : bytes) : Z :=
  match s1, s2 with
  | [], [] => 0
  | [], _ :: _ => -1
  | _ :: _, [] => 1
  | c1 :: r1, c2 :: r2 =>
      let n1 := nat_of_ascii (tolower c1) in
      let n2 := nat_of_ascii (tolower c2) in
      if Nat.ltb n1 n2 then -1
      else if Nat.ltb n2 n1 then 1
      else evutil_ascii_strcasecmp r1 r2
  end.

(** libevent's [evutil_ascii_strncasecmp]: the same on the first [n] bytes. *)
Fixpoint evutil_ascii_strncasecmp (s1 s2 : bytes) (n : nat) : Z :=
  match n with
  | O => 0
  | S n' =>
      match s1, s2 with
      | [], [] => 0
      | [], _ :: _ => -1
      | _ :: _, [] => 1
      | c1 :: r1, c2 :: r2 =>
          let n1 := nat_of_ascii (tolower c1) in
          let n2 := nat_of_ascii (tolower c2) in
          if Nat.ltb n1 n2 then -1
          else if Nat.ltb n2 n1 then 1
          else evutil_ascii_strncasecmp r1 r2 n'
      end
  end.

(** [strcmp], observed only through [== 0]. *)
Definition strcmp (s1 s2 : bytes) : Z :=
  if bytes_eqb s1 s2 then 0 else 1.

(** ** Fixed-width integers *)

Definition INT64_MAX : Z := 2 ^ 63 - 1.

(** Conversion to [ev_int64_t] (two's complement wrap-around). *)
Definition to_int64 (z : Z) : Z := (z + 2 ^ 63) mod 2 ^ 64 - 2 ^ 63.

(** ** libevent evbuffers *)

(** The bytes before the first LF, and the bytes after it. *)
Fixpoint split_lf (buf : bytes) : option (bytes * bytes) :=
  match buf with
  | [] => None
  | c :: rest =>
      if Ascii.eqb c LF then Some ([], rest)
      else match split_lf rest with
           | Some (l, r) => Some (c :: l, r)
           | None => None
           end
  end.

(** Drops one CR at the end of a line, when there is one. *)
Fixpoint strip_cr (l : bytes) : bytes :=
  match l with
  | [] => []
  | [c] => if Ascii.eqb c CR then [] else [c]
  | c :: r => c :: strip_cr r
  end.

(** [evbuffer_readln(buf, NULL, EVBUFFER_EOL_CRLF)]: a line ends at the first
    LF, an immediately preceding CR belongs to the terminator; without a LF
    in the buffer the result is NULL and nothing is drained.  The line is
    handed out as a C string. *)
Definition evbuffer_readln (buf : bytes) : option (bytes * bytes) :=
  match split_lf buf with
  | Some (l, r) => Some (cstr (strip_cr l), r)
  | None => None
  end.

(** [evbuffer_add_buffer(dst, src)]: all of [src] moves to the end of [dst];
    the pair is (dst, src) afterwards. *)
Definition evbuffer_add_buffer (dst src : bytes) : bytes * bytes :=
  (dst ++ src, []).

(** [evbuffer_remove_buffer(src, dst, n)]: the first [n] bytes of [src] move
    to the end of [dst]; the pair is (src, dst) afterwards. *)
Definition evbuffer_remove_buffer (src dst : bytes) (n : Z) : bytes * bytes :=
  (skipn (Z.to_nat n) src, dst ++ firstn (Z.to_nat n) src).

(** ** Collaborators of the repository that are not in httpconn.c *)

Definition digit_val (c : ascii) : option Z :=
  let n := nat_of_ascii c in
  if (Nat.leb 48 n && Nat.leb n 57)%bool then Some (Z.of_nat n - 48)
  else if (Nat.leb 97 n && Nat.leb n 102)%bool then Some (Z.of_nat n - 87)
  else if (Nat.leb 65 n && Nat.leb n 70)%bool then Some (Z.of_nat n - 55)
  else None.

Fixpoint get_int_acc (base : Z) (acc : Z) (s : bytes) : Z :=
  match s with
  | [] => acc
  | c :: r =>
      match digit_val c with
      | Some d =>
          if d <? base then
            let acc' := acc * base + d in
            if acc' <=? INT64_MAX then get_int_acc base acc' r else -1
          else -1
      | None => -1
      end
  end.

(** Modelled from the spec: [get_int] of util.c, which is not part of the
    sources at hand.  The text is read as a non-negative integer in the given
    base (10 for Content-Length, 16 for a chunk size); a value that is not
    such a number yields a negative result.  The result is an [ev_int64_t]. *)
Definition get_int (s : bytes) (base : Z) : Z :=
  match s with
  | [] => -1
  | _ => get_int_acc base 0 s
  end.

(** [strpbrk]: the bytes before the first separator byte and the bytes after
    it. *)
Fixpoint break_at (sep : bytes) (buf : bytes) : option (bytes * bytes) :=
  match buf with
  | [] => None
  | c :: rest =>
      if existsb (Ascii.eqb c) sep then Some ([], rest)
      else match break_at sep rest with
           | Some (t, r) => Some (c :: t, r)
           | None => None
           end
  end.

(** Modelled from the spec: [tokenize] of util.c (the generic line-tokenizer
    utility), which is not part of the sources at hand.  The line is cut at
    separator bytes, at most [lim] times; what is left after the last cut is
    the last token when it is not empty.  The number of tokens the C function
    returns is the length of the list. *)
Fixpoint tokenize (buf sep : bytes) (lim : nat) : list bytes :=
  match lim with
  | O => match buf with [] => [] | _ => [buf] end
  | S lim' =>
      match break_at sep buf with
      | Some (tok, rest) => tok :: tokenize rest sep lim'
      | None => match buf with [] => [] | _ => [buf] end
      end
  end.

Definition is_space (c : ascii) : bool :=
  let n := nat_of_ascii c in (Nat.eqb n 32 || (Nat.leb 9 n && Nat.leb n 13))%bool.

Fixpoint skip_spaces (s : bytes) : bytes :=
  match s with
  | c :: r => if is_space c then skip_spaces r else s
  | [] => []
  end.

Fixpoint atoi_digits (acc : Z) (s : bytes) : Z :=
  match s with
  | c :: r =>
      let n := nat_of_ascii c in
      if (Nat.leb 48 n && Nat.leb n 57)%bool
      then atoi_digits (acc * 10 + (Z.of_nat n - 48)) r
      else acc
  | [] => acc
  end.

(** Conversion to [int], which is 32 bits wide. *)
Definition to_int (z : Z) : Z := (z + 2 ^ 31) mod 2 ^ 32 - 2 ^ 31.

(** The limits of [long], at which [strtol] saturates. *)
Definition clamp_long (z : Z) : Z := Z.max (- 2 ^ 63) (Z.min (2 ^ 63 - 1) z).

(** The C library's [atoi]: leading white space, an optional sign, then the
    longest run of decimal digits (0 when there is none).  It is computed as
    [(int) strtol(s, NULL, 10)]: the number saturates at the limits of
    [long] and the conversion to [int] keeps its low 32 bits, so that
    "4294967496" is read as 200. *)
Definition atoi (s : bytes) : Z :=
  to_int (clamp_long
    match skip_spaces s with
    | c :: r =>
        if Ascii.eqb c "-"%char then - atoi_digits 0 r
        else if Ascii.eqb c "+"%char then atoi_digits 0 r
        else atoi_digits 0 (c :: r)
    | [] => 0
    end).

(** The fields of [struct url] that httpconn.c reads. *)
Record url := { host : option bytes; port : Z; query : bytes }.

(** Modelled from the spec: [url_tokenize] of the URL collaborator, which is
    not part of the sources at hand.  A request target is split into host,
    port and path components: an origin-form target (starting with a slash)
    has no host and no port and is its own path; otherwise an optional
    [scheme://] prefix is dropped, the authority runs up to the first slash
    and may carry a decimal port after a colon, and the path is what follows
    (a lone slash when nothing follows).  An empty target, an empty host or a
    port that is not a number gives NULL.  A negative port means
    "not given". *)
Definition url_tokenize (s : bytes) : option url :=
  match s with
  | [] => None
  | c :: _ =>
      if Ascii.eqb c "/"%char then Some {| host := None; port := -1; query := s |}
      else
        let rest :=
          match break_at (txt ":") s with
          | Some (_, c1 :: c2 :: r) =>
              if (Ascii.eqb c1 "/"%char && Ascii.eqb c2 "/"%char)%bool then r else s
          | _ => s
          end in
        let (auth, path) :=
          match break_at (txt "/") rest with
          | Some (a, p) => (a, "/"%char :: p)
          | None => (rest, txt "/")
          end in
        match break_at (txt ":") auth with
        | Some (h, p) =>
            match h with
            | [] => None
            | _ => if get_int p 10 <? 0 then None
                   else Some {| host := Some h; port := get_int p 10; query := path |}
            end
        | None =>
            match auth with
            | [] => None
            | _ => Some {| host := Some auth; port := -1; query := path |}
            end
        end
  end.

(** The header list: keys and values in wire order. *)
Definition header_list := list (bytes * bytes).

(** Modelled from the spec: [headers_find] of headers.c, which is not part of
    the sources at hand: the lookup by name, case-insensitive, that reads the
    first match and returns a copy of its value (NULL when there is none). *)
Fixpoint headers_find (h : header_list) (key : bytes) : option bytes :=
  match h with
  | [] => None
  | (k, v) :: r =>
      if evutil_ascii_strcasecmp k key =? 0 then Some v else headers_find r key
  end.

(** Modelled from the spec: [headers_dump] of headers.c, which is not part of
    the sources at hand: the list rendered as CRLF-terminated [Name: value]
    lines plus the terminating blank line. *)
Fixpoint headers_dump (h : header_list) : bytes :=
  match h with
  | [] => CRLF
  | (k, v) :: r => k ++ txt ": " ++ v ++ CRLF ++ headers_dump r
  end.

Inductive load_result := LOAD_ERROR | LOAD_INCOMPLETE | LOAD_COMPLETE.

(** Modelled from the spec: [headers_load] of headers.c, which is not part of
    the sources at hand: the incremental line-based parser.  It consumes
    lines from the input, adding a header per [Name: value] line, until the
    blank line (complete, 1), a line without a colon (parse error, -1) or the
    end of the complete lines buffered (incomplete, 0).  [fuel] bounds the
    number of lines and is given the length of the input by the caller. *)
Fixpoint headers_load_lines (fuel : nat) (h : header_list) (buf : bytes)
  : load_result * header_list * bytes :=
  match fuel with
  | O => (LOAD_INCOMPLETE, h, buf)
  | S fuel' =>
      match evbuffer_readln buf with
      | None => (LOAD_INCOMPLETE, h, buf)
      | Some ([], rest) => (LOAD_COMPLETE, h, rest)
      | Some (line, rest) =>
          match break_at (txt ":") line with
          | None => (LOAD_ERROR, h, rest)
          | Some (k, v) => headers_load_lines fuel' (h ++ [(k, skip_spaces v)]) rest
          end
      end
  end.

Definition headers_load (h : header_list) (buf : bytes)
  : load_result * header_list * bytes :=
  headers_load_lines (S (List.length buf)) h buf.

(** Decimal digits of a non-negative number, most significant first. *)
Fixpoint digits_of (fuel : nat) (z : Z) (acc : bytes) : bytes :=
  match fuel with
  | O => acc
  | S fuel' =>
      let d := ascii_of_nat (Z.to_nat (z mod 10) + 48) in
      if z <? 10 then d :: acc else digits_of fuel' (z / 10) (d :: acc)
  end.

(** What printf's [%d] writes for an [int]. *)
Definition print_int (z : Z) : bytes :=
  if z <? 0 then "-"%char :: digits_of 11 (- z) [] else digits_of 11 z [].

(** ** The data model of httpconn.h *)

Inductive http_state :=
| HTTP_STATE_IDLE
| HTTP_STATE_CONNECTING
| HTTP_STATE_READ_FIRSTLINE
| HTTP_STATE_READ_HEADERS
| HTTP_STATE_READ_BODY
| HTTP_STATE_MANGLED.

Inductive http_version := HTTP_UNKNOWN | HTTP_10 | HTTP_11.

Inductive http_te := TE_IDENTITY | TE_CHUNKED.

(** [HTTP_CLIENT]: the peer is a client, the connection receives requests and
    sends responses.  [HTTP_SERVER]: the peer is a server, the connection
    sends requests and receives responses. *)
Inductive http_type := HTTP_CLIENT | HTTP_SERVER.

Inductive http_method := METH_GET | METH_HEAD | METH_POST | METH_PUT | METH_CONNECT.

Inductive http_conn_error :=
| ERROR_NONE
| ERROR_CONNECT_FAILED
| ERROR_IDLE_CONN_TIMEDOUT
| ERROR_CLIENT_POST_WITHOUT_LENGTH
| ERROR_INCOMPLETE_HEADERS
| ERROR_INCOMPLETE_BODY
| ERROR_HEADER_PARSE_FAILED
| ERROR_CHUNK_PARSE_FAILED
| ERROR_WRITE_FAILED.

Record http_request := {
  req_meth : http_method;
  req_vers : http_version;
  req_url : url;
  req_headers : header_list
}.

Record http_response := {
  resp_vers : http_version;
  resp_code : Z;
  resp_reason : bytes;
  resp_headers : header_list
}.

Definition state_eqb (x y : http_state) : bool :=
  match x, y with
  | HTTP_STATE_IDLE, HTTP_STATE_IDLE
  | HTTP_STATE_CONNECTING, HTTP_STATE_CONNECTING
  | HTTP_STATE_READ_FIRSTLINE, HTTP_STATE_READ_FIRSTLINE
  | HTTP_STATE_READ_HEADERS, HTTP_STATE_READ_HEADERS
  | HTTP_STATE_READ_BODY, HTTP_STATE_READ_BODY
  | HTTP_STATE_MANGLED, HTTP_STATE_MANGLED => true
  | _, _ => false
  end.

Definition version_eqb (x y : http_version) : bool :=
  match x, y with
  | HTTP_UNKNOWN, HTTP_UNKNOWN | HTTP_10, HTTP_10 | HTTP_11, HTTP_11 => true
  | _, _ => false
  end.

Definition te_eqb (x y : http_te) : bool :=
  match x, y with
  | TE_IDENTITY, TE_IDENTITY | TE_CHUNKED, TE_CHUNKED => true
  | _, _ => false
  end.

Definition type_eqb (x y : http_type) : bool :=
  match x, y with
  | HTTP_CLIENT, HTTP_CLIENT | HTTP_SERVER, HTTP_SERVER => true
  | _, _ => false
  end.

Definition error_eqb (x y : http_conn_error) : bool :=
  match x, y with
  | ERROR_NONE, ERROR_NONE
  | ERROR_CONNECT_FAILED, ERROR_CONNECT_FAILED
  | ERROR_IDLE_CONN_TIMEDOUT, ERROR_IDLE_CONN_TIMEDOUT
  | ERROR_CLIENT_POST_WITHOUT_LENGTH, ERROR_CLIENT_POST_WITHOUT_LENGTH
  | ERROR_INCOMPLETE_HEADERS, ERROR_INCOMPLETE_HEADERS
  | ERROR_INCOMPLETE_BODY, ERROR_INCOMPLETE_BODY
  | ERROR_HEADER_PARSE_FAILED, ERROR_HEADER_PARSE_FAILED
  | ERROR_CHUNK_PARSE_FAILED, ERROR_CHUNK_PARSE_FAILED
  | ERROR_WRITE_FAILED, ERROR_WRITE_FAILED => true
  | _, _ => false
  end.

(** The part of a libevent bufferevent the engine drives: the two buffers,
    which directions are enabled, and the write watermarks. *)
Record bufferevent := {
  input : bytes;
  output : bytes;
  ev_read : bool;
  ev_write : bool;
  wm_write_low : Z;
  wm_write_high : Z
}.

(** [struct http_conn].  The int flags only ever hold 0 or 1.  The callback
    table and its argument are the owner, modelled below. *)
Record http_conn := {
  state : http_state;
  vers : http_version;
  te : http_te;
  type : http_type;
  is_choaked : bool;
  has_body : bool;
  read_paused : bool;
  msg_complete_on_eof : bool;
  persistent : bool;
  data_remaining : Z;
  firstline : option bytes;
  headers : option header_list;
  bev : bufferevent;
  inbuf_processed : bytes
}.

Definition set_state v c := Build_http_conn v (vers c) (te c) (type c) (is_choaked c) (has_body c) (read_paused c) (msg_complete_on_eof c) (persistent c) (data_remaining c) (firstline c) (headers c) (bev c) (inbuf_processed c).
Definition set_vers v c := Build_http_conn (state c) v (te c) (type c) (is_choaked c) (has_body c) (read_paused c) (msg_complete_on_eof c) (persistent c) (data_remaining c) (firstline c) (headers c) (bev c) (inbuf_processed c).
Definition set_te v c := Build_http_conn (state c) (vers c) v (type c) (is_choaked c) (has_body c) (read_paused c) (msg_complete_on_eof c) (persistent c) (data_remaining c) (firstline c) (headers c) (bev c) (inbuf_processed c).
Definition set_is_choaked v c := Build_http_conn (state c) (vers c) (te c) (type c) v (has_body c) (read_paused c) (msg_complete_on_eof c) (persistent c) (data_remaining c) (firstline c) (headers c) (bev c) (inbuf_processed c).
Definition set_has_body v c := Build_http_conn (state c) (vers c) (te c) (type c) (is_choaked c) v (read_paused c) (msg_complete_on_eof c) (persistent c) (data_remaining c) (firstline c) (headers c) (bev c) (inbuf_processed c).
Definition set_read_paused v c := Build_http_conn (state c) (vers c) (te c) (type c) (is_choaked c) (has_body c) v (msg_complete_on_eof c) (persistent c) (data_remaining c) (firstline c) (headers c) (bev c) (inbuf_processed c).
Definition set_msg_complete_on_eof v c := Build_http_conn (state c) (vers c) (te c) (type c) (is_choaked c) (has_body c) (read_paused c) v (persistent c) (data_remaining c) (firstline c) (headers c) (bev c) (inbuf_processed c).
Definition set_persistent v c := Build_http_conn (state c) (vers c) (te c) (type c) (is_choaked c) (has_body c) (read_paused c) (msg_complete_on_eof c) v (data_remaining c) (firstline c) (headers c) (bev c) (inbuf_processed c).
Definition set_data_remaining v c := Build_http_conn (state c) (vers c) (te c) (type c) (is_choaked c) (has_body c) (read_paused c) (msg_complete_on_eof c) (persistent c) v (firstline c) (headers c) (bev c) (inbuf_processed c).
Definition set_firstline v c := Build_http_conn (state c) (vers c) (te c) (type c) (is_choaked c) (has_body c) (read_paused c) (msg_complete_on_eof c) (persistent c) (data_remaining c) v (headers c) (bev c) (inbuf_processed c).
Definition set_headers v c := Build_http_conn (state c) (vers c) (te c) (type c) (is_choaked c) (has_body c) (read_paused c) (msg_complete_on_eof c) (persistent c) (data_remaining c) (firstline c) v (bev c) (inbuf_processed c).
Definition set_bev v c := Build_http_conn (state c) (vers c) (te c) (type c) (is_choaked c) (has_body c) (read_paused c) (msg_complete_on_eof c) (persistent c) (data_remaining c) (firstline c) (headers c) v (inbuf_processed c).
Definition set_inbuf_processed v c := Build_http_conn (state c) (vers c) (te c) (type c) (is_choaked c) (has_body c) (read_paused c) (msg_complete_on_eof c) (persistent c) (data_remaining c) (firstline c) (headers c) (bev c) v.

Definition set_input v (e : bufferevent) := Build_bufferevent v (output e) (ev_read e) (ev_write e) (wm_write_low e) (wm_write_high e).
Definition set_output v (e : bufferevent) := Build_bufferevent (input e) v (ev_read e) (ev_write e) (wm_write_low e) (wm_write_high e).

(** [bufferevent_get_input] and [bufferevent_get_output] of a connection. *)
Definition inbuf (c : http_conn) : bytes := input (bev c).
Definition outbuf (c : http_conn) : bytes := output (bev c).
Definition set_inbuf v c := set_bev (set_input v (bev c)) c.
Definition set_outbuf v c := set_bev (set_output v (bev c)) c.

(** [bufferevent_enable] and [bufferevent_disable] for the directions named. *)
Definition bev_enable (r w : bool) (e : bufferevent) :=
  Build_bufferevent (input e) (output e) (ev_read e || r) (ev_write e || w)
                    (wm_write_low e) (wm_write_high e).
Definition bev_disable (r w : bool) (e : bufferevent) :=
  Build_bufferevent (input e) (output e) (ev_read e && negb r) (ev_write e && negb w)
                    (wm_write_low e) (wm_write_high e).

(** [bufferevent_setwatermark(bev, EV_WRITE, low, high)]. *)
Definition bev_setwatermark_write (low high : Z) (e : bufferevent) :=
  Build_bufferevent (input e) (output e) (ev_read e) (ev_write e) low high.

(** [bufferevent_socket_new]: empty buffers; libevent creates a bufferevent
    with writing enabled and reading disabled, and watermarks 0. *)
Definition bufferevent_socket_new : bufferevent :=
  Build_bufferevent [] [] false true 0 0.

(** ** Owner callbacks, and the monad the engine runs in *)

(** One event per callback of [struct http_cbs] the engine invokes. *)
Inductive event :=
| on_connect_ev
| on_error_ev (err : http_conn_error)
| on_client_request_ev (req : http_request)
| on_server_response_ev (resp : http_response)
| on_read_body_ev (data : bytes)
| on_msg_complete_ev
| on_write_more_ev
| on_flush_ev.

(** The connection and the callbacks invoked so far, oldest first. *)
Record world := { w_conn : http_conn; w_trace : list event }.

(** How a call into the engine ends: it returns; the process is stopped by
    [log_fatal] or a failed [assert]; or the loop budget ran out before the
    call returned. *)
Inductive outcome (A : Type) :=
| Done (a : A) (w : world)
| Fatal (w : world)
| Spin (w : world).
Arguments Fatal {A} w.
Arguments Spin {A} w.

Definition M (A : Type) := world -> outcome A.

Definition ret {A} (a : A) : M A := fun w => Done a w.

Definition bind {A B} (m : M A) (k : A -> M B) : M B :=
  fun w => match m w with
           | Done a w' => k a w'
           | Fatal w' => Fatal w'
           | Spin w' => Spin w'
           end.

Notation "x <- m ;; k" := (bind m (fun x => k))
  (at level 61, m at next level, right associativity).
Notation "m ;; k" := (bind m (fun _ => k))
  (at level 61, right associativity).

Definition get : M http_conn := fun w => Done (w_conn w) w.

Definition modify (f : http_conn -> http_conn) : M unit :=
  fun w => Done tt {| w_conn := f (w_conn w); w_trace := w_trace w |}.

Definition emit (e : event) : M unit :=
  fun w => Done tt {| w_conn := w_conn w; w_trace := w_trace w ++ [e] |}.

(** Modelled from the spec: [log_fatal] of log.c, which is not part of the
    sources at hand.  The spec has no word on it; it is taken to end the
    process, as its name and its call sites (the places the engine must
    never reach) say. *)
Definition log_fatal {A} : M A := fun w => Fatal w.

Definition assert (cond : bool) : M unit :=
  if cond then ret tt else log_fatal.

Definition when (cond : bool) (m : M unit) : M unit :=
  if cond then m else ret tt.

(** The owner records each callback.  Its [on_read_body] consumes the staging
    buffer it is handed, as the owner of the demo harness does
    ([proxy_read_body] drains the buffer); the other callbacks leave the
    connection alone. *)
Definition on_connect : M unit := emit on_connect_ev.
Definition on_error (err : http_conn_error) : M unit := emit (on_error_ev err).
Definition on_client_request (req : http_request) : M unit := emit (on_client_request_ev req).
Definition on_server_response (resp : http_response) : M unit := emit (on_server_response_ev resp).
Definition on_read_body : M unit :=
  c <- get ;;
  emit (on_read_body_ev (inbuf_processed c)) ;;
  modify (set_inbuf_processed []).
Definition on_msg_complete : M unit := emit on_msg_complete_ev.
Definition on_write_more : M unit := emit on_write_more_ev.
Definition on_flush : M unit := emit on_flush_ev.

(** ** The engine *)

Definition max_write_backlog : Z := 50 * 1024.

Definition method_from_string (method : bytes) : option http_method :=
  if evutil_ascii_strcasecmp method (txt "GET") =? 0 then Some METH_GET
  else if evutil_ascii_strcasecmp method (txt "HEAD") =? 0 then Some METH_HEAD
  else if evutil_ascii_strcasecmp method (txt "POST") =? 0 then Some METH_POST
  else if evutil_ascii_strcasecmp method (txt "PUT") =? 0 then Some METH_PUT
  else if evutil_ascii_strcasecmp method (txt "CONNECT") =? 0 then Some METH_CONNECT
  else None.

Definition method_to_string (m : http_method) : bytes :=
  match m with
  | METH_GET => txt "GET"
  | METH_HEAD => txt "HEAD"
  | METH_POST => txt "POST"
  | METH_PUT => txt "PUT"
  | METH_CONNECT => txt "CONNECT"
  end.

Definition version_from_string (vers : bytes) : option http_version :=
  if negb (evutil_ascii_strncasecmp vers (txt "HTTP/") 5 =? 0) then None
  else
    let vers := skipn 5 vers in
    if strcmp vers (txt "1.0") =? 0 then Some HTTP_10
    else if strcmp vers (txt "1.1") =? 0 then Some HTTP_11
    else None.

Definition version_to_string (v : http_version) : bytes :=
  match v with
  | HTTP_UNKNOWN => txt "HTTP/??"
  | HTTP_10 => txt "HTTP/1.0"
  | HTTP_11 => txt "HTTP/1.1"
  end.

Definition is_null {A} (o : option A) : bool :=
  match o with None => true | Some _ => false end.

Definition begin_message : M unit :=
  c <- get ;;
  assert (is_null (headers c) && is_null (firstline c)) ;;
  assert (negb (read_paused c)) ;;
  modify (set_headers (Some [])) ;;
  modify (set_state HTTP_STATE_IDLE) ;;
  modify (fun c => set_bev (bev_enable true true (bev c)) c).

(** [end_message].  Freeing the first line leaves the pointer in place;
    [headers_clear] empties the list the pointer still names. *)
Definition end_message (err : http_conn_error) : M unit :=
  modify (fun c => match headers c with
                   | Some _ => set_headers (Some []) c
                   | None => c
                   end) ;;
  c <- get ;;
  (if (negb (error_eqb err ERROR_NONE) || negb (persistent c))%bool then
     modify (set_state HTTP_STATE_MANGLED) ;;
     modify (fun c => set_bev (bev_disable true true (bev c)) c)
   else begin_message) ;;
  if negb (error_eqb err ERROR_NONE) then on_error err else on_msg_complete.

Definition build_request : M (option http_request) :=
  c <- get ;;
  assert (type_eqb (type c) HTTP_CLIENT) ;;
  match firstline c, headers c with
  | Some line, Some hs =>
      match tokenize line (txt " ") 4 with
      | [method; url; vers] =>
          match url_tokenize url, method_from_string method, version_from_string vers with
          | Some u, Some m, Some v =>
              ret (Some {| req_meth := m; req_vers := v; req_url := u; req_headers := hs |})
          | _, _, _ => ret None
          end
      | _ => ret None
      end
  | _, _ => log_fatal
  end.

Definition build_response : M (option http_response) :=
  c <- get ;;
  assert (type_eqb (type c) HTTP_SERVER) ;;
  match firstline c, headers c with
  | Some line, Some hs =>
      match tokenize line (txt " ") 2 with
      | [vers; code; reason] =>
          let c := atoi code in
          match version_from_string vers with
          | Some v =>
              if ((c <? 100) || (c >? 999))%bool then ret None
              else ret (Some {| resp_vers := v; resp_code := c;
                                resp_reason := reason; resp_headers := hs |})
          | None => ret None
          end
      | _ => ret None
      end
  | _, _ => log_fatal
  end.

(** Conversion to [size_t]. *)
Definition to_size_t (z : Z) : Z := z mod 2 ^ 64.

(** The loop of [parse_chunk_len] over the lines buffered: the return code
    (-1 failure, 0 incomplete, 1 ok), the chunk length when there is one, and
    what is left of the input.  Each turn drains at least the line
    terminator, so the length of the input bounds the turns. *)
Fixpoint parse_chunk_len_loop (fuel : nat) (buf : bytes) : Z * option Z * bytes :=
  match fuel with
  | O => (0, None, buf)
  | S fuel' =>
      match evbuffer_readln buf with
      | None => (0, None, buf)
      | Some ([], rest) => parse_chunk_len_loop fuel' rest
      | Some (line, rest) =>
          let len := get_int line 16 in
          if len <? 0 then (-1, None, rest) else (1, Some len, rest)
      end
  end.

Definition parse_chunk_len : M Z :=
  c <- get ;;
  let '(rc, len, rest) := parse_chunk_len_loop (S (List.length (inbuf c))) (inbuf c) in
  modify (set_inbuf rest) ;;
  match len with
  | Some len => modify (set_data_remaining len)
  | None => ret tt
  end ;;
  ret rc.

Definition read_chunk : M unit :=
  c <- get ;;
  let len := blen (inbuf c) in
  if data_remaining c <? 0 then
    rc <- parse_chunk_len ;;
    when (rc <? 0) (end_message ERROR_CHUNK_PARSE_FAILED)
  else if data_remaining c =? 0 then
    match evbuffer_readln (inbuf c) with
    | Some (_, rest) =>
        modify (set_inbuf rest) ;;
        end_message ERROR_NONE
    | None => ret tt
    end
  else
    let len := if len >=? to_size_t (data_remaining c)
               then to_size_t (data_remaining c) else len in
    modify (fun c =>
              let (src, dst) := evbuffer_remove_buffer (inbuf c) (inbuf_processed c) len in
              set_inbuf_processed dst (set_inbuf src c)) ;;
    on_read_body ;;
    modify (fun c => set_data_remaining (to_int64 (data_remaining c - len)) c) ;;
    c <- get ;;
    when (data_remaining c =? 0) (modify (set_data_remaining (-1))).

Definition read_body : M unit :=
  c <- get ;;
  assert (has_body c) ;;
  if te_eqb (te c) TE_CHUNKED then read_chunk
  else
    let len := blen (inbuf c) in
    if negb (len =? 0) then
      len <- (if ((data_remaining c >=? 0) && (len >? to_size_t (data_remaining c)))%bool then
                let len := to_size_t (data_remaining c) in
                modify (fun c =>
                          let (src, dst) := evbuffer_remove_buffer (inbuf c) (inbuf_processed c) len in
                          set_inbuf_processed dst (set_inbuf src c)) ;;
                on_read_body ;;
                ret len
              else
                modify (fun c =>
                          let (dst, src) := evbuffer_add_buffer (inbuf_processed c) (inbuf c) in
                          set_inbuf_processed dst (set_inbuf src c)) ;;
                on_read_body ;;
                ret len) ;;
      modify (fun c => set_data_remaining (to_int64 (data_remaining c - len)) c) ;;
      c <- get ;;
      when (data_remaining c =? 0) (end_message ERROR_NONE)
    else ret tt.

Definition the_headers (c : http_conn) : header_list :=
  match headers c with Some h => h | None => [] end.

Definition is_post_or_put (m : http_method) : bool :=
  match m with METH_POST | METH_PUT => true | _ => false end.

Definition bodyless_code (code : Z) : bool :=
  (((code >=? 100) && (code <? 200)) || (code =? 204) || (code =? 205) || (code =? 304))%bool.

(** The part of [check_headers] under [if (conn->has_body)]: the framing
    headers.  The result tells whether the function returned from inside it
    (after reporting ERROR_CLIENT_POST_WITHOUT_LENGTH). *)
Definition check_framing_headers : M bool :=
  c <- get ;;
  match headers_find (the_headers c) (txt "transfer-encoding") with
  | Some val =>
      when (evutil_ascii_strcasecmp val (txt "chunked") =? 0) (modify (set_te TE_CHUNKED))
  | None => ret tt
  end ;;
  c <- get ;;
  when (negb (te_eqb (te c) TE_CHUNKED))
    match headers_find (the_headers c) (txt "content-length") with
    | Some val =>
        let iv := get_int val 10 in
        when (negb (iv <? 0)) (modify (set_data_remaining iv)) ;;
        c <- get ;;
        when (data_remaining c =? 0) (modify (set_has_body false))
    | None => modify (set_msg_complete_on_eof true)
    end ;;
  c <- get ;;
  if (type_eqb (type c) HTTP_CLIENT && (data_remaining c <? 0)
      && negb (te_eqb (te c) TE_CHUNKED))%bool then
    on_error ERROR_CLIENT_POST_WITHOUT_LENGTH ;;
    ret true
  else ret false.

Definition check_headers (req : option http_request) (resp : option http_response)
  : M unit :=
  modify (set_te TE_IDENTITY) ;;
  modify (set_has_body true) ;;
  modify (set_msg_complete_on_eof false) ;;
  modify (set_data_remaining (-1)) ;;
  c <- get ;;
  v <- match type c, req, resp with
          | HTTP_CLIENT, Some req, _ =>
              modify (set_has_body false) ;;
              when (is_post_or_put (req_meth req)) (modify (set_has_body true)) ;;
              ret (req_vers req)
          | HTTP_SERVER, _, Some resp =>
              when (bodyless_code (resp_code resp)) (modify (set_has_body false)) ;;
              ret (resp_vers resp)
          | _, _, _ => log_fatal
          end ;;
  c <- get ;;
  returned <- (if has_body c then check_framing_headers else ret false) ;;
  if returned : bool then ret tt
  else
    assert (negb (version_eqb v HTTP_UNKNOWN)) ;;
    c <- get ;;
    let persistent := false in
    let persistent :=
      if (negb (msg_complete_on_eof c) && version_eqb v HTTP_11)%bool
      then true else persistent in
    let persistent :=
      if (negb (version_eqb (vers c) HTTP_UNKNOWN)
          && negb (version_eqb (vers c) v))%bool
      then false else persistent in
    modify (set_vers v) ;;
    let persistent :=
      if persistent then
        match headers_find (the_headers c) (txt "connection") with
        | Some val =>
            if negb (evutil_ascii_strcasecmp val (txt "close") =? 0)
            then false else persistent
        | None => persistent
        end
      else persistent in
    modify (set_persistent persistent).

Definition read_headers : M unit :=
  c <- get ;;
  assert (state_eqb (state c) HTTP_STATE_READ_HEADERS) ;;
  match headers c with
  | None => log_fatal
  | Some hs =>
      let '(rc, hs', rest) := headers_load hs (inbuf c) in
      modify (set_headers (Some hs')) ;;
      modify (set_inbuf rest) ;;
      match rc with
      | LOAD_ERROR => end_message ERROR_HEADER_PARSE_FAILED
      | LOAD_INCOMPLETE => ret tt
      | LOAD_COMPLETE =>
          c <- get ;;
          assert (negb (is_null (firstline c))) ;;
          req <- (if type_eqb (type c) HTTP_CLIENT then build_request else ret None) ;;
          resp <- (if type_eqb (type c) HTTP_CLIENT then ret None else build_response) ;;
          let failed := (is_null req && is_null resp)%bool in
          modify (set_firstline None) ;;
          if failed then end_message ERROR_HEADER_PARSE_FAILED
          else
            check_headers req resp ;;
            modify (set_headers None) ;;
            match req with Some r => on_client_request r | None => ret tt end ;;
            match resp with Some r => on_server_response r | None => ret tt end ;;
            c <- get ;;
            if negb (has_body c) then end_message ERROR_NONE
            else modify (set_state HTTP_STATE_READ_BODY)
      end
  end.

(** The bits of the [what] argument of a bufferevent event callback. *)
Definition BEV_EVENT_READING : Z := 1.
Definition BEV_EVENT_WRITING : Z := 2.
Definition BEV_EVENT_EOF : Z := 16.
Definition BEV_EVENT_ERROR : Z := 32.
Definition BEV_EVENT_CONNECTED : Z := 128.

Definition has_flag (what flag : Z) : bool := negb (Z.land what flag =? 0).

Definition http_errorcb (what : Z) : M unit :=
  c <- get ;;
  if state_eqb (state c) HTTP_STATE_CONNECTING then
    if has_flag what BEV_EVENT_CONNECTED then
      begin_message ;;
      on_connect
    else
      modify (set_state HTTP_STATE_MANGLED) ;;
      on_error ERROR_CONNECT_FAILED
  else
    assert (negb (has_flag what BEV_EVENT_CONNECTED)) ;;
    let state := state c in
    modify (set_state HTTP_STATE_MANGLED) ;;
    if has_flag what BEV_EVENT_WRITING then end_message ERROR_WRITE_FAILED
    else
      match state with
      | HTTP_STATE_IDLE => end_message ERROR_IDLE_CONN_TIMEDOUT
      | HTTP_STATE_READ_FIRSTLINE
      | HTTP_STATE_READ_HEADERS => end_message ERROR_INCOMPLETE_HEADERS
      | HTTP_STATE_READ_BODY =>
          if (has_flag what BEV_EVENT_EOF && msg_complete_on_eof c)%bool
          then end_message ERROR_NONE
          else end_message ERROR_INCOMPLETE_BODY
      | _ => log_fatal
      end.

(** The READ_FIRSTLINE case of [process_one_message], which the IDLE case
    falls through to. *)
Definition read_firstline : M unit :=
  c <- get ;;
  assert (is_null (firstline c)) ;;
  match evbuffer_readln (inbuf c) with
  | Some (line, rest) =>
      modify (set_inbuf rest) ;;
      modify (set_firstline (Some line)) ;;
      modify (set_state HTTP_STATE_READ_HEADERS)
  | None => ret tt
  end.

Definition process_one_message : M unit :=
  c <- get ;;
  match state c with
  | HTTP_STATE_IDLE =>
      modify (set_state HTTP_STATE_READ_FIRSTLINE) ;;
      read_firstline
  | HTTP_STATE_READ_FIRSTLINE => read_firstline
  | HTTP_STATE_READ_HEADERS => read_headers
  | HTTP_STATE_READ_BODY => read_body
  | _ => log_fatal
  end.

(** [process_inbuf]: the do-while loop, with a budget of [fuel] turns; when
    the budget is used up before the loop condition fails the result is
    [Spin]. *)
Fixpoint process_inbuf (fuel : nat) : M unit :=
  match fuel with
  | O => fun w => Spin w
  | S fuel' =>
      process_one_message ;;
      c <- get ;;
      if (negb (read_paused c) && (blen (inbuf c) >? 0))%bool
      then process_inbuf fuel'
      else ret tt
  end.

Definition http_readcb (fuel : nat) : M unit := process_inbuf fuel.

Definition http_writecb : M unit :=
  c <- get ;;
  if is_choaked c then
    modify (fun c => set_bev (bev_setwatermark_write 0 0 (bev c)) c) ;;
    modify (set_is_choaked false) ;;
    on_write_more
  else if blen (outbuf c) =? 0 then on_flush
  else ret tt.

(** [mem_calloc]: every field zero. *)
Definition conn_calloc (type : http_type) : http_conn :=
  {| state := HTTP_STATE_IDLE; vers := HTTP_UNKNOWN; te := TE_IDENTITY; type := type;
     is_choaked := false; has_body := false; read_paused := false;
     msg_complete_on_eof := false; persistent := false; data_remaining := 0;
     firstline := None; headers := None;
     bev := bufferevent_socket_new; inbuf_processed := [] |}.

Definition http_conn_new (sock : Z) (type : http_type) : outcome unit :=
  when (sock >=? 0) begin_message {| w_conn := conn_calloc type; w_trace := [] |}.

Definition http_conn_connect : M unit :=
  modify (set_state HTTP_STATE_CONNECTING).

(** [evbuffer_add_printf(outbuf, "%s %s %s\r\n", ...)] of
    [http_conn_write_request]. *)
Definition request_line (req : http_request) : bytes :=
  method_to_string (req_meth req) ++ [SP] ++ query (req_url req) ++ [SP]
  ++ version_to_string (req_vers req).

Definition http_conn_write_request (req : http_request) : M unit :=
  c <- get ;;
  assert (type_eqb (type c) HTTP_SERVER) ;;
  modify (fun c => set_outbuf (outbuf c ++ request_line req ++ CRLF) c) ;;
  modify (fun c => set_outbuf (outbuf c ++ headers_dump (req_headers req)) c).

(** [evbuffer_add_printf(outbuf, "%s %d %s\r\n", ...)] of
    [http_conn_write_response]: the version written is the connection's. *)
Definition response_line (c : http_conn) (resp : http_response) : bytes :=
  version_to_string (vers c) ++ [SP] ++ print_int (resp_code resp) ++ [SP]
  ++ resp_reason resp.

Definition http_conn_write_response (resp : http_response) : M unit :=
  c <- get ;;
  assert (type_eqb (type c) HTTP_CLIENT) ;;
  modify (fun c => set_outbuf (outbuf c ++ response_line c resp ++ CRLF) c) ;;
  modify (fun c => set_outbuf (outbuf c ++ headers_dump (resp_headers resp)) c).

(** [http_conn_write_buf]: the result is the int returned together with the
    caller's buffer as it is left. *)
Definition http_conn_write_buf (buf : bytes) : M (Z * bytes) :=
  c <- get ;;
  let (out, buf) := evbuffer_add_buffer (outbuf c) buf in
  modify (set_outbuf out) ;;
  c <- get ;;
  if blen (outbuf c) >? max_write_backlog then
    modify (fun c => set_bev (bev_setwatermark_write (max_write_backlog / 2) 0 (bev c)) c) ;;
    modify (set_is_choaked true) ;;
    ret (0, buf)
  else ret (1, buf).

Definition http_conn_current_message_has_body : M bool :=
  c <- get ;; ret (has_body c).

Definition http_conn_set_current_message_bodyless : M unit :=
  c <- get ;;
  assert (type_eqb (type c) HTTP_SERVER) ;;
  modify (set_has_body false).

Definition http_conn_is_persistent : M bool :=
  c <- get ;; ret (persistent c).

Definition http_conn_stop_reading : M unit :=
  modify (fun c => set_bev (bev_disable true false (bev c)) c) ;;
  modify (set_read_paused true).

Definition http_conn_start_reading (fuel : nat) : M unit :=
  modify (fun c => set_bev (bev_enable true false (bev c)) c) ;;
  modify (set_read_paused false) ;;
  c <- get ;;
  when (blen (inbuf c) >? 0) (process_inbuf fuel).

Definition http_conn_flush : M unit :=
  c <- get ;;
  when (blen (outbuf c) =? 0) on_flush.

(** ** The transport driving the engine

    What libevent's socket bufferevent does around the three callbacks. *)

(** The socket is readable and [data] arrives: with reading enabled the bytes
    are added to the input buffer and the read callback runs. *)
Definition bev_readable (fuel : nat) (data : bytes) : M unit :=
  c <- get ;;
  if (ev_read (bev c) && negb (blen data =? 0))%bool then
    modify (fun c => set_inbuf (inbuf c ++ data) c) ;;
    http_readcb fuel
  else ret tt.

(** The socket takes [n] bytes of the output buffer: with writing enabled
    they are drained, and the write callback runs when what is left is at or
    below the low-water mark. *)
Definition bev_writable (n : Z) : M unit :=
  c <- get ;;
  if (ev_write (bev c) && (n >? 0) && (blen (outbuf c) >? 0))%bool then
    modify (fun c => set_outbuf (skipn (Z.to_nat n) (outbuf c)) c) ;;
    c <- get ;;
    when (blen (outbuf c) <=? wm_write_low (bev c)) http_writecb
  else ret tt.

(** An event (EOF, error, timeout, connected) is delivered. *)
Definition bev_event (what : Z) : M unit := http_errorcb what.

(** ** Scenarios *)

(** The world a call leaves behind, however it ended. *)
Definition world_of {A} (o : outcome A) : world :=
  match o with Done _ w | Fatal w | Spin w => w end.

(** A connection fresh from [http_conn_new] on an open socket. *)
Definition idle_world (type : http_type) : world := world_of (http_conn_new 3 type).

(** The transport takes the output in pieces of the sizes given. *)
Fixpoint drains (ns : list Z) : M unit :=
  match ns with
  | [] => ret tt
  | n :: r => bev_writable n ;; drains r
  end.

Definition is_write_more (e : event) : bool :=
  match e with on_write_more_ev => true | _ => false end.

Definition count_write_more (t : list event) : nat :=
  List.length (filter is_write_more t).

(** One byte more than the write backlog allows. *)
Definition backlog : bytes := repeat "x"%char (Z.to_nat 51201).

(** What [end_message] first does to the pending header list. *)
Definition clear_headers (c : http_conn) : http_conn :=
  match headers c with
  | Some _ => set_headers (Some []) c
  | None => c
  end.

(** What [end_message] does to a connection that does not go on. *)
Definition mangle (c : http_conn) : http_conn :=
  set_bev (bev_disable true true (bev (set_state HTTP_STATE_MANGLED c)))
          (set_state HTTP_STATE_MANGLED c).

(** A response without Content-Length or chunking: the body ends at EOF. *)
Definition eof_body_response : bytes :=
  txt "HTTP/1.0 200 OK" ++ CRLF ++ txt "Server: s" ++ CRLF ++ CRLF ++ txt "abc".

(** A connection that has read that response: the headers and three bytes
    of the body. *)
Definition eof_body_world : world :=
  world_of (bev_readable 10 eof_body_response (idle_world HTTP_SERVER)).


(** Two HTTP/1.1 responses of known length that differ in their Connection
    header. *)
Definition close_response : bytes :=
  txt "HTTP/1.1 200 OK" ++ CRLF ++ txt "Content-Length: 5" ++ CRLF
  ++ txt "Connection: close" ++ CRLF ++ CRLF ++ txt "hello".

Definition keepalive_response : bytes :=
  txt "HTTP/1.1 200 OK" ++ CRLF ++ txt "Content-Length: 5" ++ CRLF
  ++ txt "Connection: keep-alive" ++ CRLF ++ CRLF ++ txt "hello".

(** A POST without Content-Length and without Transfer-Encoding, and the
    request it parses to. *)
Definition post_without_length : bytes :=
  txt "POST / HTTP/1.1" ++ CRLF ++ txt "Host: a" ++ CRLF ++ CRLF.

Definition post_request : http_request :=
  {| req_meth := METH_POST; req_vers := HTTP_11;
     req_url := {| host := None; port := -1; query := txt "/" |};
     req_headers := [(txt "Host", txt "a")] |}.

(** The headers of a chunked response, and a chunked body. *)
Definition chunked_head : bytes :=
  txt "HTTP/1.1 200 OK" ++ CRLF ++ txt "Transfer-Encoding: chunked" ++ CRLF ++ CRLF.

Definition chunked_body : bytes :=
  txt "4" ++ CRLF ++ txt "Wiki" ++ CRLF ++ txt "5" ++ CRLF ++ txt "pedia" ++ CRLF
  ++ txt "0" ++ CRLF ++ CRLF.

(** A connection that has read the headers of a chunked response and waits
    for the first chunk size. *)
Definition chunked_world : world :=
  world_of (bev_readable 10 chunked_head (idle_world HTTP_SERVER)).

(** The pieces of a byte stream arrive one read at a time. *)
Fixpoint deliver (fuel : nat) (parts : list bytes) : M unit :=
  match parts with
  | [] => ret tt
  | p :: r => bev_readable fuel p ;; deliver fuel r
  end.

Definition is_body (e : event) : bool :=
  match e with on_read_body_ev _ => true | _ => false end.

(** The body bytes handed to the owner, in order. *)
Fixpoint body_of (t : list event) : bytes :=
  match t with
  | [] => []
  | on_read_body_ev data :: t' => data ++ body_of t'
  | _ :: t' => body_of t'
  end.

(** The chunked body, cut in two after [n] bytes, is decoded: every call
    returns, and the owner sees body deliveries that add up to "Wikipedia"
    followed by one completion, and nothing else. *)
Definition decodes_when_cut_at (n : nat) : bool :=
  match deliver 50 [firstn n chunked_body; skipn n chunked_body] chunked_world with
  | Done _ w =>
      let t := skipn (List.length (w_trace chunked_world)) (w_trace w) in
      match rev t with
      | on_msg_complete_ev :: bodies =>
          (forallb is_body bodies && bytes_eqb (body_of t) (txt "Wikipedia"))%bool
      | _ => false
      end
  | _ => false
  end.

(** The same connection with an invalid chunk-size line and more bytes in
    its input buffer. *)
Definition bad_chunk_world : world :=
  {| w_conn := set_inbuf (txt "xyz" ++ CRLF ++ txt "4" ++ CRLF ++ txt "Wiki" ++ CRLF)
                         (w_conn chunked_world);
     w_trace := w_trace chunked_world |}.

(** None of the bytes [cs] occurs in [l]. *)
Definition free_of (cs l : bytes) : bool :=
  forallb (fun c => negb (existsb (Ascii.eqb c) l)) cs.

(** The bytes that would end a token, a line or a C string. *)
Definition delimiters : bytes := [SP; LF; NUL].

(** The status code 100 + k is printed without delimiters and read back by
    [atoi]. *)
Definition code_round_trips (k : nat) : bool :=
  let c := 100 + Z.of_nat k in
  ((atoi (print_int c) =? c) && free_of delimiters (print_int c))%bool.











(** A fresh connection with [wire] in its input buffer. *)
Definition receiving_world (type : http_type) (wire : bytes) : world :=
  {| w_conn := set_inbuf wire (w_conn (idle_world type)); w_trace := [] |}.

(** What the owner and the transport can do to a connection. *)
Inductive action :=
| Readable (data : bytes)
| Writable (n : Z)
| Event (what : Z)
| Connect
| SendRequest (req : http_request)
| SendResponse (resp : http_response)
| SendBuf (buf : bytes)
| SetBodyless
| StopReading
| StartReading
| Flush.

(** [fuel] is the budget of turns of the read loop, where the action runs
    it. *)
Definition act (fuel : nat) (a : action) : M unit :=
  match a with
  | Readable data => bev_readable fuel data
  | Writable n => bev_writable n
  | Event what => bev_event what
  | Connect => http_conn_connect
  | SendRequest req => http_conn_write_request req
  | SendResponse resp => http_conn_write_response resp
  | SendBuf buf => http_conn_write_buf buf ;; ret tt
  | SetBodyless => http_conn_set_current_message_bodyless
  | StopReading => http_conn_stop_reading
  | StartReading => http_conn_start_reading fuel
  | Flush => http_conn_flush
  end.

(** The states a connection is in when a call into the engine has
    returned. *)
Inductive reachable : world -> Prop :=
| reach_new (sock : Z) (type : http_type) (w : world) :
    http_conn_new sock type = Done tt w -> reachable w
| reach_act (fuel : nat) (a : action) (w w' : world) :
    reachable w -> act fuel a w = Done tt w' -> reachable w'.



(** ** Further scenarios and predicates *)

(** A lower-case letter. *)
Definition is_lower (c : ascii) : bool :=
  let n := nat_of_ascii c in (Nat.leb 97 n && Nat.leb n 122)%bool.

(** The error a transport event is reported as, outside CONNECTING. *)
Definition event_error (st : http_state) (what : Z) : http_conn_error :=
  if has_flag what BEV_EVENT_WRITING then ERROR_WRITE_FAILED
  else match st with
       | HTTP_STATE_IDLE => ERROR_IDLE_CONN_TIMEDOUT
       | _ => ERROR_INCOMPLETE_HEADERS
       end.

(** A connection made without a socket, on which a connect has been
    started. *)
Definition connecting_world (type : http_type) : world :=
  world_of (http_conn_connect (world_of (http_conn_new (-1) type))).

(** What matters of a connection that is reading an identity body. *)
Record reading_identity (c : http_conn) (remaining : Z) : Prop := {
  ri_state : state c = HTTP_STATE_READ_BODY;
  ri_has_body : has_body c = true;
  ri_te : te c = TE_IDENTITY;
  ri_paused : read_paused c = false;
  ri_enabled : ev_read (bev c) = true;
  ri_inbuf : inbuf c = [];
  ri_staging : inbuf_processed c = [];
  ri_remaining : data_remaining c = remaining;
  ri_rearm : headers c = None /\ firstline c = None
}.

(** Every piece holds at least one byte. *)
Fixpoint all_nonempty (parts : list bytes) : Prop :=
  match parts with
  | [] => True
  | p :: r => p <> [] /\ all_nonempty r
  end.

(** A response of five body bytes on a persistent connection, its headers
    read. *)
Definition known_length_world : world :=
  world_of (bev_readable 10
              (txt "HTTP/1.1 200 OK" ++ CRLF ++ txt "Content-Length: 5" ++ CRLF ++ CRLF)
              (idle_world HTTP_SERVER)).

(** A chunked body as it travels: for each chunk its size line and its data,
    each followed by CRLF, then the last chunk and the empty line. *)
Fixpoint chunks_wire (cs : list (bytes * bytes)) : bytes :=
  match cs with
  | [] => txt "0" ++ CRLF ++ CRLF
  | (line, data) :: r => line ++ CRLF ++ data ++ CRLF ++ chunks_wire r
  end.

(** The first component is a size line for the second: one line, read by
    [get_int] as the number of data bytes, of which there is at least one. *)
Definition size_line_for (chunk : bytes * bytes) : Prop :=
  free_of [LF; NUL] (fst chunk) = true
  /\ get_int (fst chunk) 16 = blen (snd chunk)
  /\ snd chunk <> [].

(** A connection in the middle of a chunked body, with [buf] buffered and
    the counter at [remaining]. *)
Record reading_chunked (c : http_conn) (remaining : Z) (buf : bytes) : Prop := {
  rc_state : state c = HTTP_STATE_READ_BODY;
  rc_has_body : has_body c = true;
  rc_te : te c = TE_CHUNKED;
  rc_paused : read_paused c = false;
  rc_inbuf : inbuf c = buf;
  rc_staging : inbuf_processed c = [];
  rc_remaining : data_remaining c = remaining;
  rc_headers : headers c = None;
  rc_firstline : firstline c = None
}.

(** A response of five body bytes on a connection that is closed after it
    (HTTP/1.0), its headers read. *)
Definition final_response_world : world :=
  world_of (bev_readable 10
              (txt "HTTP/1.0 200 OK" ++ CRLF ++ txt "Content-Length: 5" ++ CRLF ++ CRLF)
              (idle_world HTTP_SERVER)).

(** A response that has no body by its status. *)
Definition no_content_response : http_response :=
  {| resp_vers := HTTP_11; resp_code := 204; resp_reason := txt "No Content";
     resp_headers := [] |}.

(** The message is one that may have a body: a POST or PUT request read from
    a client, or a response read from a server whose status code does not
    rule a body out; its version is known. *)
Definition may_have_body (c : http_conn) (req : option http_request)
           (resp : option http_response) : Prop :=
  match type c, req, resp with
  | HTTP_CLIENT, Some r, _ => is_post_or_put (req_meth r) = true /\ req_vers r <> HTTP_UNKNOWN
  | HTTP_SERVER, _, Some r => bodyless_code (resp_code r) = false /\ resp_vers r <> HTTP_UNKNOWN
  | _, _, _ => False
  end.

(** A connection holding the header list [hs] for the message being read. *)
Definition with_headers (hs : header_list) (w : world) : world :=
  {| w_conn := set_headers (Some hs) (w_conn w); w_trace := w_trace w |}.

(** A response that may have a body, with the headers [hs]. *)
Definition ok_response (hs : header_list) : http_response :=
  {| resp_vers := HTTP_11; resp_code := 200; resp_reason := txt "OK"; resp_headers := hs |}.

(** A header list that gives a length and the chunked encoding. *)
Definition both_framing_headers : header_list :=
  [(txt "Content-Length", txt "10"); (txt "Transfer-Encoding", txt "Chunked")].

(** The message is one that has no body by its kind: a request other than
    POST and PUT, or a response with status 1xx, 204, 205 or 304. *)
Definition bodyless_by_kind (c : http_conn) (req : option http_request)
           (resp : option http_response) : Prop :=
  match type c, req, resp with
  | HTTP_CLIENT, Some r, _ => is_post_or_put (req_meth r) = false /\ req_vers r <> HTTP_UNKNOWN
  | HTTP_SERVER, _, Some r => bodyless_code (resp_code r) = true /\ resp_vers r <> HTTP_UNKNOWN
  | _, _, _ => False
  end.

(** A request that has no body by its method. *)
Definition head_request (hs : header_list) : http_request :=
  {| req_meth := METH_HEAD; req_vers := HTTP_11;
     req_url := {| host := None; port := -1; query := txt "/" |}; req_headers := hs |}.

(** No Transfer-Encoding header that says chunked. *)
Definition not_chunked (c : http_conn) : Prop :=
  match headers_find (the_headers c) (txt "transfer-encoding") with
  | Some val => evutil_ascii_strcasecmp val (txt "chunked") <> 0
  | None => True
  end.

(** A header list that gives a length and an encoding other than chunked. *)
Definition length_headers : header_list :=
  [(txt "Transfer-Encoding", txt "gzip"); (txt "content-length", txt "10")].

(** A header list whose Content-Length is not a number. *)
Definition mangled_length_headers : header_list := [(txt "Content-Length", txt "ten")].

(** A response line read from a server, its headers still to come. *)
Definition headers_pending_world : world :=
  let w := world_of (bev_readable 10 (txt "HTTP/1.1 200 OK" ++ CRLF) (idle_world HTTP_SERVER)) in
  {| w_conn := set_inbuf (txt "Content-Length: 5" ++ CRLF ++ CRLF) (w_conn w);
     w_trace := w_trace w |}.

(** The message fits the side the connection reads from, and its version is
    known. *)
Definition message_fits (c : http_conn) (req : option http_request)
           (resp : option http_response) : Prop :=
  match type c, req, resp with
  | HTTP_CLIENT, Some r, _ => req_vers r <> HTTP_UNKNOWN
  | HTTP_SERVER, _, Some r => resp_vers r <> HTTP_UNKNOWN
  | _, _, _ => False
  end.

(** What the write side of a connection consists of: the output buffer, the
    choke flag and the low-water mark for writing. *)
Definition write_side (c : http_conn) : bytes * bool * Z :=
  (outbuf c, is_choaked c, wm_write_low (bev c)).

(** The low-water mark for writing is half the backlog limit while the
    connection is choked, and zero otherwise. *)
Definition choke_ok (c : http_conn) : Prop :=
  wm_write_low (bev c) = (if is_choaked c then max_write_backlog / 2 else 0).

(** A chunked response whose first chunk, of five bytes, has been
    announced. *)
Definition chunk_announced_world : world :=
  world_of (bev_readable 10 (txt "5" ++ CRLF) chunked_world).

(** A URL without a host. *)
Definition index_url : url := {| host := None; port := -1; query := txt "/index.html" |}.

(** A GET request with the headers [hs]. *)
Definition get_request (hs : header_list) : http_request :=
  {| req_meth := METH_GET; req_vers := HTTP_11; req_url := index_url; req_headers := hs |}.

(** A request line read from a client, the headers buffered. *)
Definition request_pending_world : world :=
  let w := world_of (bev_readable 10 (request_line (get_request []) ++ CRLF)
                                  (idle_world HTTP_CLIENT)) in
  {| w_conn := set_inbuf (txt "Host: example.org" ++ CRLF ++ CRLF) (w_conn w);
     w_trace := w_trace w |}.

(** The headers of the message handed to the owner last, by
    [on_client_request] or [on_server_response]. *)
Definition last_headers (t : list event) : header_list :=
  fold_left (fun hs e => match e with
                         | on_client_request_ev r => req_headers r
                         | on_server_response_ev r => resp_headers r
                         | _ => hs
                         end) t [].

(** The length of the body that the headers [hs] give, as [check_headers]
    reads it: [get_int] of the value that [headers_find] returns for
    "content-length", when that is not negative. *)
Definition length_of (hs : header_list) : option Z :=
  match headers_find hs (txt "content-length") with
  | Some val => if get_int val 10 <? 0 then None else Some (get_int val 10)
  | None => None
  end.






(** * Theorems *)

(** ** Proof tools *)

(** Unfolding the monad, in the goal and in a hypothesis. *)
Ltac unfold_m :=
  unfold bind, get, modify, emit, ret, assert, when, log_fatal in *.

Ltac run_m :=
  repeat (progress (unfold bind, get, modify, emit, ret, assert, when, log_fatal;
                    cbn beta iota delta [w_conn w_trace])).

(** Case analysis on what a hypothesis branches on. *)
Ltac break_match :=
  match goal with
  | H : context [match ?x with _ => _ end] |- _ =>
      lazymatch x with
      | context [match _ with _ => _ end] => fail
      | _ => destruct x eqn:?
      end
  | H : context [if ?x then _ else _] |- _ =>
      lazymatch x with
      | context [if _ then _ else _] => fail
      | _ => destruct x eqn:?
      end
  end.

Ltac run_in H :=
  repeat (progress (unfold bind, get, modify, emit, ret, assert, when, log_fatal in H;
                    cbn beta iota delta [w_conn w_trace] in H)).

(** A call that is known to have returned. *)
Ltac done_inv :=
  repeat match goal with
         | H : Done _ _ = Done _ _ |- _ => injection H; clear H; intros; subst
         | H : Fatal _ = Done _ _ |- _ => discriminate H
         | H : Spin _ = Done _ _ |- _ => discriminate H
         end.

Ltac simpl_hyps :=
  cbn -[headers_find evutil_ascii_strcasecmp get_int txt Z.ltb Z.eqb bodyless_code
        check_framing_headers Z.pow] in *.

(** Inversion of a monadic computation that returned. *)
Lemma bind_done {A B} (m : M A) (k : A -> M B) (w w' : world) (b : B) :
  bind m k w = Done b w' ->
  exists a w1, m w = Done a w1 /\ k a w1 = Done b w'.
Proof.
  unfold bind. destruct (m w) as [a w1| |]; intros H; try discriminate H.
  exists a, w1. split; [reflexivity | exact H].
Qed.

Lemma get_done (w w' : world) (c : http_conn) :
  get w = Done c w' -> c = w_conn w /\ w' = w.
Proof. unfold get. intros H. injection H as <- <-. split; reflexivity. Qed.

Lemma modify_done (f : http_conn -> http_conn) (w w' : world) (a : unit) :
  modify f w = Done a w' -> w' = {| w_conn := f (w_conn w); w_trace := w_trace w |}.
Proof. unfold modify. intros H. injection H as _ <-. reflexivity. Qed.

Lemma emit_done (e : event) (w w' : world) (a : unit) :
  emit e w = Done a w' -> w' = {| w_conn := w_conn w; w_trace := w_trace w ++ [e] |}.
Proof. unfold emit. intros H. injection H as _ <-. reflexivity. Qed.

Lemma ret_done {A} (x a : A) (w w' : world) :
  ret x w = Done a w' -> a = x /\ w' = w.
Proof. unfold ret. intros H. injection H as <- <-. split; reflexivity. Qed.

Lemma assert_done (cond : bool) (w w' : world) (a : unit) :
  assert cond w = Done a w' -> cond = true /\ w' = w.
Proof.
  unfold assert, ret, log_fatal. destruct cond; intros H; [|discriminate H].
  injection H as _ <-. split; reflexivity.
Qed.

(** *** Write-side flow control *)

Lemma write_buf_spec (buf : bytes) (w : world) :
  http_conn_write_buf buf w =
    let c := set_outbuf (outbuf (w_conn w) ++ buf) (w_conn w) in
    if blen (outbuf (w_conn w) ++ buf) >? max_write_backlog
    then Done (0, [])
           {| w_conn := set_is_choaked true
                          (set_bev (bev_setwatermark_write (max_write_backlog / 2) 0 (bev c)) c);
              w_trace := w_trace w |}
    else Done (1, []) {| w_conn := c; w_trace := w_trace w |}.
Proof.
  unfold http_conn_write_buf, evbuffer_add_buffer. unfold_m.
  cbn -[Z.gtb max_write_backlog Z.div blen].
  destruct (blen (outbuf (w_conn w) ++ buf) >? max_write_backlog); reflexivity.
Qed.

(** C10: [http_conn_write_buf] moves the whole of the caller's buffer to the
    end of the transport's output buffer before it looks at the backlog.
    Whatever the connection state and whatever it returns (0 for choked, 1
    otherwise), the output buffer afterwards is the old output followed by
    all the bytes supplied, the caller's buffer is empty, the input buffer is
    untouched and no callback runs. *)
Theorem write_buf_accepts_all (buf : bytes) (w : world) :
  exists r w',
    http_conn_write_buf buf w = Done (r, []) w'
    /\ outbuf (w_conn w') = outbuf (w_conn w) ++ buf
    /\ inbuf (w_conn w') = inbuf (w_conn w)
    /\ w_trace w' = w_trace w
    /\ (r = 0 \/ r = 1).
Proof.
  rewrite write_buf_spec. cbv zeta.
  destruct (blen (outbuf (w_conn w) ++ buf) >? max_write_backlog);
    eexists; eexists; (split; [reflexivity|]); simpl; auto.
Qed.

Lemma writecb_spec (w : world) :
  http_writecb w =
    if is_choaked (w_conn w) then
      Done tt {| w_conn := set_is_choaked false
                             (set_bev (bev_setwatermark_write 0 0 (bev (w_conn w))) (w_conn w));
                 w_trace := w_trace w ++ [on_write_more_ev] |}
    else if blen (outbuf (w_conn w)) =? 0 then
      Done tt {| w_conn := w_conn w; w_trace := w_trace w ++ [on_flush_ev] |}
    else Done tt w.
Proof.
  unfold http_writecb, on_write_more, on_flush. unfold_m.
  destruct (is_choaked (w_conn w)); [reflexivity|].
  destruct (blen (outbuf (w_conn w)) =? 0); reflexivity.
Qed.

Lemma writable_spec (n : Z) (w : world) :
  bev_writable n w =
    if (ev_write (bev (w_conn w)) && (n >? 0) && (blen (outbuf (w_conn w)) >? 0))%bool then
      let w' := {| w_conn := set_outbuf (skipn (Z.to_nat n) (outbuf (w_conn w))) (w_conn w);
                   w_trace := w_trace w |} in
      if blen (skipn (Z.to_nat n) (outbuf (w_conn w))) <=? wm_write_low (bev (w_conn w))
      then http_writecb w' else Done tt w'
    else Done tt w.
Proof.
  unfold bev_writable. unfold_m.
  destruct (ev_write (bev (w_conn w)) && (n >? 0) && (blen (outbuf (w_conn w)) >? 0))%bool;
    [|reflexivity].
  cbn -[Z.leb blen http_writecb skipn].
  destruct (blen (skipn (Z.to_nat n) (outbuf (w_conn w))) <=? wm_write_low (bev (w_conn w)));
    reflexivity.
Qed.

Lemma blen_skipn_le (n : nat) (l : bytes) : blen (skipn n l) <= blen l.
Proof. unfold blen. rewrite length_skipn. lia. Qed.

Lemma drains_unchoked (ns : list Z) : forall w,
  is_choaked (w_conn w) = false ->
  exists w2 evs,
    drains ns w = Done tt w2
    /\ w_trace w2 = w_trace w ++ evs
    /\ count_write_more evs = 0%nat
    /\ is_choaked (w_conn w2) = false
    /\ blen (outbuf (w_conn w2)) <= blen (outbuf (w_conn w)).
Proof.
  induction ns as [|n r IH]; intros w Hc.
  - exists w, []. simpl. rewrite app_nil_r. repeat split; auto; lia.
  - simpl. unfold bind. rewrite writable_spec.
    destruct (ev_write (bev (w_conn w)) && (n >? 0) && (blen (outbuf (w_conn w)) >? 0))%bool.
    + cbv zeta.
      pose proof (blen_skipn_le (Z.to_nat n) (outbuf (w_conn w))) as Hle.
      destruct (blen (skipn (Z.to_nat n) (outbuf (w_conn w))) <=? wm_write_low (bev (w_conn w))).
      * rewrite writecb_spec. cbn [w_conn w_trace]. 
        replace (is_choaked (set_outbuf (skipn (Z.to_nat n) (outbuf (w_conn w))) (w_conn w)))
          with false by (symmetry; exact Hc).
        match goal with |- context [if ?b then _ else _] => destruct b end.
        -- match goal with |- context [drains r ?w1] => destruct (IH w1) as (w2 & evs & E & T & C & K & L) end.
           { exact Hc. }
           rewrite E. exists w2, (on_flush_ev :: evs). cbn [w_trace w_conn] in *.
           rewrite T, <- app_assoc. repeat split; auto.
           change (outbuf _) with (skipn (Z.to_nat n) (outbuf (w_conn w))) in L at 2. lia.
        -- match goal with |- context [drains r ?w1] => destruct (IH w1) as (w2 & evs & E & T & C & K & L) end.
           { exact Hc. }
           rewrite E. exists w2, evs. cbn [w_trace w_conn] in *.
           repeat split; auto.
           change (outbuf _) with (skipn (Z.to_nat n) (outbuf (w_conn w))) in L at 2. lia.
      * match goal with |- context [drains r ?w1] => destruct (IH w1) as (w2 & evs & E & T & C & K & L) end.
        { exact Hc. }
        rewrite E. exists w2, evs. cbn [w_trace w_conn] in *.
        repeat split; auto.
        change (outbuf _) with (skipn (Z.to_nat n) (outbuf (w_conn w))) in L at 2. lia.
    + destruct (IH w Hc) as (w2 & evs & E & T & C & K & L).
      exists w2, evs. auto.
Qed.

Lemma drains_choked (ns : list Z) : forall w,
  is_choaked (w_conn w) = true ->
  wm_write_low (bev (w_conn w)) = 25 * 1024 ->
  blen (outbuf (w_conn w)) > 25 * 1024 ->
  exists w2 evs,
    drains ns w = Done tt w2
    /\ w_trace w2 = w_trace w ++ evs
    /\ if blen (outbuf (w_conn w2)) <=? 25 * 1024
       then count_write_more evs = 1%nat /\ is_choaked (w_conn w2) = false
       else evs = [] /\ is_choaked (w_conn w2) = true.
Proof.
  induction ns as [|n r IH]; intros w Hc Hwm Hlen.
  - exists w, []. cbn [drains]. unfold ret. rewrite app_nil_r.
    split; [reflexivity|]. split; [reflexivity|].
    destruct (blen (outbuf (w_conn w)) <=? 25 * 1024) eqn:E; [lia | auto].
  - cbn [drains]. unfold bind. rewrite writable_spec.
    destruct (ev_write (bev (w_conn w)) && (n >? 0) && (blen (outbuf (w_conn w)) >? 0))%bool.
    + cbv zeta. rewrite Hwm.
      destruct (blen (skipn (Z.to_nat n) (outbuf (w_conn w))) <=? 25 * 1024) eqn:Elow.
      * rewrite writecb_spec. cbn [w_conn w_trace].
        replace (is_choaked (set_outbuf (skipn (Z.to_nat n) (outbuf (w_conn w))) (w_conn w)))
          with true by (symmetry; exact Hc).
        match goal with |- context [drains r ?w1] =>
          destruct (@drains_unchoked r w1) as (w2 & evs & E & T & C & K & L) end.
        { reflexivity. }
        rewrite E. exists w2, (on_write_more_ev :: evs). cbn [w_trace w_conn] in *.
        rewrite T, <- app_assoc. repeat split; auto.
        change (outbuf _) with (skipn (Z.to_nat n) (outbuf (w_conn w))) in L at 2.
        destruct (blen (outbuf (w_conn w2)) <=? 25 * 1024) eqn:E2; [|lia].
        split; [|exact K]. unfold count_write_more in *. simpl. now rewrite C.
      * match goal with |- context [drains r ?w1] => destruct (IH w1) as (w2 & evs & E & T & C) end.
        { exact Hc. } { exact Hwm. }
        { change (outbuf _) with (skipn (Z.to_nat n) (outbuf (w_conn w))). lia. }
        rewrite E. exists w2, evs. cbn [w_trace w_conn] in *. auto.
    + destruct (IH w Hc Hwm Hlen) as (w2 & evs & E & T & C).
      exists w2, evs. auto.
Qed.

(** C7: [http_conn_write_buf] returns 0 exactly when the output buffer is
    longer than 50 KiB after the append, and then the connection is choked
    and the write low-water mark is 25 KiB.  From there, however the
    transport drains the output: as long as more than 25 KiB are buffered no
    callback runs and the connection stays choked; once the output is down to
    25 KiB or less, [on_write_more] has run exactly once and the connection is
    no longer choked. *)
Theorem choke_at_high_water_unchoke_at_low_water :
  (forall buf w, exists r w',
      http_conn_write_buf buf w = Done (r, []) w'
      /\ (r = 0 <-> blen (outbuf (w_conn w')) > 50 * 1024)
      /\ (r = 0 -> is_choaked (w_conn w') = true
                   /\ wm_write_low (bev (w_conn w')) = 25 * 1024))
  /\
  (forall buf w w1 ns,
      http_conn_write_buf buf w = Done (0, []) w1 ->
      exists w2 evs,
        drains ns w1 = Done tt w2
        /\ w_trace w2 = w_trace w1 ++ evs
        /\ if blen (outbuf (w_conn w2)) <=? 25 * 1024
           then count_write_more evs = 1%nat /\ is_choaked (w_conn w2) = false
           else evs = [] /\ is_choaked (w_conn w2) = true).
Proof.
  split.
  - intros buf w. rewrite write_buf_spec. cbv zeta.
    destruct (blen (outbuf (w_conn w) ++ buf) >? max_write_backlog) eqn:E;
      eexists; eexists; (split; [reflexivity|]);
      unfold max_write_backlog, outbuf in *;
      cbn [w_conn set_outbuf set_bev set_is_choaked bev output set_output
           bev_setwatermark_write wm_write_low is_choaked].
    + split; [split; [lia | reflexivity] | intros _; split; reflexivity].
    + split; [split; [discriminate | lia] | discriminate].
  - intros buf w w1 ns H. rewrite write_buf_spec in H. cbv zeta in H.
    destruct (blen (outbuf (w_conn w) ++ buf) >? max_write_backlog) eqn:E; [|discriminate].
    injection H as <-. apply drains_choked; try reflexivity.
    unfold max_write_backlog, outbuf in *.
    cbn [w_conn set_outbuf set_bev set_is_choaked bev output set_output
         bev_setwatermark_write]. lia.
Qed.

Lemma blen_backlog : blen backlog = 51201.
Proof. unfold blen, backlog. rewrite repeat_length. apply Z2Nat.id. lia. Qed.

Lemma choke_at_high_water_unchoke_at_low_water_witness :
  exists w2 evs,
    drains [20000; 20000; 11201]
      (world_of (http_conn_write_buf backlog (idle_world HTTP_CLIENT))) = Done tt w2
    /\ w_trace w2 = [] ++ evs
    /\ if blen (outbuf (w_conn w2)) <=? 25 * 1024
       then count_write_more evs = 1%nat /\ is_choaked (w_conn w2) = false
       else evs = [] /\ is_choaked (w_conn w2) = true.
Proof.
  apply (proj2 choke_at_high_water_unchoke_at_low_water backlog (idle_world HTTP_CLIENT)).
  rewrite write_buf_spec. cbv zeta.
  replace (blen (outbuf (w_conn (idle_world HTTP_CLIENT)) ++ backlog) >? max_write_backlog)
    with true; [reflexivity|].
  change (outbuf (w_conn (idle_world HTTP_CLIENT))) with (@nil ascii).
  rewrite app_nil_l, blen_backlog. reflexivity.
Defined.

(** *** Message completion *)

Lemma end_message_error (err : http_conn_error) (w : world) :
  err <> ERROR_NONE ->
  end_message err w =
    Done tt {| w_conn := mangle (clear_headers (w_conn w));
               w_trace := w_trace w ++ [on_error_ev err] |}.
Proof.
  intros H. unfold end_message, on_error. unfold_m. cbn [w_conn w_trace].
  assert (E : error_eqb err ERROR_NONE = false) by (destruct err; auto; congruence).
  rewrite E. reflexivity.
Qed.

Lemma end_message_last (w : world) :
  persistent (w_conn w) = false ->
  end_message ERROR_NONE w =
    Done tt {| w_conn := mangle (clear_headers (w_conn w));
               w_trace := w_trace w ++ [on_msg_complete_ev] |}.
Proof.
  intros H. unfold end_message, on_msg_complete. unfold_m. cbn [w_conn w_trace error_eqb negb orb].
  unfold clear_headers.
  destruct (headers (w_conn w)); cbn [persistent set_headers]; rewrite H; reflexivity.
Qed.

Lemma end_message_rearm (w : world) :
  persistent (w_conn w) = true ->
  read_paused (w_conn w) = false ->
  headers (w_conn w) = None ->
  firstline (w_conn w) = None ->
  exists w', end_message ERROR_NONE w = Done tt w'
             /\ w_trace w' = w_trace w ++ [on_msg_complete_ev]
             /\ state (w_conn w') = HTTP_STATE_IDLE.
Proof.
  intros Hp Hr Hh Hf. unfold end_message, on_msg_complete, begin_message. unfold_m.
  cbn [w_conn w_trace error_eqb negb orb]. rewrite Hh, Hp. cbn [negb w_conn].
  rewrite Hh, Hf, Hr. cbn. eexists. split; [reflexivity|]. cbn. auto.
Qed.

(** *** Transport events while a body is being read *)




(** *** Persistence and the Connection header *)

Lemma check_headers_persistent_only_on_close
      (resp : option http_response) (w w' : world) (val : bytes) :
  type (w_conn w) = HTTP_SERVER ->
  check_headers None resp w = Done tt w' ->
  headers_find (the_headers (w_conn w)) (txt "connection") = Some val ->
  persistent (w_conn w') = true ->
  evutil_ascii_strcasecmp val (txt "close") = 0.
Proof.
  intros Ht H Hf Hp.
  unfold check_headers, check_framing_headers, on_error in H. unfold_m.
  cbn [w_conn w_trace type set_te set_has_body set_msg_complete_on_eof set_data_remaining] in H.
  rewrite Ht in H. destruct resp as [resp|]; [|discriminate].
  cbn -[headers_find evutil_ascii_strcasecmp get_int txt Z.ltb Z.eqb bodyless_code] in H.
  repeat (break_match;
          cbn -[headers_find evutil_ascii_strcasecmp get_int txt Z.ltb Z.eqb bodyless_code] in *;
          try discriminate);
    try (injection H as <-; cbn in Hp); try discriminate.
  all: unfold the_headers in *;
    cbn -[headers_find evutil_ascii_strcasecmp get_int txt Z.ltb Z.eqb bodyless_code] in *;
    try match goal with
    | H1 : headers_find _ (txt "connection") = Some ?x,
      H2 : negb (evutil_ascii_strcasecmp ?x (txt "close") =? 0) = false |- _ =>
        rewrite Hf in H1; injection H1 as <-;
        apply negb_false_iff in H2; apply Z.eqb_eq in H2; exact H2
    | H1 : headers_find _ (txt "connection") = None |- _ =>
        rewrite Hf in H1; discriminate H1
    end.
  all: match goal with
       | H1 : (type_eqb (type _) HTTP_CLIENT && _ && _)%bool = true |- _ =>
           rewrite Ht in H1; discriminate H1
       end.
Qed.

(** C1: the code reads the Connection header backwards.  An HTTP/1.1
    response with a known length and [Connection: close] leaves the
    connection persistent (it is re-armed and goes back to IDLE), while the
    same response with [Connection: keep-alive] makes it non-persistent (it
    ends MANGLED): persistence is dropped exactly when the value is NOT
    "close". *)
Theorem connection_close_is_read_backwards :
  persistent (w_conn (world_of
    (bev_readable 10 close_response (idle_world HTTP_SERVER)))) = true
  /\ state (w_conn (world_of
    (bev_readable 10 close_response (idle_world HTTP_SERVER)))) = HTTP_STATE_IDLE
  /\ persistent (w_conn (world_of
    (bev_readable 10 keepalive_response (idle_world HTTP_SERVER)))) = false
  /\ state (w_conn (world_of
    (bev_readable 10 keepalive_response (idle_world HTTP_SERVER)))) = HTTP_STATE_MANGLED.
Proof. vm_compute. repeat split. Qed.

(** *** A request with a body of undeterminable length *)

(** C2: the request of the spec, a POST without Content-Length and
    without Transfer-Encoding on a connection that receives requests.
    ERROR_CLIENT_POST_WITHOUT_LENGTH is reported once, and then the request
    is handed to [on_client_request] all the same: [check_headers] returns
    after [on_error] and [read_headers] goes on as if nothing had happened. *)
Theorem post_without_length_is_still_delivered :
  exists w,
    bev_readable 10 post_without_length (idle_world HTTP_CLIENT) = Done tt w
    /\ w_trace w = [on_error_ev ERROR_CLIENT_POST_WITHOUT_LENGTH;
                    on_client_request_ev post_request].
Proof. eexists. split; vm_compute; reflexivity. Qed.

(** C3: after ERROR_CLIENT_POST_WITHOUT_LENGTH has been reported the
    connection is not mangled: it is in READ_BODY with reading and writing
    still enabled, and bytes that arrive next are delivered to
    [on_read_body]. *)
Theorem error_report_without_mangling :
  exists w w',
    bev_readable 10 post_without_length (idle_world HTTP_CLIENT) = Done tt w
    /\ In (on_error_ev ERROR_CLIENT_POST_WITHOUT_LENGTH) (w_trace w)
    /\ state (w_conn w) = HTTP_STATE_READ_BODY
    /\ ev_read (bev (w_conn w)) = true
    /\ ev_write (bev (w_conn w)) = true
    /\ bev_readable 10 (txt "data") w = Done tt w'
    /\ w_trace w' = w_trace w ++ [on_read_body_ev (txt "data")].
Proof.
  eexists. eexists.
  split; [vm_compute; reflexivity|].
  split; [left; reflexivity|].
  repeat split; vm_compute; reflexivity.
Qed.

(** Every error that goes through [end_message] leaves the connection
    mangled, with reading and writing disabled. *)
Lemma end_message_error_mangles (err : http_conn_error) (w : world) :
  err <> ERROR_NONE ->
  exists w',
    end_message err w = Done tt w'
    /\ w_trace w' = w_trace w ++ [on_error_ev err]
    /\ state (w_conn w') = HTTP_STATE_MANGLED
    /\ ev_read (bev (w_conn w')) = false
    /\ ev_write (bev (w_conn w')) = false.
Proof.
  intros H. rewrite end_message_error by exact H. eexists. split; [reflexivity|].
  cbn. rewrite !andb_false_r. auto.
Qed.

(** *** The chunked decoder *)

Lemma chunked_world_state :
  state (w_conn chunked_world) = HTTP_STATE_READ_BODY
  /\ te (w_conn chunked_world) = TE_CHUNKED
  /\ data_remaining (w_conn chunked_world) = -1
  /\ inbuf (w_conn chunked_world) = []
  /\ ev_read (bev (w_conn chunked_world)) = true.
Proof. vm_compute. repeat split. Qed.

(** One turn of the read loop. *)
Lemma process_inbuf_step (fuel : nat) (w w1 : world) :
  process_one_message w = Done tt w1 ->
  process_inbuf (S fuel) w =
    if (negb (read_paused (w_conn w1)) && (blen (inbuf (w_conn w1)) >? 0))%bool
    then process_inbuf fuel w1
    else Done tt w1.
Proof.
  intros H. cbn [process_inbuf]. unfold bind at 1. rewrite H.
  unfold bind, get.
  destruct (negb (read_paused (w_conn w1)) && (blen (inbuf (w_conn w1)) >? 0))%bool;
    reflexivity.
Qed.

Lemma process_inbuf_mangled (fuel : nat) (w : world) :
  state (w_conn w) = HTTP_STATE_MANGLED ->
  process_inbuf (S fuel) w = Fatal w.
Proof.
  intros H. cbn [process_inbuf]. unfold bind at 1. unfold process_one_message.
  unfold bind at 1. unfold get at 1. rewrite H. reflexivity.
Qed.

(** A turn of the read loop that changes nothing, with input left and reading
    not paused, is repeated for ever. *)
Lemma process_inbuf_stuck (w : world) :
  process_one_message w = Done tt w ->
  read_paused (w_conn w) = false ->
  blen (inbuf (w_conn w)) > 0 ->
  forall fuel, process_inbuf fuel w = Spin w.
Proof.
  intros Hstep Hp Hlen fuel. induction fuel as [|fuel IH]; [reflexivity|].
  cbn [process_inbuf]. unfold bind at 1. rewrite Hstep.
  unfold bind, get. rewrite Hp. cbn [negb andb].
  replace (blen (inbuf (w_conn w)) >? 0) with true by (symmetry; apply Z.gtb_lt; lia).
  exact IH.
Qed.

Lemma set_inbuf_same (c : http_conn) : set_inbuf (inbuf c) c = c.
Proof. destruct c as [? ? ? ? ? ? ? ? ? ? ? ? [? ? ? ? ? ?] ?]. reflexivity. Qed.

Lemma world_eta (w : world) : {| w_conn := w_conn w; w_trace := w_trace w |} = w.
Proof. destruct w. reflexivity. Qed.

(** Any unterminated chunk-size line hangs the read loop. *)
Lemma unterminated_chunk_size_line_spins (w : world) :
  state (w_conn w) = HTTP_STATE_READ_BODY ->
  has_body (w_conn w) = true ->
  te (w_conn w) = TE_CHUNKED ->
  data_remaining (w_conn w) < 0 ->
  read_paused (w_conn w) = false ->
  inbuf (w_conn w) <> [] ->
  split_lf (inbuf (w_conn w)) = None ->
  forall fuel, process_inbuf fuel w = Spin w.
Proof.
  intros Hs Hb Ht Hd Hp Hne Hl. apply process_inbuf_stuck.
  - unfold process_one_message, read_body, read_chunk, parse_chunk_len. run_m.
    rewrite Hs, Hb. run_m. rewrite Ht. cbn [te_eqb].
    replace (data_remaining (w_conn w) <? 0) with true by (symmetry; apply Z.ltb_lt; exact Hd).
    cbn [parse_chunk_len_loop]. unfold evbuffer_readln. rewrite Hl. run_m.
    cbn [Z.ltb Z.compare]. rewrite set_inbuf_same, world_eta. reflexivity.
  - exact Hp.
  - unfold blen. destruct (inbuf (w_conn w)); [congruence|]. cbn [List.length]. lia.
Qed.

(** And so does any unterminated first line. *)
Lemma unterminated_first_line_spins (w : world) :
  state (w_conn w) = HTTP_STATE_READ_FIRSTLINE ->
  firstline (w_conn w) = None ->
  read_paused (w_conn w) = false ->
  inbuf (w_conn w) <> [] ->
  split_lf (inbuf (w_conn w)) = None ->
  forall fuel, process_inbuf fuel w = Spin w.
Proof.
  intros Hs Hf Hp Hne Hl. apply process_inbuf_stuck.
  - unfold process_one_message, read_firstline. run_m.
    rewrite Hs, Hf. cbn [is_null]. run_m. unfold evbuffer_readln. rewrite Hl.
    reflexivity.
  - exact Hp.
  - unfold blen. destruct (inbuf (w_conn w)); [congruence|]. cbn [List.length]. lia.
Qed.

(** The whole body in one delivery is decoded. *)
Lemma chunked_body_in_one_read :
  exists w,
    bev_readable 20 chunked_body chunked_world = Done tt w
    /\ w_trace w = w_trace chunked_world
                   ++ [on_read_body_ev (txt "Wiki"); on_read_body_ev (txt "pedia");
                       on_msg_complete_ev].
Proof. eexists. split; vm_compute; reflexivity. Qed.

(** Cut where no line is left unfinished (between lines, or inside the data of
    a chunk), the body is decoded from two reads as well. *)
Lemma chunked_body_cut_between_lines :
  forallb decodes_when_cut_at [0; 3; 4; 5; 6; 7; 9; 12; 13; 14; 15; 16; 17; 19; 22; 24; 25]%nat
  = true.
Proof. vm_compute. reflexivity. Qed.

(** C5: the chunked body of the spec, delivered in two reads of which the
    first holds only the byte "4" (a chunk-size line without its
    terminator): the read callback never returns.  No line can be read, the
    turn of the loop changes nothing, and the loop goes on while the input
    buffer is not empty; whatever the budget of turns, it is used up. *)
Theorem chunk_size_line_split_across_reads_never_returns :
  forall fuel,
    bev_readable fuel (txt "4") chunked_world
    = Spin {| w_conn := set_inbuf (txt "4") (w_conn chunked_world);
              w_trace := w_trace chunked_world |}.
Proof.
  intros fuel. unfold bev_readable. unfold bind at 1. unfold get at 1.
  replace (ev_read (bev (w_conn chunked_world)) && negb (blen (txt "4") =? 0))%bool
    with true by (vm_compute; reflexivity).
  unfold bind at 1. unfold modify at 1. unfold http_readcb.
  replace (inbuf (w_conn chunked_world) ++ txt "4") with (txt "4") by (vm_compute; reflexivity).
  apply process_inbuf_stuck; vm_compute; reflexivity.
Qed.

Lemma parse_chunk_len_bad_line (buf line rest : bytes) (fuel : nat) :
  evbuffer_readln buf = Some (line, rest) ->
  line <> [] ->
  get_int line 16 < 0 ->
  parse_chunk_len_loop (S fuel) buf = (-1, None, rest).
Proof.
  intros Hr Hl Hg. cbn [parse_chunk_len_loop]. rewrite Hr.
  destruct line as [|c l]; [congruence|].
  replace (get_int (c :: l) 16 <? 0) with true by (symmetry; apply Z.ltb_lt; exact Hg).
  reflexivity.
Qed.

(** Nothing is read from the socket while reading is disabled. *)
Lemma bev_readable_disabled (fuel : nat) (data : bytes) (w : world) :
  ev_read (bev (w_conn w)) = false ->
  bev_readable fuel data w = Done tt w.
Proof.
  intros H. unfold bev_readable. unfold bind, get. rewrite H. reflexivity.
Qed.

(** The turn of the read loop that meets the invalid line. *)
Lemma invalid_chunk_size_line_turn (w : world) (line rest : bytes) :
  state (w_conn w) = HTTP_STATE_READ_BODY ->
  has_body (w_conn w) = true ->
  te (w_conn w) = TE_CHUNKED ->
  data_remaining (w_conn w) < 0 ->
  evbuffer_readln (inbuf (w_conn w)) = Some (line, rest) ->
  line <> [] ->
  get_int line 16 < 0 ->
  exists w',
    process_one_message w = Done tt w'
    /\ w_trace w' = w_trace w ++ [on_error_ev ERROR_CHUNK_PARSE_FAILED]
    /\ state (w_conn w') = HTTP_STATE_MANGLED
    /\ inbuf (w_conn w') = rest
    /\ read_paused (w_conn w') = read_paused (w_conn w)
    /\ ev_read (bev (w_conn w')) = false
    /\ ev_write (bev (w_conn w')) = false.
Proof.
  intros Hs Hb Ht Hd Hr Hl Hg.
  exists {| w_conn := mangle (clear_headers (set_inbuf rest (w_conn w)));
            w_trace := w_trace w ++ [on_error_ev ERROR_CHUNK_PARSE_FAILED] |}.
  split.
  - unfold process_one_message, read_body, read_chunk, parse_chunk_len. run_m.
    rewrite Hs, Hb. run_m. rewrite Ht. cbn [te_eqb].
    replace (data_remaining (w_conn w) <? 0) with true by (symmetry; apply Z.ltb_lt; exact Hd).
    rewrite (@parse_chunk_len_bad_line _ _ _ (List.length (inbuf (w_conn w))) Hr Hl Hg).
    run_m. cbn [Z.ltb Z.compare].
    rewrite end_message_error by discriminate. reflexivity.
  - unfold clear_headers. cbn [w_conn w_trace headers set_inbuf set_bev].
    destruct (headers (w_conn w)); cbn; rewrite ?andb_false_r; repeat split; reflexivity.
Qed.

(** C6: a connection reading a chunked body and waiting for a chunk size
    (data_remaining below 0), with a complete, non-empty line next in its
    input that [get_int] does not take for a hexadecimal number.  The read
    callback reports ERROR_CHUNK_PARSE_FAILED exactly once and invokes no
    other callback, and the connection is left MANGLED with reading and
    writing disabled, so that the transport reads nothing more for it.  When
    nothing follows the line in the buffer, or reading is paused, the
    callback returns.  When bytes follow the line and reading is not paused,
    the loop takes one more turn in the MANGLED state and the process is
    stopped by [log_fatal]. *)
Theorem invalid_chunk_size_line_aborts (w : world) (line rest : bytes) (fuel : nat) :
  state (w_conn w) = HTTP_STATE_READ_BODY ->
  has_body (w_conn w) = true ->
  te (w_conn w) = TE_CHUNKED ->
  data_remaining (w_conn w) < 0 ->
  evbuffer_readln (inbuf (w_conn w)) = Some (line, rest) ->
  line <> [] ->
  get_int line 16 < 0 ->
  exists w',
    http_readcb (S (S fuel)) w
    = (if (negb (read_paused (w_conn w)) && (blen rest >? 0))%bool
       then Fatal w' else Done tt w')
    /\ w_trace w' = w_trace w ++ [on_error_ev ERROR_CHUNK_PARSE_FAILED]
    /\ state (w_conn w') = HTTP_STATE_MANGLED
    /\ inbuf (w_conn w') = rest
    /\ ev_read (bev (w_conn w')) = false
    /\ ev_write (bev (w_conn w')) = false
    /\ forall fuel' data, bev_readable fuel' data w' = Done tt w'.
Proof.
  intros Hs Hb Ht Hd Hr Hl Hg.
  destruct (@invalid_chunk_size_line_turn w line rest Hs Hb Ht Hd Hr Hl Hg)
    as (w1 & Hstep & Htr & Hm & Hi & Hp & Her & Hew).
  exists w1. split; [|auto 7 using bev_readable_disabled].
  unfold http_readcb. rewrite (@process_inbuf_step (S fuel) _ _ Hstep).
  rewrite Hp, Hi.
  destruct (negb (read_paused (w_conn w)) && (blen rest >? 0))%bool.
  - apply process_inbuf_mangled. exact Hm.
  - reflexivity.
Qed.

Lemma invalid_chunk_size_line_aborts_witness :
  exists w',
    http_readcb 2 bad_chunk_world = Fatal w'
    /\ w_trace w' = w_trace bad_chunk_world ++ [on_error_ev ERROR_CHUNK_PARSE_FAILED]
    /\ state (w_conn w') = HTTP_STATE_MANGLED
    /\ inbuf (w_conn w') = txt "4" ++ CRLF ++ txt "Wiki" ++ CRLF
    /\ ev_read (bev (w_conn w')) = false
    /\ ev_write (bev (w_conn w')) = false
    /\ forall fuel' data, bev_readable fuel' data w' = Done tt w'.
Proof.
  apply (@invalid_chunk_size_line_aborts bad_chunk_world (txt "xyz")
           (txt "4" ++ CRLF ++ txt "Wiki" ++ CRLF) 0%nat).
  - reflexivity.
  - reflexivity.
  - reflexivity.
  - vm_compute. reflexivity.
  - reflexivity.
  - discriminate.
  - vm_compute. reflexivity.
Defined.

(** The same from the wire: the invalid line and a chunk arrive in one read
    on the connection that waits for the first chunk size. *)
Lemma invalid_chunk_size_line_from_the_wire :
  exists w',
    bev_readable 10 (txt "xyz" ++ CRLF ++ txt "4" ++ CRLF ++ txt "Wiki" ++ CRLF) chunked_world
    = Fatal w'
    /\ w_trace w' = w_trace chunked_world ++ [on_error_ev ERROR_CHUNK_PARSE_FAILED]
    /\ state (w_conn w') = HTTP_STATE_MANGLED.
Proof. eexists. vm_compute. repeat split. Qed.

(** *** Lines and tokens *)

Lemma split_lf_line (l rest : bytes) :
  ~ In LF l ->
  split_lf (l ++ LF :: rest) = Some (l, rest).
Proof.
  induction l as [|c l IH]; intros H.
  - reflexivity.
  - cbn [app split_lf].
    destruct (Ascii.eqb c LF) eqn:E.
    + apply Ascii.eqb_eq in E. subst c. exfalso. apply H. left. reflexivity.
    + rewrite IH; [reflexivity|]. intros Hin. apply H. right. exact Hin.
Qed.

Lemma strip_cr_line (l : bytes) : strip_cr (l ++ [CR]) = l.
Proof.
  induction l as [|c l IH]; [reflexivity|].
  cbn [app]. destruct l as [|d l].
  - reflexivity.
  - cbn [app strip_cr] in *. rewrite IH. reflexivity.
Qed.

Lemma cstr_line (l : bytes) : ~ In NUL l -> cstr l = l.
Proof.
  induction l as [|c l IH]; intros H; [reflexivity|].
  cbn [cstr]. destruct (Ascii.eqb c NUL) eqn:E.
  - apply Ascii.eqb_eq in E. subst c. exfalso. apply H. left. reflexivity.
  - rewrite IH; [reflexivity|]. intros Hin. apply H. right. exact Hin.
Qed.

Lemma evbuffer_readln_line (l rest : bytes) :
  ~ In LF l -> ~ In NUL l ->
  evbuffer_readln (l ++ CRLF ++ rest) = Some (l, rest).
Proof.
  intros Hlf Hnul. unfold evbuffer_readln, CRLF.
  replace (l ++ [CR; LF] ++ rest) with ((l ++ [CR]) ++ LF :: rest)
    by (rewrite <- app_assoc; reflexivity).
  rewrite split_lf_line.
  - rewrite strip_cr_line, cstr_line by exact Hnul. reflexivity.
  - intros Hin. apply in_app_or in Hin. destruct Hin as [Hin|[Hin|[]]]; [auto|discriminate].
Qed.

Lemma break_at_sp_token (a r : bytes) :
  ~ In SP a ->
  break_at (txt " ") (a ++ SP :: r) = Some (a, r).
Proof.
  induction a as [|c a IH]; intros H.
  - reflexivity.
  - cbn [app break_at]. change (txt " ") with [SP]. cbn [existsb].
    destruct (Ascii.eqb c SP) eqn:E.
    + apply Ascii.eqb_eq in E. subst c. exfalso. apply H. left. reflexivity.
    + cbn [orb]. change [SP] with (txt " "). rewrite IH; [reflexivity|].
      intros Hin. apply H. right. exact Hin.
Qed.

Lemma break_at_sp_none (a : bytes) :
  ~ In SP a ->
  break_at (txt " ") a = None.
Proof.
  induction a as [|c a IH]; intros H.
  - reflexivity.
  - cbn [break_at]. change (txt " ") with [SP]. cbn [existsb].
    destruct (Ascii.eqb c SP) eqn:E.
    + apply Ascii.eqb_eq in E. subst c. exfalso. apply H. left. reflexivity.
    + cbn [orb]. change [SP] with (txt " "). rewrite IH; [reflexivity|].
      intros Hin. apply H. right. exact Hin.
Qed.

(** Three fields without blanks in them are three tokens. *)
Lemma tokenize_request_line (m q v : bytes) :
  ~ In SP m -> ~ In SP q -> ~ In SP v -> v <> [] ->
  tokenize (m ++ [SP] ++ q ++ [SP] ++ v) (txt " ") 4 = [m; q; v].
Proof.
  intros Hm Hq Hv Hne. cbn [tokenize app].
  rewrite break_at_sp_token by exact Hm.
  rewrite break_at_sp_token by exact Hq.
  rewrite break_at_sp_none by exact Hv.
  destruct v; [congruence | reflexivity].
Qed.

(** With two cuts the third token is the rest of the line, blanks and all. *)
Lemma tokenize_response_line (v c r : bytes) :
  ~ In SP v -> ~ In SP c -> r <> [] ->
  tokenize (v ++ [SP] ++ c ++ [SP] ++ r) (txt " ") 2 = [v; c; r].
Proof.
  intros Hv Hc Hne. cbn [tokenize app].
  rewrite break_at_sp_token by exact Hv.
  rewrite break_at_sp_token by exact Hc.
  destruct r; [congruence | reflexivity].
Qed.

Lemma free_of_spec (cs l : bytes) (c : ascii) :
  free_of cs l = true -> In c cs -> ~ In c l.
Proof.
  unfold free_of. intros H Hc Hl. rewrite forallb_forall in H.
  specialize (H c Hc). apply negb_true_iff in H.
  assert (existsb (Ascii.eqb c) l = true).
  { apply existsb_exists. exists c. split; [exact Hl | apply Ascii.eqb_refl]. }
  congruence.
Qed.



Lemma version_round_trip (v : http_version) :
  v <> HTTP_UNKNOWN ->
  version_from_string (version_to_string v) = Some v
  /\ free_of delimiters (version_to_string v) = true
  /\ version_to_string v <> [].
Proof.
  destruct v; intros H; [congruence| |];
    (split; [vm_compute; reflexivity|]); (split; [vm_compute; reflexivity | discriminate]).
Qed.

Lemma method_round_trip (m : http_method) :
  method_from_string (method_to_string m) = Some m
  /\ free_of delimiters (method_to_string m) = true.
Proof. destruct m; split; vm_compute; reflexivity. Qed.

Lemma status_codes_checked : forallb code_round_trips (seq 0 900) = true.
Proof. vm_compute. reflexivity. Qed.

(** [atoi] keeps the low 32 bits of a number that does not fit an [int]. *)
Lemma atoi_wraps : atoi (txt "4294967496") = 200 /\ atoi (txt " -17x") = -17.
Proof. vm_compute. split; reflexivity. Qed.

Lemma code_round_trip (c : Z) :
  100 <= c <= 999 ->
  atoi (print_int c) = c /\ free_of delimiters (print_int c) = true.
Proof.
  intros H.
  pose proof status_codes_checked as Hall. rewrite forallb_forall in Hall.
  specialize (Hall (Z.to_nat (c - 100))).
  assert (Hin : In (Z.to_nat (c - 100)) (seq 0 900)) by (apply in_seq; lia).
  specialize (Hall Hin). unfold code_round_trips in Hall.
  replace (100 + Z.of_nat (Z.to_nat (c - 100))) with c in Hall by lia.
  apply andb_true_iff in Hall. destruct Hall as [Ha Hs].
  split; [apply Z.eqb_eq; exact Ha | exact Hs].
Qed.

Lemma in_delimiters : In SP delimiters /\ In LF delimiters /\ In NUL delimiters.
Proof. unfold delimiters. cbn [In]. tauto. Qed.

(** *** Writing a message and reading its first line back *)



Lemma build_response_of_line (w : world) (c : http_conn) (resp : http_response)
      (h : header_list) :
  type (w_conn w) = HTTP_SERVER ->
  firstline (w_conn w) = Some (response_line c resp) ->
  headers (w_conn w) = Some h ->
  vers c <> HTTP_UNKNOWN ->
  100 <= resp_code resp <= 999 ->
  resp_reason resp <> [] ->
  build_response w =
    Done (Some {| resp_vers := vers c; resp_code := resp_code resp;
                  resp_reason := resp_reason resp; resp_headers := h |}) w.
Proof.
  intros Ht Hf Hh Hv Hc Hr.
  destruct (version_round_trip Hv) as (Hvr & Hvf & _).
  destruct (code_round_trip Hc) as (Hcr & Hcf).
  destruct in_delimiters as (Hsp & _).
  unfold build_response. run_m. rewrite Ht. cbn [type_eqb]. run_m.
  rewrite Hf, Hh. unfold response_line.
  rewrite tokenize_response_line;
    [| exact (@free_of_spec _ _ _ Hvf Hsp) | exact (@free_of_spec _ _ _ Hcf Hsp) | exact Hr].
  rewrite Hvr, Hcr.
  replace (resp_code resp <? 100) with false by (symmetry; apply Z.ltb_ge; lia).
  replace (resp_code resp >? 999) with false by (symmetry; rewrite Z.gtb_ltb; apply Z.ltb_ge; lia).
  reflexivity.
Qed.

Lemma build_request_of_line (w : world) (req : http_request) (h : header_list) (u : url) :
  type (w_conn w) = HTTP_CLIENT ->
  firstline (w_conn w) = Some (request_line req) ->
  headers (w_conn w) = Some h ->
  req_vers req <> HTTP_UNKNOWN ->
  ~ In SP (query (req_url req)) ->
  url_tokenize (query (req_url req)) = Some u ->
  build_request w =
    Done (Some {| req_meth := req_meth req; req_vers := req_vers req;
                  req_url := u; req_headers := h |}) w.
Proof.
  intros Ht Hf Hh Hv Hq Hu.
  destruct (version_round_trip Hv) as (Hvr & Hvf & Hvn).
  destruct (method_round_trip (req_meth req)) as (Hmr & Hmf).
  destruct in_delimiters as (Hsp & _).
  unfold build_request. run_m. rewrite Ht. cbn [type_eqb]. run_m.
  rewrite Hf, Hh. unfold request_line.
  rewrite tokenize_request_line;
    [| exact (@free_of_spec _ _ _ Hmf Hsp) | exact Hq | exact (@free_of_spec _ _ _ Hvf Hsp)
     | exact Hvn].
  rewrite Hu, Hmr, Hvr. reflexivity.
Qed.



(** *** The line loops always have turns to spare *)

Lemma split_lf_shorter (buf : bytes) : forall l r,
  split_lf buf = Some (l, r) -> (List.length r < List.length buf)%nat.
Proof.
  induction buf as [|c buf IH]; intros l r H; cbn [split_lf] in H; [discriminate H|].
  destruct (Ascii.eqb c LF).
  - injection H as _ <-. cbn. lia.
  - destruct (split_lf buf) as [[l' r']|]; [|discriminate H].
    injection H as _ <-. specialize (IH l' r' eq_refl). cbn. lia.
Qed.

Lemma evbuffer_readln_shorter (buf l r : bytes) :
  evbuffer_readln buf = Some (l, r) -> (List.length r < List.length buf)%nat.
Proof.
  unfold evbuffer_readln. destruct (split_lf buf) as [[l' r']|] eqn:E; intros H;
    [|discriminate H].
  injection H as _ <-. eapply split_lf_shorter. exact E.
Qed.

(** More turns than the buffer has bytes change nothing: [parse_chunk_len]
    never stops for lack of turns. *)
Lemma parse_chunk_len_loop_fuel (n : nat) : forall m buf,
  (List.length buf < n)%nat -> (List.length buf < m)%nat ->
  parse_chunk_len_loop n buf = parse_chunk_len_loop m buf.
Proof.
  induction n as [|n IH]; intros m buf Hn Hm; [lia|].
  destruct m as [|m]; [lia|]. cbn [parse_chunk_len_loop].
  destruct (evbuffer_readln buf) as [[line rest]|] eqn:E; [|reflexivity].
  destruct line; [|reflexivity].
  apply evbuffer_readln_shorter in E. apply IH; lia.
Qed.

Lemma headers_load_lines_fuel (n : nat) : forall m h buf,
  (List.length buf < n)%nat -> (List.length buf < m)%nat ->
  headers_load_lines n h buf = headers_load_lines m h buf.
Proof.
  induction n as [|n IH]; intros m h buf Hn Hm; [lia|].
  destruct m as [|m]; [lia|]. cbn [headers_load_lines].
  destruct (evbuffer_readln buf) as [[line rest]|] eqn:E; [|reflexivity].
  destruct line as [|c line]; [reflexivity|].
  destruct (break_at (txt ":") (c :: line)) as [[k v]|]; [|reflexivity].
  apply evbuffer_readln_shorter in E. apply IH; lia.
Qed.

(** *** The remaining-bytes counter in reachable states *)



Lemma get_int_acc_le (base : Z) (s : bytes) : forall acc,
  acc <= INT64_MAX -> get_int_acc base acc s <= INT64_MAX.
Proof.
  induction s as [|c s IH]; intros acc H; cbn [get_int_acc].
  - exact H.
  - destruct (digit_val c) as [d|]; [|unfold INT64_MAX; lia].
    destruct (d <? base); [|unfold INT64_MAX; lia].
    destruct (acc * base + d <=? INT64_MAX) eqn:E; [|unfold INT64_MAX; lia].
    apply IH. apply Z.leb_le. exact E.
Qed.

Lemma get_int_le (s : bytes) (base : Z) : get_int s base <= INT64_MAX.
Proof.
  unfold get_int. destruct s; [unfold INT64_MAX; lia|].
  apply get_int_acc_le. unfold INT64_MAX. lia.
Qed.


Lemma to_int64_id (z : Z) : - 2 ^ 63 <= z < 2 ^ 63 -> to_int64 z = z.
Proof.
  intros H. unfold to_int64. rewrite Z.mod_small; lia.
Qed.

Lemma to_size_t_id (z : Z) : 0 <= z < 2 ^ 63 -> to_size_t z = z.
Proof.
  intros H. unfold to_size_t. rewrite Z.mod_small; lia.
Qed.









Lemma build_request_same (w w' : world) (r : option http_request) :
  build_request w = Done r w' -> w' = w.
Proof.
  unfold build_request. unfold bind at 1. unfold get at 1. unfold bind at 1. intros H.
  destruct (type_eqb (type (w_conn w)) HTTP_CLIENT); [|discriminate H].
  cbn [assert] in H. unfold ret at 1 in H.
  destruct (firstline (w_conn w)) as [line|]; [|discriminate H].
  destruct (headers (w_conn w)) as [hs|]; [|discriminate H].
  generalize dependent (tokenize line (txt " ") 4). intros l H.
  destruct l as [|m [|u [|v [|x l]]]];
    try (unfold ret in H; injection H as _ <-; reflexivity).
  generalize dependent (url_tokenize u).
  generalize dependent (method_from_string m).
  generalize dependent (version_from_string v).
  intros [] [] []; unfold ret; intros H; injection H as _ <-; reflexivity.
Qed.

Lemma build_response_same (w w' : world) (r : option http_response) :
  build_response w = Done r w' -> w' = w.
Proof.
  unfold build_response. unfold bind at 1. unfold get at 1. unfold bind at 1. intros H.
  destruct (type_eqb (type (w_conn w)) HTTP_SERVER); [|discriminate H].
  cbn [assert] in H. unfold ret at 1 in H.
  destruct (firstline (w_conn w)) as [line|]; [|discriminate H].
  destruct (headers (w_conn w)) as [hs|]; [|discriminate H].
  generalize dependent (tokenize line (txt " ") 2). intros l H.
  destruct l as [|v [|c [|r' [|x l]]]];
    try (unfold ret in H; injection H as _ <-; reflexivity).
  cbv zeta in H.
  generalize dependent (version_from_string v).
  generalize dependent (atoi c).
  intros z [] H;
    [destruct ((z <? 100) || (z >? 999))%bool|];
    unfold ret in H; injection H as _ <-; reflexivity.
Qed.








Lemma idle_world_reachable (type : http_type) : reachable (idle_world type).
Proof. apply (@reach_new 3 type). destruct type; reflexivity. Qed.

Lemma chunked_world_reachable : reachable chunked_world.
Proof.
  apply (@reach_act 10%nat (Readable chunked_head) (idle_world HTTP_SERVER)).
  - apply idle_world_reachable.
  - vm_compute. reflexivity.
Defined.


(** ** Further properties of the engine *)

(** ** Method and version names *)

Lemma nat_of_ascii_inj (a c : ascii) : nat_of_ascii a = nat_of_ascii c -> a = c.
Proof.
  intros H. rewrite <- (ascii_nat_embedding a), <- (ascii_nat_embedding c), H. reflexivity.
Qed.

(** Two strings compare equal without regard to case exactly when they are
    the same after lowering. *)
Lemma strcasecmp_zero_iff (s : bytes) : forall t,
  evutil_ascii_strcasecmp s t = 0 <-> map tolower s = map tolower t.
Proof.
  induction s as [|c s IH]; intros [|d t]; cbn [evutil_ascii_strcasecmp map].
  - split; reflexivity.
  - split; intros H; discriminate H.
  - split; intros H; discriminate H.
  - destruct (Nat.ltb (nat_of_ascii (tolower c)) (nat_of_ascii (tolower d))) eqn:E1.
    + apply Nat.ltb_lt in E1. split; intros H; [discriminate H|].
      injection H as H _. rewrite H in E1. lia.
    + destruct (Nat.ltb (nat_of_ascii (tolower d)) (nat_of_ascii (tolower c))) eqn:E2.
      * apply Nat.ltb_lt in E2. split; intros H; [discriminate H|].
        injection H as H _. rewrite H in E2. lia.
      * apply Nat.ltb_ge in E1, E2.
        assert (Hcd : tolower c = tolower d) by (apply nat_of_ascii_inj; lia).
        rewrite IH. split; intros H.
        -- rewrite Hcd, H. reflexivity.
        -- injection H as _ H. exact H.
Qed.

Lemma strncasecmp_zero_iff (n : nat) : forall s t,
  evutil_ascii_strncasecmp s t n = 0
  <-> map tolower (firstn n s) = map tolower (firstn n t).
Proof.
  induction n as [|n IH]; intros s t; [destruct s, t; cbn; split; reflexivity|].
  destruct s as [|c s], t as [|d t]; cbn [evutil_ascii_strncasecmp map firstn].
  - split; reflexivity.
  - split; intros H; discriminate H.
  - split; intros H; discriminate H.
  - destruct (Nat.ltb (nat_of_ascii (tolower c)) (nat_of_ascii (tolower d))) eqn:E1.
    + apply Nat.ltb_lt in E1. split; intros H; [discriminate H|].
      injection H as H _. rewrite H in E1. lia.
    + destruct (Nat.ltb (nat_of_ascii (tolower d)) (nat_of_ascii (tolower c))) eqn:E2.
      * apply Nat.ltb_lt in E2. split; intros H; [discriminate H|].
        injection H as H _. rewrite H in E2. lia.
      * apply Nat.ltb_ge in E1, E2.
        assert (Hcd : tolower c = tolower d) by (apply nat_of_ascii_inj; lia).
        rewrite IH. split; intros H.
        -- rewrite Hcd, H. reflexivity.
        -- injection H as _ H. exact H.
Qed.

(** Lowering a byte to something that is not a lower-case letter leaves it
    as it was. *)
Lemma tolower_not_letter (c : ascii) :
  is_lower (tolower c) = false -> tolower c = c.
Proof.
  destruct c as [[] [] [] [] [] [] [] []]; vm_compute; intros H;
    solve [reflexivity | discriminate H].
Qed.

Lemma strcasecmp_test (s t : bytes) :
  (evutil_ascii_strcasecmp s t =? 0) = true <-> map tolower s = map tolower t.
Proof. rewrite Z.eqb_eq. apply strcasecmp_zero_iff. Qed.

(** X1: [method_from_string] and [method_to_string] agree: a string is read
    as the method [m] exactly when it equals the name [method_to_string m]
    up to the case of its letters; so every other string is refused. *)
Theorem method_from_string_iff (s : bytes) (m : http_method) :
  method_from_string s = Some m
  <-> evutil_ascii_strcasecmp s (method_to_string m) = 0.
Proof.
  rewrite strcasecmp_zero_iff. unfold method_from_string.
  destruct (evutil_ascii_strcasecmp s (txt "GET") =? 0) eqn:E1;
    [apply strcasecmp_test in E1 | ].
  { split; intros H.
    - injection H as <-. exact E1.
    - rewrite E1 in H. destruct m; vm_compute in H; solve [reflexivity | discriminate H]. }
  destruct (evutil_ascii_strcasecmp s (txt "HEAD") =? 0) eqn:E2;
    [apply strcasecmp_test in E2 | ].
  { split; intros H.
    - injection H as <-. exact E2.
    - rewrite E2 in H. destruct m; vm_compute in H; solve [reflexivity | discriminate H]. }
  destruct (evutil_ascii_strcasecmp s (txt "POST") =? 0) eqn:E3;
    [apply strcasecmp_test in E3 | ].
  { split; intros H.
    - injection H as <-. exact E3.
    - rewrite E3 in H. destruct m; vm_compute in H; solve [reflexivity | discriminate H]. }
  destruct (evutil_ascii_strcasecmp s (txt "PUT") =? 0) eqn:E4;
    [apply strcasecmp_test in E4 | ].
  { split; intros H.
    - injection H as <-. exact E4.
    - rewrite E4 in H. destruct m; vm_compute in H; solve [reflexivity | discriminate H]. }
  destruct (evutil_ascii_strcasecmp s (txt "CONNECT") =? 0) eqn:E5;
    [apply strcasecmp_test in E5 | ].
  { split; intros H.
    - injection H as <-. exact E5.
    - rewrite E5 in H. destruct m; vm_compute in H; solve [reflexivity | discriminate H]. }
  split; intros H; [discriminate H|].
  assert (forall t, map tolower s = map tolower t ->
                    (evutil_ascii_strcasecmp s t =? 0) = true)
    as Hy by (intros t Ht; apply strcasecmp_test; exact Ht).
  destruct m; apply Hy in H; cbn [method_to_string] in H; congruence.
Qed.

Lemma bytes_eqb_eq (x y : bytes) : bytes_eqb x y = true <-> x = y.
Proof.
  unfold bytes_eqb. destruct (list_eq_dec ascii_dec x y); split; intros H;
    solve [assumption | reflexivity | discriminate H | contradiction].
Qed.

Lemma strcmp_zero_iff (x y : bytes) : strcmp x y = 0 <-> x = y.
Proof.
  unfold strcmp. destruct (bytes_eqb x y) eqn:E.
  - apply bytes_eqb_eq in E. tauto.
  - split; intros H; [discriminate H|]. apply bytes_eqb_eq in H. congruence.
Qed.

Lemma lowered_is (c d : ascii) :
  tolower c = d -> is_lower d = false -> c = d.
Proof.
  intros H Hd. rewrite <- H in Hd. apply tolower_not_letter in Hd. congruence.
Qed.

Lemma version_from_lowered (s num : bytes) (c6 c7 c8 : ascii) :
  num = [c6; c7; c8] ->
  is_lower c6 = false -> is_lower c7 = false -> is_lower c8 = false ->
  map tolower s = map tolower (txt "HTTP/") ++ num ->
  (evutil_ascii_strncasecmp s (txt "HTTP/") 5 =? 0) = true /\ skipn 5 s = num.
Proof.
  intros -> H6 H7 H8 H.
  destruct s as [|a1 [|a2 [|a3 [|a4 [|a5 [|a6 [|a7 [|a8 [|a9 s]]]]]]]]];
    try discriminate H.
  cbn [map app] in H. injection H as E1 E2 E3 E4 E5 E6 E7 E8.
  split.
  - apply Z.eqb_eq, strncasecmp_zero_iff. cbn [firstn map].
    rewrite E1, E2, E3, E4, E5. reflexivity.
  - cbn [skipn].
    rewrite (@lowered_is _ _ E6 H6), (@lowered_is _ _ E7 H7), (@lowered_is _ _ E8 H8).
    reflexivity.
Qed.

(** X2: [version_from_string] and [version_to_string] agree: a string is
    read as the version [v] exactly when [v] is HTTP/1.0 or HTTP/1.1 and the
    string equals [version_to_string v] up to the case of its letters.  The
    name of the unknown version, "HTTP/??", is never read back. *)
Theorem version_from_string_iff (s : bytes) (v : http_version) :
  version_from_string s = Some v
  <-> v <> HTTP_UNKNOWN /\ evutil_ascii_strcasecmp s (version_to_string v) = 0.
Proof.
  rewrite strcasecmp_zero_iff. unfold version_from_string. split.
  - intros H.
    destruct (evutil_ascii_strncasecmp s (txt "HTTP/") 5 =? 0) eqn:E; [|discriminate H].
    cbn [negb] in H. apply Z.eqb_eq, strncasecmp_zero_iff in E.
    rewrite <- (firstn_skipn 5 s), map_app, E.
    destruct (strcmp (skipn 5 s) (txt "1.0") =? 0) eqn:E0.
    + injection H as <-. apply Z.eqb_eq, strcmp_zero_iff in E0. rewrite E0.
      split; [discriminate | reflexivity].
    + destruct (strcmp (skipn 5 s) (txt "1.1") =? 0) eqn:E1; [|discriminate H].
      injection H as <-. apply Z.eqb_eq, strcmp_zero_iff in E1. rewrite E1.
      split; [discriminate | reflexivity].
  - intros [Hv H]. destruct v; [congruence| |].
    + destruct (@version_from_lowered s (txt "1.0") "1" "." "0") as [E S];
        try reflexivity; [exact H|].
      rewrite E, S. reflexivity.
    + destruct (@version_from_lowered s (txt "1.1") "1" "." "1") as [E S];
        try reflexivity; [exact H|].
      rewrite E, S. reflexivity.
Qed.

(** ** How a message ends *)

(** X3: what [end_message] does.  Called with an error, or on a connection
    that is not persistent, or on a persistent one that is not paused and
    whose first line and header list have been handed over, it returns after
    exactly one callback: [on_msg_complete] for ERROR_NONE, [on_error] with
    the error otherwise.  After ERROR_NONE on a persistent connection the
    connection is IDLE again with reading and writing enabled and an empty
    header list; in every other case it is MANGLED with reading and writing
    disabled.  The buffers and the persistence flag are left alone. *)
Theorem end_message_outcome (err : http_conn_error) (w : world) :
  err <> ERROR_NONE \/ persistent (w_conn w) = false
  \/ (read_paused (w_conn w) = false /\ headers (w_conn w) = None
      /\ firstline (w_conn w) = None) ->
  exists w',
    end_message err w = Done tt w'
    /\ w_trace w' = w_trace w
                    ++ [if error_eqb err ERROR_NONE then on_msg_complete_ev
                        else on_error_ev err]
    /\ (if (error_eqb err ERROR_NONE && persistent (w_conn w))%bool
        then state (w_conn w') = HTTP_STATE_IDLE
             /\ ev_read (bev (w_conn w')) = true
             /\ ev_write (bev (w_conn w')) = true
             /\ headers (w_conn w') = Some []
        else state (w_conn w') = HTTP_STATE_MANGLED
             /\ ev_read (bev (w_conn w')) = false
             /\ ev_write (bev (w_conn w')) = false)
    /\ inbuf (w_conn w') = inbuf (w_conn w)
    /\ outbuf (w_conn w') = outbuf (w_conn w)
    /\ persistent (w_conn w') = persistent (w_conn w).
Proof.
  intros H.
  destruct (error_eqb err ERROR_NONE) eqn:E.
  - assert (err = ERROR_NONE) as -> by (destruct err; try discriminate E; reflexivity).
    cbn [andb]. destruct (persistent (w_conn w)) eqn:P.
    + destruct H as [H | [H | (Hr & Hh & Hf)]]; [congruence | discriminate H |].
      unfold end_message, on_msg_complete, begin_message. run_m.
      cbn [error_eqb negb orb]. rewrite Hh, P. cbn [negb]. run_m.
      rewrite Hh, Hf, Hr. cbn [is_null andb negb]. run_m.
      eexists. split; [reflexivity|]. cbn. rewrite !orb_true_r. repeat split; auto.
    + rewrite end_message_last by exact P. eexists. split; [reflexivity|].
      unfold clear_headers. destruct (headers (w_conn w)); cbn;
        rewrite ?andb_false_r; repeat split; auto.
  - assert (err <> ERROR_NONE) as Hne by (intros ->; discriminate E).
    rewrite end_message_error by exact Hne. cbn [andb]. eexists. split; [reflexivity|].
    unfold clear_headers. destruct (headers (w_conn w)); cbn;
      rewrite ?andb_false_r; repeat split; auto.
Qed.

Lemma end_message_outcome_witness :
  exists w',
    end_message ERROR_NONE chunked_world = Done tt w'
    /\ w_trace w' = w_trace chunked_world ++ [on_msg_complete_ev]
    /\ (state (w_conn w') = HTTP_STATE_IDLE
        /\ ev_read (bev (w_conn w')) = true
        /\ ev_write (bev (w_conn w')) = true
        /\ headers (w_conn w') = Some [])
    /\ inbuf (w_conn w') = inbuf (w_conn chunked_world)
    /\ outbuf (w_conn w') = outbuf (w_conn chunked_world)
    /\ persistent (w_conn w') = persistent (w_conn chunked_world).
Proof.
  apply (@end_message_outcome ERROR_NONE chunked_world).
  right. right. repeat split; reflexivity.
Defined.

(** ** Transport events *)

Lemma mangled_fields (c : http_conn) :
  state (mangle (clear_headers c)) = HTTP_STATE_MANGLED
  /\ ev_read (bev (mangle (clear_headers c))) = false
  /\ ev_write (bev (mangle (clear_headers c))) = false.
Proof.
  unfold clear_headers. destruct (headers c); cbn; rewrite !andb_false_r; auto.
Qed.

(** X4: a transport event outside a body.  On a connection that is not
    connecting, an event without the CONNECTED bit that is a write failure,
    or that comes while the connection is idle or reading a first line or
    headers, is reported by exactly one [on_error] and leaves the
    connection MANGLED with reading and writing disabled.  The error is
    ERROR_WRITE_FAILED for a write failure whatever the state, else
    ERROR_IDLE_CONN_TIMEDOUT when idle and ERROR_INCOMPLETE_HEADERS when a
    first line or headers were being read. *)
Theorem transport_event_is_reported (w : world) (what : Z) :
  state (w_conn w) <> HTTP_STATE_CONNECTING ->
  has_flag what BEV_EVENT_CONNECTED = false ->
  has_flag what BEV_EVENT_WRITING = true
  \/ state (w_conn w) = HTTP_STATE_IDLE
  \/ state (w_conn w) = HTTP_STATE_READ_FIRSTLINE
  \/ state (w_conn w) = HTTP_STATE_READ_HEADERS ->
  exists w',
    bev_event what w = Done tt w'
    /\ w_trace w' = w_trace w ++ [on_error_ev (event_error (state (w_conn w)) what)]
    /\ state (w_conn w') = HTTP_STATE_MANGLED
    /\ ev_read (bev (w_conn w')) = false
    /\ ev_write (bev (w_conn w')) = false.
Proof.
  intros Hs Hc Hcase.
  unfold bev_event, http_errorcb, event_error. run_m.
  assert (E : state_eqb (state (w_conn w)) HTTP_STATE_CONNECTING = false)
    by (destruct (state (w_conn w)); try reflexivity; congruence).
  rewrite E, Hc. cbn [negb]. run_m.
  pose proof (mangled_fields (set_state HTTP_STATE_MANGLED (w_conn w))) as Hm.
  destruct (has_flag what BEV_EVENT_WRITING).
  - rewrite end_message_error by discriminate. eexists. split; [reflexivity|].
    split; [reflexivity | exact Hm].
  - destruct Hcase as [H | [H | [H | H]]]; [discriminate H | | |]; rewrite H;
      rewrite end_message_error by discriminate; eexists;
      (split; [reflexivity|]); (split; [reflexivity | exact Hm]).
Qed.

Lemma transport_event_is_reported_witness :
  exists w',
    bev_event 65 (idle_world HTTP_CLIENT) = Done tt w'
    /\ w_trace w' = w_trace (idle_world HTTP_CLIENT)
                    ++ [on_error_ev ERROR_IDLE_CONN_TIMEDOUT]
    /\ state (w_conn w') = HTTP_STATE_MANGLED
    /\ ev_read (bev (w_conn w')) = false
    /\ ev_write (bev (w_conn w')) = false.
Proof.
  apply (@transport_event_is_reported (idle_world HTTP_CLIENT) 65).
  - discriminate.
  - reflexivity.
  - right. left. reflexivity.
Defined.

(** X5: the end of a connect.  On a connecting connection an event with
    the CONNECTED bit starts the first message (IDLE, reading and writing
    enabled, an empty header list) and is reported by [on_connect]; any
    other event is reported by [on_error] with ERROR_CONNECT_FAILED and
    leaves the connection MANGLED, its bufferevent untouched. *)
Theorem connect_outcome (w : world) (what : Z) :
  state (w_conn w) = HTTP_STATE_CONNECTING ->
  read_paused (w_conn w) = false ->
  headers (w_conn w) = None ->
  firstline (w_conn w) = None ->
  exists w',
    bev_event what w = Done tt w'
    /\ if has_flag what BEV_EVENT_CONNECTED
       then w_trace w' = w_trace w ++ [on_connect_ev]
            /\ state (w_conn w') = HTTP_STATE_IDLE
            /\ ev_read (bev (w_conn w')) = true
            /\ ev_write (bev (w_conn w')) = true
            /\ headers (w_conn w') = Some []
       else w_trace w' = w_trace w ++ [on_error_ev ERROR_CONNECT_FAILED]
            /\ state (w_conn w') = HTTP_STATE_MANGLED
            /\ bev (w_conn w') = bev (w_conn w).
Proof.
  intros Hs Hp Hh Hf.
  unfold bev_event, http_errorcb, begin_message, on_connect, on_error. run_m.
  rewrite Hs. cbn [state_eqb].
  destruct (has_flag what BEV_EVENT_CONNECTED).
  - run_m. rewrite Hh, Hf, Hp. cbn [is_null andb negb]. run_m.
    eexists. split; [reflexivity|]. cbn. rewrite !orb_true_r. repeat split; reflexivity.
  - run_m. eexists. split; [reflexivity|]. cbn. repeat split; reflexivity.
Qed.

Lemma connect_outcome_witness :
  exists w',
    bev_event 128 (connecting_world HTTP_SERVER) = Done tt w'
    /\ (w_trace w' = w_trace (connecting_world HTTP_SERVER) ++ [on_connect_ev]
        /\ state (w_conn w') = HTTP_STATE_IDLE
        /\ ev_read (bev (w_conn w')) = true
        /\ ev_write (bev (w_conn w')) = true
        /\ headers (w_conn w') = Some []).
Proof.
  apply (@connect_outcome (connecting_world HTTP_SERVER) 128); reflexivity.
Defined.

(** ** Bodies of known length *)

Lemma blen_nonneg (l : bytes) : 0 <= blen l.
Proof. unfold blen. lia. Qed.

Lemma blen_app (x y : bytes) : blen (x ++ y) = blen x + blen y.
Proof. unfold blen. rewrite length_app. lia. Qed.

Lemma blen_pos (l : bytes) : l <> [] -> 0 < blen l.
Proof. destruct l; [congruence|]. unfold blen. cbn [List.length]. lia. Qed.

(** One read of part of the body: it is handed to the owner whole, and the
    counter goes down by its length. *)
Lemma identity_body_part (fuel : nat) (p : bytes) (w : world) (n : Z) :
  reading_identity (w_conn w) n ->
  p <> [] ->
  blen p < n < 2 ^ 63 ->
  exists w',
    bev_readable (S fuel) p w = Done tt w'
    /\ w_trace w' = w_trace w ++ [on_read_body_ev p]
    /\ reading_identity (w_conn w') (n - blen p)
    /\ persistent (w_conn w') = persistent (w_conn w).
Proof.
  intros [Hs Hb Ht Hp He Hi Hg Hr [Hh Hf]] Hne Hn.
  pose proof (blen_pos Hne) as Hpos.
  unfold bev_readable, http_readcb. run_m. rewrite He.
  replace (blen p =? 0) with false by (symmetry; apply Z.eqb_neq; lia).
  cbn [andb negb]. run_m. rewrite Hi. cbn [app process_inbuf].
  unfold process_one_message. run_m. cbn [state set_inbuf set_bev]. rewrite Hs.
  unfold read_body, on_read_body. run_m.
  cbn [has_body te set_inbuf set_bev]. rewrite Hb, Ht. cbn [te_eqb]. run_m.
  change (inbuf (set_inbuf p (w_conn w))) with p.
  replace (blen p =? 0) with false by (symmetry; apply Z.eqb_neq; lia).
  cbn [negb].
  change (data_remaining (set_inbuf p (w_conn w))) with (data_remaining (w_conn w)).
  rewrite Hr. rewrite to_size_t_id by lia.
  replace (blen p >? n) with false by (symmetry; rewrite Z.gtb_ltb; apply Z.ltb_ge; lia).
  rewrite andb_false_r. run_m. unfold evbuffer_add_buffer. run_m.
  cbn [data_remaining set_data_remaining set_inbuf_processed set_inbuf set_bev
       inbuf_processed inbuf bev input set_input].
  rewrite Hr, Hg. cbn [app]. rewrite to_int64_id by lia.
  replace (n - blen p =? 0) with false by (symmetry; apply Z.eqb_neq; lia).
  run_m. cbn [read_paused set_data_remaining set_inbuf_processed set_inbuf set_bev
              inbuf bev input set_input blen List.length Z.of_nat].
  rewrite Hp. cbn. eexists. split; [reflexivity|]. split; [reflexivity|].
  split; [|reflexivity].
  constructor; cbn; auto.
Qed.

(** The read that brings the last bytes of the body: they are handed to the
    owner and the message ends. *)
Lemma identity_body_last_part (fuel : nat) (p : bytes) (w : world) :
  reading_identity (w_conn w) (blen p) ->
  p <> [] ->
  blen p < 2 ^ 63 ->
  exists w',
    bev_readable (S fuel) p w = Done tt w'
    /\ w_trace w' = w_trace w ++ [on_read_body_ev p; on_msg_complete_ev]
    /\ state (w_conn w')
       = (if persistent (w_conn w) then HTTP_STATE_IDLE else HTTP_STATE_MANGLED)
    /\ inbuf (w_conn w') = []
    /\ inbuf_processed (w_conn w') = [].
Proof.
  intros [Hs Hb Ht Hp He Hi Hg Hr [Hh Hf]] Hne Hn.
  pose proof (blen_pos Hne) as Hpos.
  unfold bev_readable, http_readcb. run_m. rewrite He.
  replace (blen p =? 0) with false by (symmetry; apply Z.eqb_neq; lia).
  cbn [andb negb]. run_m. rewrite Hi. cbn [app process_inbuf].
  unfold process_one_message. run_m. cbn [state set_inbuf set_bev]. rewrite Hs.
  unfold read_body, on_read_body. run_m.
  cbn [has_body te set_inbuf set_bev]. rewrite Hb, Ht. cbn [te_eqb]. run_m.
  change (inbuf (set_inbuf p (w_conn w))) with p.
  replace (blen p =? 0) with false by (symmetry; apply Z.eqb_neq; lia).
  cbn [negb].
  change (data_remaining (set_inbuf p (w_conn w))) with (data_remaining (w_conn w)).
  rewrite Hr. rewrite to_size_t_id by lia.
  replace (blen p >? blen p) with false
    by (symmetry; rewrite Z.gtb_ltb; apply Z.ltb_ge; lia).
  rewrite andb_false_r. run_m. unfold evbuffer_add_buffer. run_m.
  cbn [data_remaining set_data_remaining set_inbuf_processed set_inbuf set_bev
       inbuf_processed inbuf bev input set_input].
  rewrite Hr, Hg. cbn [app]. rewrite to_int64_id by lia.
  replace (blen p - blen p =? 0) with true by (symmetry; apply Z.eqb_eq; lia).
  run_m.
  destruct (persistent (w_conn w)) eqn:P.
  - unfold end_message, on_msg_complete, begin_message. run_m.
    cbn [error_eqb negb orb headers persistent firstline read_paused
         set_data_remaining set_inbuf_processed set_inbuf set_bev set_headers].
    rewrite Hh. cbn [persistent set_data_remaining set_inbuf_processed set_inbuf set_bev].
    rewrite P. cbn [negb]. run_m.
    cbn [headers firstline read_paused set_data_remaining set_inbuf_processed
         set_inbuf set_bev].
    rewrite Hh, Hf, Hp. cbn [is_null andb negb]. run_m.
    cbn. rewrite ?Hp. cbn [negb andb]. run_m.
    eexists. split; [reflexivity|]. cbn. rewrite <- app_assoc. repeat split; reflexivity.
  - rewrite end_message_last by exact P. run_m.
    unfold clear_headers.
    cbn [headers set_data_remaining set_inbuf_processed set_inbuf set_bev].
    rewrite Hh. cbn. rewrite ?andb_false_r. eexists. split; [reflexivity|].
    cbn. rewrite <- app_assoc. repeat split; reflexivity.
Qed.

(** X6: a body of known length arrives in any number of reads.  On a
    connection that expects [n] more bytes of an identity body, the bytes
    arriving in non-empty pieces that add up to [n] are handed to
    [on_read_body] piece by piece, in order and unchanged, and
    [on_msg_complete] follows the last piece and nothing else is called;
    the connection is then IDLE when persistent and MANGLED when not. *)
Theorem identity_body_in_any_pieces (fuel : nat) (parts : list bytes) : forall (w : world),
  reading_identity (w_conn w) (blen (List.concat parts)) ->
  parts <> [] ->
  all_nonempty parts ->
  blen (List.concat parts) < 2 ^ 63 ->
  exists w',
    deliver (S fuel) parts w = Done tt w'
    /\ w_trace w' = w_trace w ++ map on_read_body_ev parts ++ [on_msg_complete_ev]
    /\ state (w_conn w')
       = (if persistent (w_conn w) then HTTP_STATE_IDLE else HTTP_STATE_MANGLED)
    /\ inbuf (w_conn w') = [].
Proof.
  induction parts as [|p r IH]; intros w Hri Hne Hall Hlen; [congruence|].
  destruct Hall as [Hp Hr]. cbn [List.concat] in *. rewrite blen_app in *.
  cbn [deliver map]. unfold bind at 1.
  destruct r as [|q r].
  - cbn [List.concat] in *. change (blen []) with 0 in *.
    replace (blen p + 0) with (blen p) in * by lia.
    destruct (@identity_body_last_part fuel p w Hri Hp Hlen) as (w' & E & T & S & I & _).
    rewrite E. cbn [deliver]. unfold ret. exists w'. cbn [app]. auto.
  - assert (Hq : 0 < blen (List.concat (q :: r))).
    { cbn [List.concat]. rewrite blen_app. destruct Hr as [Hq _].
      pose proof (blen_pos Hq). pose proof (blen_nonneg (List.concat r)). lia. }
    destruct (@identity_body_part fuel p w (blen p + blen (List.concat (q :: r))) Hri Hp)
      as (w1 & E & T & Hri1 & P); [cbn [List.concat] in *; lia|].
    rewrite E.
    replace (blen p + blen (List.concat (q :: r)) - blen p) with (blen (List.concat (q :: r)))
      in Hri1 by lia.
    destruct (IH w1 Hri1) as (w' & E' & T' & S' & I');
      [discriminate | exact Hr | cbn [List.concat] in *; pose proof (blen_pos Hp); lia |].
    rewrite P in S'.
    exists w'. split; [exact E'|]. rewrite T', T, <- app_assoc. auto.
Qed.

Lemma identity_body_in_any_pieces_witness :
  exists w',
    deliver 1 [txt "he"; txt "l"; txt "lo"] known_length_world = Done tt w'
    /\ w_trace w' = w_trace known_length_world
                    ++ map on_read_body_ev [txt "he"; txt "l"; txt "lo"]
                    ++ [on_msg_complete_ev]
    /\ state (w_conn w') = HTTP_STATE_IDLE
    /\ inbuf (w_conn w') = [].
Proof.
  apply (@identity_body_in_any_pieces 0 [txt "he"; txt "l"; txt "lo"] known_length_world).
  - constructor; try reflexivity. split; reflexivity.
  - discriminate.
  - cbn. repeat split; discriminate.
  - reflexivity.
Defined.

(** ** Chunked bodies *)

Lemma parse_chunk_len_loop_line (pre line rest : bytes) (fuel : nat) :
  pre = [] \/ pre = CRLF ->
  ~ In LF line -> ~ In NUL line ->
  0 <= get_int line 16 ->
  parse_chunk_len_loop (S (S fuel)) (pre ++ line ++ CRLF ++ rest)
  = (1, Some (get_int line 16), rest).
Proof.
  intros Hpre Hlf Hnul Hn.
  assert (Hne : line <> []) by (intros ->; cbn in Hn; lia).
  assert (Step : forall f, parse_chunk_len_loop (S f) (line ++ CRLF ++ rest)
                           = (1, Some (get_int line 16), rest)).
  { intros f. cbn [parse_chunk_len_loop]. rewrite evbuffer_readln_line by assumption.
    destruct line as [|a l]; [congruence|].
    replace (get_int (a :: l) 16 <? 0) with false by (symmetry; apply Z.ltb_ge; lia).
    reflexivity. }
  destruct Hpre as [-> | ->].
  - apply Step.
  - change (CRLF ++ line ++ CRLF ++ rest) with ([] ++ CRLF ++ (line ++ CRLF ++ rest)).
    cbn [parse_chunk_len_loop]. rewrite evbuffer_readln_line by (intros []).
    apply Step.
Qed.

(** The turn that reads a size line. *)
Lemma chunk_size_turn (w : world) (pre line rest : bytes) :
  reading_chunked (w_conn w) (-1) (pre ++ line ++ CRLF ++ rest) ->
  pre = [] \/ pre = CRLF ->
  ~ In LF line -> ~ In NUL line ->
  0 <= get_int line 16 ->
  exists w1,
    process_one_message w = Done tt w1
    /\ w_trace w1 = w_trace w
    /\ reading_chunked (w_conn w1) (get_int line 16) rest
    /\ persistent (w_conn w1) = persistent (w_conn w).
Proof.
  intros [Hs Hb Ht Hp Hi Hg Hr Hh Hf] Hpre Hlf Hnul Hn.
  unfold process_one_message. run_m. rewrite Hs.
  unfold read_body. run_m. rewrite Hb, Ht. cbn [te_eqb]. run_m.
  unfold read_chunk. run_m. rewrite Hr. cbn [Z.ltb Z.compare].
  unfold parse_chunk_len. run_m. rewrite Hi.
  assert (L : exists f, List.length (pre ++ line ++ CRLF ++ rest) = S f).
  { assert (N : List.length (pre ++ line ++ CRLF ++ rest) <> 0%nat)
      by (rewrite !length_app; cbn [List.length CRLF]; lia).
    destruct (List.length (pre ++ line ++ CRLF ++ rest)) as [|f]; [congruence|].
    exists f. reflexivity. }
  destruct L as [f ->].
  rewrite parse_chunk_len_loop_line by assumption. run_m.
  cbn [Z.ltb Z.compare]. run_m.
  eexists. split; [reflexivity|]. cbn [w_conn w_trace].
  split; [reflexivity|]. split; [|reflexivity].
  constructor; cbn; auto.
Qed.

(** The turn that hands out the data of a chunk that is buffered whole. *)
Lemma chunk_data_turn (w : world) (data rest : bytes) :
  reading_chunked (w_conn w) (blen data) (data ++ rest) ->
  data <> [] ->
  blen data < 2 ^ 63 ->
  exists w1,
    process_one_message w = Done tt w1
    /\ w_trace w1 = w_trace w ++ [on_read_body_ev data]
    /\ reading_chunked (w_conn w1) (-1) rest
    /\ persistent (w_conn w1) = persistent (w_conn w).
Proof.
  intros [Hs Hb Ht Hp Hi Hg Hr Hh Hf] Hne Hlen.
  pose proof (blen_pos Hne) as Hpos. pose proof (blen_nonneg rest) as Hrest.
  unfold process_one_message. run_m. rewrite Hs.
  unfold read_body. run_m. rewrite Hb, Ht. cbn [te_eqb]. run_m.
  unfold read_chunk. run_m. rewrite Hr, Hi.
  replace (blen data <? 0) with false by (symmetry; apply Z.ltb_ge; lia).
  replace (blen data =? 0) with false by (symmetry; apply Z.eqb_neq; lia).
  rewrite to_size_t_id by lia.
  replace (blen (data ++ rest) >=? blen data) with true
    by (symmetry; rewrite Z.geb_leb; apply Z.leb_le; rewrite blen_app; lia).
  unfold on_read_body, evbuffer_remove_buffer. run_m.
  cbn [inbuf_processed set_inbuf_processed set_inbuf set_bev data_remaining
       set_data_remaining inbuf bev input set_input].
  fold (inbuf (w_conn w)). rewrite Hi, Hg, Hr.
  replace (Z.to_nat (blen data)) with (List.length data) by (unfold blen; lia).
  rewrite firstn_app, skipn_app, Nat.sub_diag, firstn_all, skipn_all.
  cbn [firstn skipn app]. rewrite app_nil_r.
  replace (blen data - blen data) with 0 by lia.
  change (to_int64 0 =? 0) with true. cbv iota.
  run_m.
  eexists. split; [reflexivity|]. cbn [w_conn w_trace].
  split; [reflexivity|]. split; [|reflexivity].
  constructor; cbn; auto.
Qed.

(** The turn after the last chunk: the next line, whatever it holds, ends the
    message. *)
Lemma last_chunk_turn (w : world) (buf line rest : bytes) :
  reading_chunked (w_conn w) 0 buf ->
  evbuffer_readln buf = Some (line, rest) ->
  exists w1,
    process_one_message w = Done tt w1
    /\ w_trace w1 = w_trace w ++ [on_msg_complete_ev]
    /\ state (w_conn w1)
       = (if persistent (w_conn w) then HTTP_STATE_IDLE else HTTP_STATE_MANGLED)
    /\ inbuf (w_conn w1) = rest
    /\ read_paused (w_conn w1) = false.
Proof.
  intros [Hs Hb Ht Hp Hi Hg Hr Hh Hf] Hl.
  unfold process_one_message. run_m. rewrite Hs.
  unfold read_body. run_m. rewrite Hb, Ht. cbn [te_eqb]. run_m.
  unfold read_chunk. run_m. rewrite Hr, Hi, Hl. cbn [Z.ltb Z.eqb Z.compare]. run_m.
  destruct (persistent (w_conn w)) eqn:P.
  - unfold end_message, on_msg_complete, begin_message. run_m.
    cbn [error_eqb negb orb headers persistent firstline read_paused set_inbuf set_bev
         set_headers].
    rewrite Hh. cbn [persistent set_inbuf set_bev]. rewrite P. cbn [negb]. run_m.
    cbn [headers firstline read_paused set_inbuf set_bev].
    rewrite Hh, Hf, Hp. cbn [is_null andb negb]. run_m.
    eexists. split; [reflexivity|]. cbn. rewrite ?Hp. auto.
  - rewrite end_message_last by exact P.
    eexists. split; [reflexivity|]. unfold clear_headers.
    cbn [w_conn w_trace headers set_inbuf set_bev]. rewrite Hh. cbn. auto.
Qed.

Lemma blen_gt_0 (l : bytes) : l <> [] -> (blen l >? 0) = true.
Proof. intros H. apply Z.gtb_lt. apply blen_pos. exact H. Qed.

Lemma chunks_wire_nonempty (cs : list (bytes * bytes)) : chunks_wire cs <> [].
Proof. destruct cs as [|[l d] r]; cbn; [discriminate|]. destruct l; discriminate. Qed.

Lemma free_of_lf_nul (l : bytes) :
  free_of [LF; NUL] l = true -> ~ In LF l /\ ~ In NUL l.
Proof.
  intros H. split; apply (@free_of_spec [LF; NUL] l _ H); cbn; auto.
Qed.

Lemma chunks_turns (cs : list (bytes * bytes)) : forall (fuel : nat) (w : world) (pre : bytes),
  reading_chunked (w_conn w) (-1) (pre ++ chunks_wire cs) ->
  pre = [] \/ pre = CRLF ->
  Forall size_line_for cs ->
  exists w',
    process_inbuf (2 * List.length cs + 2 + fuel) w = Done tt w'
    /\ w_trace w' = w_trace w ++ map (fun c => on_read_body_ev (snd c)) cs
                             ++ [on_msg_complete_ev]
    /\ state (w_conn w')
       = (if persistent (w_conn w) then HTTP_STATE_IDLE else HTTP_STATE_MANGLED)
    /\ inbuf (w_conn w') = [].
Proof.
  induction cs as [|[line data] r IH]; intros fuel w pre Hrc Hpre Hall.
  - cbn [chunks_wire List.length map app Nat.mul Nat.add] in *.
    destruct (@chunk_size_turn w pre (txt "0") CRLF Hrc Hpre) as (w1 & E1 & T1 & R1 & P1);
      [cbn; intuition discriminate | cbn; intuition discriminate
      | vm_compute; discriminate |].
    change (get_int (txt "0") 16) with 0 in R1.
    rewrite (@process_inbuf_step _ _ _ E1).
    rewrite (rc_paused R1), (rc_inbuf R1). cbn [negb andb blen List.length CRLF Z.gtb].
    change (Z.of_nat 2 >? 0) with true. cbv iota.
    destruct (@last_chunk_turn w1 CRLF [] [] R1 eq_refl) as (w2 & E2 & T2 & S2 & I2 & P2).
    rewrite (@process_inbuf_step _ _ _ E2). rewrite I2, P2. cbn.
    exists w2. rewrite T2, T1, S2, P1. auto.
  - inversion Hall as [|c l [Hfree [Hint Hne]] Hr]; subst. cbn [fst snd] in *.
    destruct (@free_of_lf_nul _ Hfree) as [Hlf Hnul].
    pose proof (get_int_le line 16) as Hle. unfold INT64_MAX in Hle.
    pose proof (blen_pos Hne) as Hpos.
    cbn [chunks_wire List.length map] in *.
    replace (2 * S (List.length r) + 2 + fuel)%nat
      with (S (S (2 * List.length r + 2 + fuel)))%nat by lia.
    destruct (@chunk_size_turn w pre line (data ++ CRLF ++ chunks_wire r) Hrc Hpre Hlf Hnul)
      as (w1 & E1 & T1 & R1 & P1); [lia|].
    rewrite Hint in R1.
    rewrite (@process_inbuf_step _ _ _ E1).
    rewrite (rc_paused R1), (rc_inbuf R1). cbn [negb andb].
    rewrite blen_gt_0 by (destruct data; [congruence | discriminate]).
    destruct (@chunk_data_turn w1 data (CRLF ++ chunks_wire r) R1 Hne) as (w2 & E2 & T2 & R2 & P2);
      [lia|].
    rewrite (@process_inbuf_step _ _ _ E2).
    rewrite (rc_paused R2), (rc_inbuf R2). cbn [negb andb].
    rewrite blen_gt_0 by discriminate.
    destruct (IH fuel w2 CRLF R2 (or_intror eq_refl) Hr) as (w' & E & T & S & I).
    exists w'. split; [exact E|]. rewrite T, T2, T1, S, P2, P1, <- app_assoc. auto.
Qed.

(** X7: a chunked body that arrives in one read is decoded.  For any list
    of chunks, each with a size line that [get_int] reads as the number of
    its data bytes, the wire form (size line, CRLF, data, CRLF for each
    chunk, then "0", CRLF, CRLF) makes the read callback hand the data of
    each chunk to [on_read_body], in order and without the framing, then call
    [on_msg_complete], and return with the input buffer empty; two turns of
    the read loop per chunk and two more are enough. *)
Theorem chunked_body_is_decoded (cs : list (bytes * bytes)) (fuel : nat) (w : world) :
  reading_chunked (w_conn w) (-1) [] ->
  ev_read (bev (w_conn w)) = true ->
  Forall size_line_for cs ->
  exists w',
    bev_readable (2 * List.length cs + 2 + fuel) (chunks_wire cs) w = Done tt w'
    /\ w_trace w' = w_trace w ++ map (fun c => on_read_body_ev (snd c)) cs
                             ++ [on_msg_complete_ev]
    /\ state (w_conn w')
       = (if persistent (w_conn w) then HTTP_STATE_IDLE else HTTP_STATE_MANGLED)
    /\ inbuf (w_conn w') = [].
Proof.
  intros Hrc He Hall.
  unfold bev_readable, http_readcb. unfold bind at 1, get at 1. rewrite He.
  replace (blen (chunks_wire cs) =? 0) with false
    by (symmetry; apply Z.eqb_neq; pose proof (blen_pos (@chunks_wire_nonempty cs)); lia).
  cbn [andb negb]. unfold bind at 1, modify at 1. rewrite (rc_inbuf Hrc). cbn [app].
  set (w0 := {| w_conn := set_inbuf (chunks_wire cs) (w_conn w); w_trace := w_trace w |}).
  assert (R0 : reading_chunked (w_conn w0) (-1) ([] ++ chunks_wire cs)).
  { destruct Hrc. constructor; cbn; auto. }
  destruct (@chunks_turns cs fuel w0 [] R0 (or_introl eq_refl) Hall) as (w' & E & T & S & I).
  exists w'. auto.
Qed.

Lemma chunked_body_is_decoded_witness :
  exists w',
    bev_readable 6 (chunks_wire [(txt "5", txt "hello"); (txt "1A", txt "abcdefghijklmnopqrstuvwxyz")])
                 chunked_world = Done tt w'
    /\ w_trace w' = w_trace chunked_world
                    ++ [on_read_body_ev (txt "hello");
                        on_read_body_ev (txt "abcdefghijklmnopqrstuvwxyz");
                        on_msg_complete_ev]
    /\ state (w_conn w') = HTTP_STATE_IDLE
    /\ inbuf (w_conn w') = [].
Proof.
  apply (@chunked_body_is_decoded
           [(txt "5", txt "hello"); (txt "1A", txt "abcdefghijklmnopqrstuvwxyz")]
           0 chunked_world).
  - constructor; reflexivity.
  - reflexivity.
  - repeat constructor; discriminate.
Defined.

(** ** More bytes than the body has *)

(** X8: a body of known length never takes more than its length.  When a
    read brings more bytes than the [n] the identity body still expects,
    exactly the first [n] bytes go to [on_read_body], [on_msg_complete]
    follows, and the surplus stays in the input buffer.  On a persistent
    connection the read loop goes on with the surplus as the start of the
    next message; on a connection that is not persistent the loop takes
    another turn on the MANGLED connection and the process is aborted
    ([log_fatal] in [process_one_message]). *)
Theorem body_stops_at_content_length (fuel : nat) (data : bytes) (w : world) (n : Z) :
  reading_identity (w_conn w) n ->
  0 < n < blen data ->
  n < 2 ^ 63 ->
  exists w1,
    bev_readable (S (S fuel)) data w
    = (if persistent (w_conn w) then process_inbuf (S fuel) w1 else Fatal w1)
    /\ w_trace w1 = w_trace w ++ [on_read_body_ev (firstn (Z.to_nat n) data);
                                  on_msg_complete_ev]
    /\ inbuf (w_conn w1) = skipn (Z.to_nat n) data
    /\ state (w_conn w1)
       = (if persistent (w_conn w) then HTTP_STATE_IDLE else HTTP_STATE_MANGLED).
Proof.
  intros [Hs Hb Ht Hp He Hi Hg Hr [Hh Hf]] Hn Hmax.
  assert (Hskip : skipn (Z.to_nat n) data <> []).
  { intros E. apply (f_equal (@List.length ascii)) in E. rewrite length_skipn in E.
    unfold blen in Hn. cbn [List.length] in E. lia. }
  unfold bev_readable, http_readcb. unfold bind at 1, get at 1. rewrite He.
  replace (blen data =? 0) with false by (symmetry; apply Z.eqb_neq; lia).
  cbn [andb negb]. unfold bind at 1, modify at 1. rewrite Hi. cbn [app w_conn w_trace].
  remember (S fuel) as f eqn:Ef.
  cbn [process_inbuf]. unfold bind at 1.
  unfold process_one_message. run_m. cbn [state set_inbuf set_bev]. rewrite Hs.
  unfold read_body, on_read_body. run_m.
  cbn [has_body te set_inbuf set_bev]. rewrite Hb, Ht. cbn [te_eqb]. run_m.
  change (inbuf (set_inbuf data (w_conn w))) with data.
  replace (blen data =? 0) with false by (symmetry; apply Z.eqb_neq; lia).
  cbn [negb].
  change (data_remaining (set_inbuf data (w_conn w))) with (data_remaining (w_conn w)).
  rewrite Hr. rewrite to_size_t_id by lia.
  replace (n >=? 0) with true by (symmetry; rewrite Z.geb_leb; apply Z.leb_le; lia).
  replace (blen data >? n) with true by (symmetry; apply Z.gtb_lt; lia).
  cbn [andb]. run_m. unfold evbuffer_remove_buffer. run_m.
  cbn [data_remaining set_data_remaining set_inbuf_processed set_inbuf set_bev
       inbuf_processed inbuf bev input set_input].
  rewrite Hr, Hg. cbn [app].
  replace (n - n) with 0 by lia. change (to_int64 0 =? 0) with true. cbv iota.
  destruct (persistent (w_conn w)) eqn:P.
  - unfold end_message, on_msg_complete, begin_message. run_m.
    cbn [error_eqb negb orb headers persistent firstline read_paused
         set_data_remaining set_inbuf_processed set_inbuf set_bev set_headers].
    rewrite Hh. cbn [persistent set_data_remaining set_inbuf_processed set_inbuf set_bev].
    rewrite P. cbn [negb]. run_m.
    cbn [headers firstline read_paused set_data_remaining set_inbuf_processed
         set_inbuf set_bev].
    rewrite Hh, Hf, Hp. cbn [is_null andb negb]. run_m.
    cbn [read_paused inbuf bev input set_bev set_input set_state set_headers
         set_data_remaining set_inbuf_processed set_inbuf bev_enable].
    rewrite Hp. cbn [negb andb]. rewrite blen_gt_0 by exact Hskip.
    eexists. split; [reflexivity|]. cbn. rewrite <- app_assoc. auto.
  - rewrite end_message_last by exact P. run_m.
    unfold clear_headers.
    cbn [headers set_data_remaining set_inbuf_processed set_inbuf set_bev].
    rewrite Hh.
    cbn [read_paused inbuf bev input set_bev set_input set_state mangle
         set_data_remaining set_inbuf_processed set_inbuf bev_disable].
    rewrite Hp. cbn [negb andb]. rewrite blen_gt_0 by exact Hskip.
    rewrite Ef, process_inbuf_mangled by reflexivity.
    eexists. split; [reflexivity|]. cbn. rewrite <- app_assoc. auto.
Qed.

Lemma body_stops_at_content_length_witness :
  exists w1,
    bev_readable 2 (txt "hello, world") final_response_world = Fatal w1
    /\ w_trace w1 = w_trace final_response_world
                    ++ [on_read_body_ev (txt "hello"); on_msg_complete_ev]
    /\ inbuf (w_conn w1) = txt ", world"
    /\ state (w_conn w1) = HTTP_STATE_MANGLED.
Proof.
  apply (@body_stops_at_content_length 0 (txt "hello, world") final_response_world 5).
  - constructor; try reflexivity. split; reflexivity.
  - cbn. lia.
  - lia.
Defined.

(** ** What [check_headers] decides *)

Ltac framing_cases H :=
  unfold check_headers, check_framing_headers, on_error in H; run_in H;
  cbn [w_conn w_trace type set_te set_has_body set_msg_complete_on_eof set_data_remaining] in H.

(** X9: when [check_headers] leaves a connection to a server persistent,
    the response is HTTP/1.1, the connection's version was unknown or
    HTTP/1.1 before and is HTTP/1.1 now, and the end of the message does not
    depend on the end of the connection ([msg_complete_on_eof] is off). *)
Theorem persistent_after_response (resp : http_response) (w w' : world) :
  type (w_conn w) = HTTP_SERVER ->
  check_headers None (Some resp) w = Done tt w' ->
  persistent (w_conn w') = true ->
  resp_vers resp = HTTP_11
  /\ vers (w_conn w') = HTTP_11
  /\ (vers (w_conn w) = HTTP_UNKNOWN \/ vers (w_conn w) = HTTP_11)
  /\ msg_complete_on_eof (w_conn w') = false.
Proof.
  intros Ht H Hp. framing_cases H. rewrite Ht in H.
  destruct (vers (w_conn w)) eqn:V; destruct (resp_vers resp) eqn:R;
    cbn [vers set_te set_has_body set_msg_complete_on_eof set_data_remaining] in H;
    simpl_hyps; rewrite ?V in *; simpl_hyps;
    repeat (break_match; simpl_hyps; rewrite ?V in *; simpl_hyps; try discriminate);
    done_inv; simpl_hyps; try discriminate;
    try (rewrite Ht in *; discriminate);
    intuition (try congruence).
Qed.

Lemma persistent_after_response_witness :
  resp_vers no_content_response = HTTP_11
  /\ vers (w_conn (world_of (check_headers None (Some no_content_response)
                                           (idle_world HTTP_SERVER)))) = HTTP_11
  /\ (vers (w_conn (idle_world HTTP_SERVER)) = HTTP_UNKNOWN
      \/ vers (w_conn (idle_world HTTP_SERVER)) = HTTP_11)
  /\ msg_complete_on_eof
       (w_conn (world_of (check_headers None (Some no_content_response)
                                        (idle_world HTTP_SERVER)))) = false.
Proof.
  apply (@persistent_after_response no_content_response (idle_world HTTP_SERVER)
           (world_of (check_headers None (Some no_content_response)
                                    (idle_world HTTP_SERVER))));
    vm_compute; reflexivity.
Defined.

Ltac framing_goal :=
  unfold check_headers, check_framing_headers, on_error; run_m;
  cbn [w_conn w_trace type set_te set_has_body set_msg_complete_on_eof set_data_remaining
       the_headers headers has_body te].

(** X10: Transfer-Encoding wins over Content-Length.  For a message that
    may have a body (a POST or PUT request, or a response whose status does
    not rule a body out) with a Transfer-Encoding header that says "chunked"
    in any case, [check_headers] selects the chunked encoding with the
    counter at -1 and leaves the message with a body, not delimited by EOF,
    whatever a Content-Length header says; no callback is invoked. *)
Theorem chunked_overrides_content_length
        (req : option http_request) (resp : option http_response) (w : world) (val : bytes) :
  may_have_body (w_conn w) req resp ->
  headers_find (the_headers (w_conn w)) (txt "transfer-encoding") = Some val ->
  evutil_ascii_strcasecmp val (txt "chunked") = 0 ->
  exists w',
    check_headers req resp w = Done tt w'
    /\ w_trace w' = w_trace w
    /\ has_body (w_conn w') = true
    /\ te (w_conn w') = TE_CHUNKED
    /\ data_remaining (w_conn w') = -1
    /\ msg_complete_on_eof (w_conn w') = false.
Proof.
  unfold may_have_body, the_headers. intros Hm Hf Hc. framing_goal.
  destruct (type (w_conn w)) eqn:Ht.
  - destruct req as [r|]; [|contradiction]. destruct Hm as [Hm Hv].
    run_m. rewrite Hm. run_m. cbn [has_body set_has_body headers the_headers]. run_m.
    unfold the_headers. cbn [headers set_has_body set_data_remaining set_msg_complete_on_eof set_te].
    rewrite Hf, Hc. cbn [Z.eqb]. run_m. cbn [te set_te te_eqb negb]. run_m.
    cbn [type set_te set_has_body set_data_remaining set_msg_complete_on_eof].
    rewrite Ht. cbn [type_eqb andb te set_te te_eqb negb]. rewrite andb_false_r. run_m.
    destruct (req_vers r); [congruence| |]; cbn [version_eqb negb]; run_m;
      eexists; (split; [reflexivity|]); cbn; auto.
  - destruct resp as [r|]; [|destruct req; contradiction].
    assert (Hm' : bodyless_code (resp_code r) = false /\ resp_vers r <> HTTP_UNKNOWN)
      by (destruct req; exact Hm).
    destruct Hm' as [Hb Hv].
    replace (match req with Some _ | _ => when (bodyless_code (resp_code r)) (modify (set_has_body false)) ;; ret (resp_vers r) end)
      with (when (bodyless_code (resp_code r)) (modify (set_has_body false)) ;; ret (resp_vers r))
      by (destruct req; reflexivity).
    rewrite Hb. run_m. cbn [has_body set_has_body set_data_remaining set_msg_complete_on_eof set_te].
    run_m. unfold the_headers.
    cbn [headers set_has_body set_data_remaining set_msg_complete_on_eof set_te].
    rewrite Hf, Hc. cbn [Z.eqb]. run_m. cbn [te set_te te_eqb negb]. run_m.
    cbn [type set_te set_has_body set_data_remaining set_msg_complete_on_eof].
    rewrite Ht. cbn [type_eqb andb]. run_m.
    destruct (resp_vers r); [congruence| |]; cbn [version_eqb negb]; run_m;
      eexists; (split; [reflexivity|]); cbn; auto.
Qed.

Lemma chunked_overrides_content_length_witness :
  exists w',
    check_headers None (Some (ok_response both_framing_headers))
                  (with_headers both_framing_headers (idle_world HTTP_SERVER)) = Done tt w'
    /\ w_trace w' = w_trace (with_headers both_framing_headers (idle_world HTTP_SERVER))
    /\ has_body (w_conn w') = true
    /\ te (w_conn w') = TE_CHUNKED
    /\ data_remaining (w_conn w') = -1
    /\ msg_complete_on_eof (w_conn w') = false.
Proof.
  apply (@chunked_overrides_content_length None (Some (ok_response both_framing_headers))
           (with_headers both_framing_headers (idle_world HTTP_SERVER)) (txt "Chunked")).
  - vm_compute. split; [reflexivity | discriminate].
  - vm_compute. reflexivity.
  - vm_compute. reflexivity.
Defined.

Ltac fields :=
  cbn [has_body te type headers data_remaining msg_complete_on_eof vers persistent
       set_has_body set_te set_data_remaining set_msg_complete_on_eof set_vers set_persistent].

(** X11: a message without a body by its kind ignores the framing headers.
    For a request other than POST and PUT, and for a response with status
    1xx, 204, 205 or 304, [check_headers] leaves the message without a body,
    with the identity encoding and the counter at -1, whatever the
    Transfer-Encoding and Content-Length headers say; no callback is
    invoked. *)
Theorem bodyless_message_ignores_framing_headers
        (req : option http_request) (resp : option http_response) (w : world) :
  bodyless_by_kind (w_conn w) req resp ->
  exists w',
    check_headers req resp w = Done tt w'
    /\ w_trace w' = w_trace w
    /\ has_body (w_conn w') = false
    /\ te (w_conn w') = TE_IDENTITY
    /\ data_remaining (w_conn w') = -1
    /\ msg_complete_on_eof (w_conn w') = false.
Proof.
  unfold bodyless_by_kind. intros Hm. framing_goal.
  destruct (type (w_conn w)) eqn:Ht.
  - destruct req as [r|]; [|contradiction]. destruct Hm as [Hm Hv].
    run_m. rewrite Hm. run_m. fields. run_m.
    destruct (req_vers r); [congruence| |]; cbn [version_eqb negb]; run_m;
      eexists; (split; [reflexivity|]); cbn; auto.
  - destruct resp as [r|]; [|destruct req; contradiction].
    assert (Hm' : bodyless_code (resp_code r) = true /\ resp_vers r <> HTTP_UNKNOWN)
      by (destruct req; exact Hm).
    destruct Hm' as [Hb Hv].
    destruct req; rewrite Hb; run_m; fields; run_m;
      (destruct (resp_vers r); [congruence| |]); cbn [version_eqb negb]; run_m;
      eexists; (split; [reflexivity|]); cbn; auto.
Qed.

Lemma bodyless_message_ignores_framing_headers_witness :
  exists w',
    check_headers (Some (head_request both_framing_headers)) None
                  (with_headers both_framing_headers (idle_world HTTP_CLIENT)) = Done tt w'
    /\ w_trace w' = w_trace (with_headers both_framing_headers (idle_world HTTP_CLIENT))
    /\ has_body (w_conn w') = false
    /\ te (w_conn w') = TE_IDENTITY
    /\ data_remaining (w_conn w') = -1
    /\ msg_complete_on_eof (w_conn w') = false.
Proof.
  apply (@bodyless_message_ignores_framing_headers
           (Some (head_request both_framing_headers)) None
           (with_headers both_framing_headers (idle_world HTTP_CLIENT))).
  vm_compute. split; [reflexivity | discriminate].
Defined.

Ltac no_chunked_header Hn :=
  match type of Hn with
  | match ?x with _ => _ end =>
      destruct x as [?v|];
      [apply Z.eqb_neq in Hn; rewrite Hn | ]
  end.

(** X12: Content-Length sets the counter.  For a message that may have a
    body, without a Transfer-Encoding header that says "chunked", a
    Content-Length value that [get_int] reads as a number gives the identity
    encoding with that number as the count of bytes expected; the message
    has a body exactly when the number is not 0, and it is not delimited by
    EOF; no callback is invoked. *)
Theorem content_length_sets_the_counter
        (req : option http_request) (resp : option http_response) (w : world) (val : bytes) :
  may_have_body (w_conn w) req resp ->
  not_chunked (w_conn w) ->
  headers_find (the_headers (w_conn w)) (txt "content-length") = Some val ->
  0 <= get_int val 10 ->
  exists w',
    check_headers req resp w = Done tt w'
    /\ w_trace w' = w_trace w
    /\ has_body (w_conn w') = negb (get_int val 10 =? 0)
    /\ te (w_conn w') = TE_IDENTITY
    /\ data_remaining (w_conn w') = get_int val 10
    /\ msg_complete_on_eof (w_conn w') = false.
Proof.
  unfold may_have_body, not_chunked, the_headers. intros Hm Hn Hf Hc. framing_goal.
  assert (Hlt : (get_int val 10 <? 0) = false) by (apply Z.ltb_ge; exact Hc).
  destruct (type (w_conn w)) eqn:Ht.
  - destruct req as [r|]; [|contradiction]. destruct Hm as [Hm Hv].
    run_m. rewrite Hm. run_m. fields. run_m.
    unfold the_headers. fields.
    no_chunked_header Hn; run_m; fields; cbn [te_eqb negb]; run_m; fields; rewrite Hf; run_m; rewrite Hlt; cbn [negb]; run_m; fields;
      destruct (get_int val 10 =? 0) eqn:Ez; run_m; fields; rewrite Ht, Hlt;
      cbn [type_eqb andb te_eqb negb]; run_m;
      (destruct (req_vers r); [congruence| |]); cbn [version_eqb negb]; run_m;
      eexists; (split; [reflexivity|]); cbn; auto.
  - destruct resp as [r|]; [|destruct req; contradiction].
    assert (Hm' : bodyless_code (resp_code r) = false /\ resp_vers r <> HTTP_UNKNOWN)
      by (destruct req; exact Hm).
    destruct Hm' as [Hb Hv].
    destruct req; rewrite Hb; run_m; fields; run_m;
      unfold the_headers; fields;
      no_chunked_header Hn; run_m; fields; cbn [te_eqb negb]; run_m; fields; rewrite Hf; run_m; rewrite Hlt; cbn [negb]; run_m; fields;
      destruct (get_int val 10 =? 0) eqn:Ez; run_m; fields; rewrite Ht;
      cbn [type_eqb andb]; run_m;
      (destruct (resp_vers r); [congruence| |]); cbn [version_eqb negb]; run_m;
      eexists; (split; [reflexivity|]); cbn; auto.
Qed.

Lemma content_length_sets_the_counter_witness :
  exists w',
    check_headers None (Some (ok_response length_headers))
                  (with_headers length_headers (idle_world HTTP_SERVER)) = Done tt w'
    /\ w_trace w' = w_trace (with_headers length_headers (idle_world HTTP_SERVER))
    /\ has_body (w_conn w') = true
    /\ te (w_conn w') = TE_IDENTITY
    /\ data_remaining (w_conn w') = 10
    /\ msg_complete_on_eof (w_conn w') = false.
Proof.
  apply (@content_length_sets_the_counter None (Some (ok_response length_headers))
           (with_headers length_headers (idle_world HTTP_SERVER)) (txt "10")).
  - vm_compute. split; [reflexivity | discriminate].
  - vm_compute. discriminate.
  - vm_compute. reflexivity.
  - vm_compute. discriminate.
Defined.

(** X13: a response without any length ends with the connection.  For a
    response that may have a body, with neither a chunked Transfer-Encoding
    nor a Content-Length header, [check_headers] leaves a body of unknown
    length that is complete at EOF, and the connection is not persistent,
    whatever the version and the Connection header. *)
Theorem response_without_length_ends_at_eof
        (req : option http_request) (r : http_response) (w : world) :
  type (w_conn w) = HTTP_SERVER ->
  bodyless_code (resp_code r) = false ->
  resp_vers r <> HTTP_UNKNOWN ->
  not_chunked (w_conn w) ->
  headers_find (the_headers (w_conn w)) (txt "content-length") = None ->
  exists w',
    check_headers req (Some r) w = Done tt w'
    /\ w_trace w' = w_trace w
    /\ has_body (w_conn w') = true
    /\ te (w_conn w') = TE_IDENTITY
    /\ data_remaining (w_conn w') = -1
    /\ msg_complete_on_eof (w_conn w') = true
    /\ persistent (w_conn w') = false.
Proof.
  unfold not_chunked, the_headers. intros Ht Hb Hv Hn Hf. framing_goal. rewrite Ht.
  destruct req; rewrite Hb; run_m; fields; run_m;
    unfold the_headers; fields;
    no_chunked_header Hn; run_m; fields; cbn [te_eqb negb]; run_m; fields; rewrite Hf;
    run_m; fields; rewrite Ht; cbn [type_eqb andb]; run_m;
    (destruct (resp_vers r); [congruence| |]); cbn [version_eqb negb andb]; run_m;
    eexists; (split; [reflexivity|]); cbn; repeat split; destruct (vers (w_conn w)); reflexivity.
Qed.

Lemma response_without_length_ends_at_eof_witness :
  exists w',
    check_headers None (Some (ok_response [])) (idle_world HTTP_SERVER) = Done tt w'
    /\ w_trace w' = w_trace (idle_world HTTP_SERVER)
    /\ has_body (w_conn w') = true
    /\ te (w_conn w') = TE_IDENTITY
    /\ data_remaining (w_conn w') = -1
    /\ msg_complete_on_eof (w_conn w') = true
    /\ persistent (w_conn w') = false.
Proof.
  apply (@response_without_length_ends_at_eof None (ok_response []) (idle_world HTTP_SERVER)).
  - reflexivity.
  - reflexivity.
  - discriminate.
  - vm_compute. exact I.
  - reflexivity.
Defined.

(** X14: a response with a Content-Length that is not a number.  The
    value is dropped: [check_headers] leaves a body of unknown length
    (the counter at -1) with the identity encoding, and the message is NOT
    marked as complete at EOF; no callback is invoked. *)
Theorem response_with_mangled_length
        (req : option http_request) (r : http_response) (w : world) (val : bytes) :
  type (w_conn w) = HTTP_SERVER ->
  bodyless_code (resp_code r) = false ->
  resp_vers r <> HTTP_UNKNOWN ->
  not_chunked (w_conn w) ->
  headers_find (the_headers (w_conn w)) (txt "content-length") = Some val ->
  get_int val 10 < 0 ->
  exists w',
    check_headers req (Some r) w = Done tt w'
    /\ w_trace w' = w_trace w
    /\ has_body (w_conn w') = true
    /\ te (w_conn w') = TE_IDENTITY
    /\ data_remaining (w_conn w') = -1
    /\ msg_complete_on_eof (w_conn w') = false.
Proof.
  unfold not_chunked, the_headers. intros Ht Hb Hv Hn Hf Hc. framing_goal. rewrite Ht.
  assert (Hlt : (get_int val 10 <? 0) = true) by (apply Z.ltb_lt; exact Hc).
  destruct req; rewrite Hb; run_m; fields; run_m;
    unfold the_headers; fields;
    no_chunked_header Hn; run_m; fields; cbn [te_eqb negb]; run_m; fields; rewrite Hf;
    run_m; rewrite Hlt; cbn [negb]; run_m; fields; cbn [Z.eqb]; run_m; fields;
    rewrite Ht; cbn [type_eqb andb]; run_m;
    (destruct (resp_vers r); [congruence| |]); cbn [version_eqb negb andb]; run_m;
    eexists; (split; [reflexivity|]); cbn; auto 10.
Qed.

Lemma response_with_mangled_length_witness :
  exists w',
    check_headers None (Some (ok_response mangled_length_headers))
                  (with_headers mangled_length_headers (idle_world HTTP_SERVER)) = Done tt w'
    /\ w_trace w' = w_trace (with_headers mangled_length_headers (idle_world HTTP_SERVER))
    /\ has_body (w_conn w') = true
    /\ te (w_conn w') = TE_IDENTITY
    /\ data_remaining (w_conn w') = -1
    /\ msg_complete_on_eof (w_conn w') = false.
Proof.
  apply (@response_with_mangled_length None (ok_response mangled_length_headers)
           (with_headers mangled_length_headers (idle_world HTTP_SERVER)) (txt "ten")).
  - reflexivity.
  - reflexivity.
  - discriminate.
  - vm_compute. exact I.
  - vm_compute. reflexivity.
  - vm_compute. reflexivity.
Defined.

(** ** Flushing *)

(** X15: [on_flush] is reported when the output runs empty.  On a
    connection that is not choked (low-water mark 0) with writing enabled,
    when the socket takes [n] bytes of a non-empty output buffer, the bytes
    are dropped from its front and [on_flush] is called exactly when nothing
    is left; no other callback is invoked. *)
Theorem flush_reported_when_output_runs_empty (n : Z) (w : world) :
  ev_write (bev (w_conn w)) = true ->
  is_choaked (w_conn w) = false ->
  wm_write_low (bev (w_conn w)) = 0 ->
  0 < n ->
  outbuf (w_conn w) <> [] ->
  bev_writable n w
  = Done tt {| w_conn := set_outbuf (skipn (Z.to_nat n) (outbuf (w_conn w))) (w_conn w);
               w_trace := w_trace w
                          ++ (if blen (outbuf (w_conn w)) <=? n then [on_flush_ev] else []) |}.
Proof.
  intros He Hc Hl Hn Ho. rewrite writable_spec, He.
  replace (n >? 0) with true by (symmetry; apply Z.gtb_lt; lia).
  rewrite blen_gt_0 by exact Ho. cbn [andb]. cbv zeta. rewrite Hl.
  assert (E : (blen (skipn (Z.to_nat n) (outbuf (w_conn w))) <=? 0)
              = (blen (outbuf (w_conn w)) <=? n)).
  { unfold blen. rewrite length_skipn.
    destruct (Z.of_nat (List.length (outbuf (w_conn w))) <=? n) eqn:E.
    - apply Z.leb_le in E. apply Z.leb_le. lia.
    - apply Z.leb_gt in E. apply Z.leb_gt. lia. }
  rewrite E.
  destruct (blen (outbuf (w_conn w)) <=? n) eqn:El.
  - rewrite writecb_spec. cbn [w_conn w_trace is_choaked set_outbuf set_bev].
    rewrite Hc.
    change (outbuf (set_outbuf (skipn (Z.to_nat n) (outbuf (w_conn w))) (w_conn w)))
      with (skipn (Z.to_nat n) (outbuf (w_conn w))).
    replace (blen (skipn (Z.to_nat n) (outbuf (w_conn w))) =? 0) with true; [reflexivity|].
    symmetry. apply Z.eqb_eq. apply Z.leb_le in E. pose proof (blen_nonneg (skipn (Z.to_nat n) (outbuf (w_conn w)))). lia.
  - rewrite app_nil_r. reflexivity.
Qed.

Lemma flush_reported_when_output_runs_empty_witness :
  bev_writable 5 (world_of (http_conn_write_buf (txt "hello") (idle_world HTTP_CLIENT)))
  = Done tt {| w_conn := set_outbuf []
                           (w_conn (world_of (http_conn_write_buf (txt "hello")
                                                                  (idle_world HTTP_CLIENT))));
               w_trace := [on_flush_ev] |}.
Proof.
  apply (@flush_reported_when_output_runs_empty 5
           (world_of (http_conn_write_buf (txt "hello") (idle_world HTTP_CLIENT))));
    vm_compute; (reflexivity || discriminate).
Defined.

(** ** Pausing *)

(** X16: pausing and resuming.  After [http_conn_stop_reading] the
    transport hands no bytes to the connection: a readable socket changes
    nothing and calls nothing.  With nothing buffered,
    [http_conn_stop_reading] followed by [http_conn_start_reading] leaves
    the connection exactly as it was. *)
Theorem reading_paused_and_resumed (fuel : nat) (w : world) :
  ev_read (bev (w_conn w)) = true ->
  read_paused (w_conn w) = false ->
  inbuf (w_conn w) = [] ->
  (forall (f : nat) (data : bytes),
      bev_readable f data (world_of (http_conn_stop_reading w))
      = Done tt (world_of (http_conn_stop_reading w)))
  /\ (http_conn_stop_reading ;; http_conn_start_reading fuel) w = Done tt w.
Proof.
  intros He Hp Hi. split.
  - intros f data. apply bev_readable_disabled. cbn. rewrite ?andb_false_r. reflexivity.
  - unfold http_conn_stop_reading, http_conn_start_reading. run_m.
    destruct w as [c t]. destruct c as [? ? ? ? ? ? ? ? ? ? ? ? [? ? ? ew ? ?] ?].
    cbn in *. subst. cbn. destruct ew; reflexivity.
Qed.

Lemma reading_paused_and_resumed_witness :
  (forall (f : nat) (data : bytes),
      bev_readable f data (world_of (http_conn_stop_reading chunked_world))
      = Done tt (world_of (http_conn_stop_reading chunked_world)))
  /\ (http_conn_stop_reading ;; http_conn_start_reading 1) chunked_world
     = Done tt chunked_world.
Proof.
  apply (@reading_paused_and_resumed 1 chunked_world); reflexivity.
Defined.

(** ** What [read_headers] hands to the owner *)

Lemma version_from_string_known (s : bytes) (v : http_version) :
  version_from_string s = Some v -> v <> HTTP_UNKNOWN.
Proof.
  unfold version_from_string. intros H.
  repeat match type of H with
         | (if ?b then _ else _) = _ => destruct b
         end; inversion H; discriminate.
Qed.

Lemma build_response_valid (w w' : world) (r : http_response) :
  build_response w = Done (Some r) w' ->
  type (w_conn w) = HTTP_SERVER
  /\ 100 <= resp_code r <= 999
  /\ resp_vers r <> HTTP_UNKNOWN
  /\ headers (w_conn w) = Some (resp_headers r).
Proof.
  unfold build_response. unfold bind at 1. unfold get at 1. unfold bind at 1. intros H.
  destruct (type_eqb (type (w_conn w)) HTTP_SERVER) eqn:Et; [|discriminate H].
  cbn [assert] in H. unfold ret at 1 in H.
  destruct (firstline (w_conn w)) as [line|]; [|discriminate H].
  destruct (headers (w_conn w)) as [hs|]; [|discriminate H].
  generalize dependent (tokenize line (txt " ") 2). intros l H.
  destruct l as [|v [|c [|r' [|x l]]]]; try (unfold ret in H; discriminate H).
  cbv zeta in H.
  destruct (version_from_string v) as [v'|] eqn:Ev; [|unfold ret in H; discriminate H].
  apply version_from_string_known in Ev.
  generalize dependent (atoi c). intros z H.
  destruct ((z <? 100) || (z >? 999))%bool eqn:Ez; unfold ret in H; [discriminate H|].
  injection H as <- _. cbn.
  apply orb_false_iff in Ez. destruct Ez as [E1 E2].
  apply Z.ltb_ge in E1. rewrite Z.gtb_ltb in E2. apply Z.ltb_ge in E2.
  repeat split; try lia; auto.
  destruct (type (w_conn w)); [discriminate Et | reflexivity].
Qed.

Lemma build_request_valid (w w' : world) (r : http_request) :
  build_request w = Done (Some r) w' ->
  type (w_conn w) = HTTP_CLIENT
  /\ req_vers r <> HTTP_UNKNOWN
  /\ headers (w_conn w) = Some (req_headers r).
Proof.
  unfold build_request. unfold bind at 1. unfold get at 1. unfold bind at 1. intros H.
  destruct (type_eqb (type (w_conn w)) HTTP_CLIENT) eqn:Et; [|discriminate H].
  cbn [assert] in H. unfold ret at 1 in H.
  destruct (firstline (w_conn w)) as [line|]; [|discriminate H].
  destruct (headers (w_conn w)) as [hs|]; [|discriminate H].
  generalize dependent (tokenize line (txt " ") 4). intros l H.
  destruct l as [|m [|u [|v [|x l]]]]; try (unfold ret in H; discriminate H).
  destruct (version_from_string v) as [v'|] eqn:Ev.
  - apply version_from_string_known in Ev.
    generalize dependent (url_tokenize u).
    generalize dependent (method_from_string m).
    intros [m'|] [u'|] H; unfold ret in H; try discriminate H.
    injection H as <- _. cbn. repeat split; auto.
    destruct (type (w_conn w)); [reflexivity | discriminate Et].
  - generalize dependent (url_tokenize u).
    generalize dependent (method_from_string m).
    intros [m'|] [u'|] H; unfold ret in H; discriminate H.
Qed.

Lemma end_message_trace (err : http_conn_error) (w w' : world) (a : unit) :
  end_message err w = Done a w' ->
  w_trace w' = w_trace w ++ [if error_eqb err ERROR_NONE then on_msg_complete_ev
                             else on_error_ev err].
Proof.
  intros H.
  assert (D : err = ERROR_NONE \/ err <> ERROR_NONE) by (destruct err; auto; right; discriminate).
  destruct D as [-> | D].
  - cbn [error_eqb].
    destruct (persistent (w_conn w)) eqn:P.
    + unfold end_message, on_msg_complete, begin_message in H. run_in H.
      cbn [error_eqb negb orb] in H.
      repeat (break_match; run_in H; try discriminate); done_inv; reflexivity.
    + rewrite end_message_last in H by exact P. done_inv. reflexivity.
  - rewrite end_message_error in H by exact D. done_inv. cbn [w_trace].
    destruct err; try reflexivity. congruence.
Qed.

Lemma check_framing_headers_trace (w w' : world) (r : bool) :
  check_framing_headers w = Done r w' ->
  w_trace w' = w_trace w
  \/ w_trace w' = w_trace w ++ [on_error_ev ERROR_CLIENT_POST_WITHOUT_LENGTH].
Proof.
  intros H. unfold check_framing_headers, on_error in H. run_in H. simpl_hyps.
  generalize dependent (headers_find (the_headers (w_conn w)) (txt "transfer-encoding")).
  intros o H.
  repeat (break_match; simpl_hyps; try discriminate); done_inv; simpl_hyps; auto.
Qed.

Lemma check_headers_trace (req : option http_request) (resp : option http_response)
      (w w' : world) (a : unit) :
  check_headers req resp w = Done a w' ->
  w_trace w' = w_trace w
  \/ w_trace w' = w_trace w ++ [on_error_ev ERROR_CLIENT_POST_WITHOUT_LENGTH].
Proof.
  intros H. unfold check_headers in H. run_in H. simpl_hyps.
  repeat (break_match; simpl_hyps; try discriminate); done_inv;
    try match goal with
        | E : check_framing_headers _ = Done _ _ |- _ =>
            apply check_framing_headers_trace in E
        end;
    simpl_hyps; auto.
Qed.

(** X17: what [read_headers] hands to the owner has been validated.
    Whenever [read_headers] returns, the callbacks it made come after those
    made before; a response handed to [on_server_response] comes from a
    connection to a server, has a status code from 100 to 999 and a known
    version, and a request handed to [on_client_request] comes from a
    connection to a client and has a known version. *)
Theorem delivered_message_is_valid (w w' : world) :
  read_headers w = Done tt w' ->
  exists evs,
    w_trace w' = w_trace w ++ evs
    /\ (forall r, In (on_server_response_ev r) evs ->
                  type (w_conn w) = HTTP_SERVER
                  /\ 100 <= resp_code r <= 999
                  /\ resp_vers r <> HTTP_UNKNOWN)
    /\ (forall q, In (on_client_request_ev q) evs ->
                  type (w_conn w) = HTTP_CLIENT
                  /\ req_vers q <> HTTP_UNKNOWN).
Proof.
  unfold read_headers. intros H.
  assert (Hnone : forall (t : list event) (e : event),
             (forall r, e <> on_server_response_ev r) ->
             (forall q, e <> on_client_request_ev q) ->
             t = w_trace w ++ [e] ->
             exists evs,
               t = w_trace w ++ evs
               /\ (forall r, In (on_server_response_ev r) evs ->
                             type (w_conn w) = HTTP_SERVER
                             /\ 100 <= resp_code r <= 999
                             /\ resp_vers r <> HTTP_UNKNOWN)
               /\ (forall q, In (on_client_request_ev q) evs ->
                             type (w_conn w) = HTTP_CLIENT
                             /\ req_vers q <> HTTP_UNKNOWN)).
  { intros t e H1 H2 ->. exists [e]. split; [reflexivity|].
    split; intros x [Hx|[]]; exfalso; [exact (H1 x Hx) | exact (H2 x Hx)]. }
  apply bind_done in H. destruct H as (c & w0 & Hg & H).
  apply get_done in Hg. destruct Hg as [-> ->].
  apply bind_done in H. destruct H as (? & w0 & Ha & H).
  apply assert_done in Ha. destruct Ha as [_ ->].
  destruct (headers (w_conn w)) as [hs|] eqn:Hh; [|discriminate H].
  generalize dependent (headers_load hs (inbuf (w_conn w))). intros [[rc hs'] rest] H.
  apply bind_done in H. destruct H as (? & w0 & Hm & H).
  apply modify_done in Hm. subst w0.
  apply bind_done in H. destruct H as (? & w0 & Hm & H).
  apply modify_done in Hm. subst w0. cbn [w_conn w_trace] in H.
  set (c1 := set_inbuf rest (set_headers (Some hs') (w_conn w))) in *.
  assert (Ht1 : type c1 = type (w_conn w)) by reflexivity.
  clearbody c1.
  destruct rc.
  - apply end_message_trace in H. cbn [error_eqb w_trace] in H.
    eapply Hnone; [| |exact H]; discriminate.
  - apply ret_done in H. destruct H as [_ ->]. exists []. cbn [w_trace].
    rewrite app_nil_r. split; [reflexivity|]. split; intros ? [].
  - apply bind_done in H. destruct H as (c & w0 & Hg & H).
    apply get_done in Hg. destruct Hg as [-> ->]. cbn [w_conn] in H.
    apply bind_done in H. destruct H as (? & w0 & Ha & H).
    apply assert_done in Ha. destruct Ha as [_ ->].
    apply bind_done in H. destruct H as (req & w0 & Hreq & H).
    assert (Hq : w0 = {| w_conn := c1; w_trace := w_trace w |}
                 /\ forall q, req = Some q ->
                              type (w_conn w) = HTTP_CLIENT /\ req_vers q <> HTTP_UNKNOWN).
    { destruct (type_eqb (type c1) HTTP_CLIENT).
      - split; [apply build_request_same in Hreq; exact Hreq|].
        intros q ->. apply build_request_valid in Hreq. cbn [w_conn] in Hreq.
        rewrite Ht1 in Hreq. tauto.
      - apply ret_done in Hreq. destruct Hreq as [-> ->]. split; [reflexivity|]. discriminate. }
    destruct Hq as [-> Hq]. clear Hreq.
    apply bind_done in H. destruct H as (resp & w0 & Hresp & H).
    assert (Hr : w0 = {| w_conn := c1; w_trace := w_trace w |}
                 /\ forall r, resp = Some r ->
                              type (w_conn w) = HTTP_SERVER
                              /\ 100 <= resp_code r <= 999
                              /\ resp_vers r <> HTTP_UNKNOWN).
    { destruct (type_eqb (type c1) HTTP_CLIENT).
      - apply ret_done in Hresp. destruct Hresp as [-> ->]. split; [reflexivity|]. discriminate.
      - split; [apply build_response_same in Hresp; exact Hresp|].
        intros r ->. apply build_response_valid in Hresp. cbn [w_conn] in Hresp.
        rewrite Ht1 in Hresp. tauto. }
    destruct Hr as [-> Hr]. clear Hresp.
    apply bind_done in H. destruct H as (? & w0 & Hm & H).
    apply modify_done in Hm. subst w0. cbn [w_conn w_trace] in H.
    destruct (is_null req && is_null resp)%bool.
    + apply end_message_trace in H. cbn [error_eqb w_trace] in H.
      eapply Hnone; [| |exact H]; discriminate.
    + apply bind_done in H. destruct H as (? & w1 & Hch & H).
      apply check_headers_trace in Hch. cbn [w_trace] in Hch.
      apply bind_done in H. destruct H as (? & w2 & Hm & H).
      apply modify_done in Hm. subst w2. cbn [w_conn w_trace] in H.
      apply bind_done in H. destruct H as (? & w2 & Hrq & H).
      apply bind_done in H. destruct H as (? & w3 & Hrp & H).
      assert (Hend : exists tl,
                 w_trace w' = w_trace w3 ++ tl
                 /\ (tl = [] \/ tl = [on_msg_complete_ev])).
      { apply bind_done in H. destruct H as (c & w4 & Hg & H).
        apply get_done in Hg. destruct Hg as [-> ->].
        destruct (negb (has_body (w_conn w3))).
        - apply end_message_trace in H. cbn [error_eqb] in H. eauto.
        - apply modify_done in H. subst w'. exists []. cbn [w_trace].
          rewrite app_nil_r. auto. }
      destruct Hend as (tl & Htl & Hcase).
      assert (Hmsg : exists mid,
                 w_trace w3 = w_trace w1 ++ mid
                 /\ (forall r, In (on_server_response_ev r) mid -> resp = Some r)
                 /\ (forall q, In (on_client_request_ev q) mid -> req = Some q)).
      { destruct req as [q|], resp as [r|];
          unfold on_client_request, on_server_response in *;
          repeat match goal with
                 | G : emit _ _ = Done _ _ |- _ => apply emit_done in G; subst
                 | G : ret _ _ = Done _ _ |- _ => apply ret_done in G; destruct G as [_ ->]
                 end; cbn [w_trace].
        - exists [on_client_request_ev q; on_server_response_ev r].
          rewrite <- app_assoc. split; [reflexivity|].
          split; intros y [Hx|[Hx|[]]]; congruence.
        - exists [on_client_request_ev q]. split; [reflexivity|].
          split; intros y [Hx|[]]; congruence.
        - exists [on_server_response_ev r]. split; [reflexivity|].
          split; intros y [Hx|[]]; congruence.
        - exists []. rewrite app_nil_r. split; [reflexivity|]. split; intros y []. }
      destruct Hmsg as (mid & Hmid & Hmr & Hmq).
      assert (Hpre : exists pre,
                 w_trace w1 = w_trace w ++ pre
                 /\ (pre = [] \/ pre = [on_error_ev ERROR_CLIENT_POST_WITHOUT_LENGTH])).
      { destruct Hch as [-> | ->]; [exists []; rewrite app_nil_r | eexists]; eauto. }
      destruct Hpre as (pre & Hpre & Hpc).
      exists (pre ++ mid ++ tl). rewrite Htl, Hmid, Hpre, <- !app_assoc.
      split; [reflexivity|].
      split; intros y Hx; apply in_app_or in Hx; destruct Hx as [Hx|Hx];
        try (destruct Hpc as [-> | ->]; [destruct Hx | destruct Hx as [Hx|[]]; discriminate Hx]);
        apply in_app_or in Hx; destruct Hx as [Hx|Hx];
        try (destruct Hcase as [-> | ->]; [destruct Hx | destruct Hx as [Hx|[]]; discriminate Hx]).
      * apply Hr, Hmr, Hx.
      * apply Hq, Hmq, Hx.
Qed.

Lemma delivered_message_is_valid_witness :
  exists evs,
    w_trace (world_of (read_headers headers_pending_world))
    = w_trace headers_pending_world ++ evs
    /\ (forall r, In (on_server_response_ev r) evs ->
                  type (w_conn headers_pending_world) = HTTP_SERVER
                  /\ 100 <= resp_code r <= 999
                  /\ resp_vers r <> HTTP_UNKNOWN)
    /\ (forall q, In (on_client_request_ev q) evs ->
                  type (w_conn headers_pending_world) = HTTP_CLIENT
                  /\ req_vers q <> HTTP_UNKNOWN).
Proof.
  apply (@delivered_message_is_valid headers_pending_world
           (world_of (read_headers headers_pending_world))).
  vm_compute. reflexivity.
Defined.

Lemma check_framing_headers_returns (w : world) :
  exists r w', check_framing_headers w = Done r w'.
Proof.
  destruct (check_framing_headers w) as [r w'| w' | w'] eqn:H; [eauto | exfalso | exfalso];
    unfold check_framing_headers, on_error in H; run_in H; simpl_hyps;
    generalize dependent (headers_find (the_headers (w_conn w)) (txt "transfer-encoding"));
    intros o H;
    repeat (break_match; simpl_hyps; try discriminate).
Qed.

Lemma check_framing_headers_frame (w w' : world) (r : bool) :
  check_framing_headers w = Done r w' ->
  read_paused (w_conn w') = read_paused (w_conn w)
  /\ firstline (w_conn w') = firstline (w_conn w)
  /\ type (w_conn w') = type (w_conn w)
  /\ vers (w_conn w') = vers (w_conn w)
  /\ headers (w_conn w') = headers (w_conn w).
Proof.
  intros H. unfold check_framing_headers, on_error in H. run_in H. simpl_hyps.
  generalize dependent (headers_find (the_headers (w_conn w)) (txt "transfer-encoding")).
  intros o H.
  repeat (break_match; simpl_hyps; try discriminate); done_inv; simpl_hyps; auto.
Qed.

Lemma check_headers_frame (req : option http_request) (resp : option http_response)
      (w w' : world) (a : unit) :
  check_headers req resp w = Done a w' ->
  read_paused (w_conn w') = read_paused (w_conn w)
  /\ firstline (w_conn w') = firstline (w_conn w)
  /\ headers (w_conn w') = headers (w_conn w).
Proof.
  intros H. unfold check_headers in H. run_in H. simpl_hyps.
  repeat (break_match; simpl_hyps; try discriminate); done_inv;
    try match goal with
        | E : check_framing_headers _ = Done _ _ |- _ =>
            apply check_framing_headers_frame in E
        end;
    simpl_hyps; intuition congruence.
Qed.

Lemma check_headers_returns (req : option http_request) (resp : option http_response)
      (w : world) :
  message_fits (w_conn w) req resp ->
  exists w', check_headers req resp w = Done tt w'.
Proof.
  unfold message_fits. intros Hm.
  destruct (check_headers req resp w) as [[] w'| w' | w'] eqn:H; [eauto | exfalso | exfalso];
    unfold check_headers in H; run_in H; simpl_hyps;
    repeat (break_match; simpl_hyps; try discriminate; try contradiction);
    repeat match goal with
           | E : check_framing_headers ?x = _ |- _ =>
               destruct (check_framing_headers_returns x) as (? & ? & E');
               rewrite E' in E; clear E'
           | G : negb (version_eqb ?v HTTP_UNKNOWN) = false |- _ =>
               destruct v; cbn in G; try discriminate G; congruence
           end;
    try discriminate; done_inv.
Qed.

(** ** The read side and the write side *)

Lemma begin_message_write_side (w w' : world) (a : unit) :
  begin_message w = Done a w' -> write_side (w_conn w') = write_side (w_conn w).
Proof.
  unfold begin_message. run_m. intros H.
  repeat (break_match; run_m; try discriminate). done_inv. reflexivity.
Qed.

Lemma end_message_write_side (err : http_conn_error) (w w' : world) (a : unit) :
  end_message err w = Done a w' -> write_side (w_conn w') = write_side (w_conn w).
Proof.
  unfold end_message, on_error, on_msg_complete. run_m. intros H.
  destruct (negb (error_eqb err ERROR_NONE) || _)%bool in H.
  - destruct (negb (error_eqb err ERROR_NONE)); done_inv;
      destruct (headers (w_conn w)); reflexivity.
  - destruct (begin_message _) eqn:E in H; try discriminate.
    apply begin_message_write_side in E.
    destruct (negb (error_eqb err ERROR_NONE)); done_inv;
      cbn [w_conn] in *; rewrite E; destruct (headers (w_conn w)); reflexivity.
Qed.

Lemma parse_chunk_len_write_side (w w' : world) (rc : Z) :
  parse_chunk_len w = Done rc w' -> write_side (w_conn w') = write_side (w_conn w).
Proof.
  unfold parse_chunk_len. run_m. intros H.
  destruct (parse_chunk_len_loop _ _) as [[rc' len] rest] in H.
  destruct len as [len|]; run_m; done_inv; reflexivity.
Qed.

Lemma read_chunk_write_side (w w' : world) (a : unit) :
  read_chunk w = Done a w' -> write_side (w_conn w') = write_side (w_conn w).
Proof.
  unfold read_chunk. unfold bind at 1. unfold get at 1. intros H.
  destruct (data_remaining (w_conn w) <? 0).
  - unfold bind at 1 in H. destruct (parse_chunk_len w) as [rc w1| |] eqn:E; try discriminate H.
    apply parse_chunk_len_write_side in E.
    unfold when in H. destruct (rc <? 0).
    + apply end_message_write_side in H. congruence.
    + unfold ret in H. done_inv. exact E.
  - destruct (data_remaining (w_conn w) =? 0).
    + destruct (evbuffer_readln (inbuf (w_conn w))) as [[l rest]|].
      * unfold bind at 1 in H. unfold modify at 1 in H.
        apply end_message_write_side in H. rewrite H. reflexivity.
      * unfold ret in H. done_inv. reflexivity.
    + unfold on_read_body, evbuffer_remove_buffer in H. run_in H.
      match type of H with
      | (if ?b then _ else _) _ = _ => destruct b
      end; done_inv; reflexivity.
Qed.

Lemma read_body_write_side (w w' : world) (a : unit) :
  read_body w = Done a w' -> write_side (w_conn w') = write_side (w_conn w).
Proof.
  unfold read_body. unfold bind at 1. unfold get at 1. unfold bind at 1. intros H.
  destruct (has_body (w_conn w)); [|discriminate H]. cbn [assert] in H. unfold ret at 1 in H.
  destruct (te_eqb (te (w_conn w)) TE_CHUNKED).
  - apply read_chunk_write_side in H. exact H.
  - destruct (negb (blen (inbuf (w_conn w)) =? 0)); [|unfold ret in H; done_inv; reflexivity].
    unfold on_read_body, evbuffer_remove_buffer, evbuffer_add_buffer in H.
    destruct ((data_remaining (w_conn w) >=? 0)
              && (blen (inbuf (w_conn w)) >? to_size_t (data_remaining (w_conn w))))%bool;
      run_in H;
      match type of H with
      | (if ?b then _ else _) _ = _ => destruct b
      end;
      try (apply end_message_write_side in H; rewrite H);
      try done_inv; reflexivity.
Qed.

Lemma check_framing_headers_write_side (w w' : world) (r : bool) :
  check_framing_headers w = Done r w' -> write_side (w_conn w') = write_side (w_conn w).
Proof.
  intros H. unfold check_framing_headers, on_error in H. run_in H. simpl_hyps.
  generalize dependent (headers_find (the_headers (w_conn w)) (txt "transfer-encoding")).
  intros o H.
  repeat (break_match; simpl_hyps; try discriminate); done_inv; reflexivity.
Qed.

Lemma check_headers_write_side (req : option http_request) (resp : option http_response)
      (w w' : world) (a : unit) :
  check_headers req resp w = Done a w' -> write_side (w_conn w') = write_side (w_conn w).
Proof.
  intros H. unfold check_headers in H. run_in H. simpl_hyps.
  repeat (break_match; simpl_hyps; try discriminate); done_inv;
    try match goal with
        | E : check_framing_headers _ = Done _ _ |- _ =>
            apply check_framing_headers_write_side in E;
            etransitivity; [|exact E]
        end;
    reflexivity.
Qed.

Lemma read_headers_write_side (w w' : world) (a : unit) :
  read_headers w = Done a w' -> write_side (w_conn w') = write_side (w_conn w).
Proof.
  unfold read_headers. intros H.
  apply bind_done in H. destruct H as (c & w0 & Hg & H).
  apply get_done in Hg. destruct Hg as [-> ->].
  apply bind_done in H. destruct H as (? & w0 & Ha & H).
  apply assert_done in Ha. destruct Ha as [_ ->].
  destruct (headers (w_conn w)) as [hs|]; [|discriminate H].
  generalize dependent (headers_load hs (inbuf (w_conn w))). intros [[rc hs'] rest] H.
  apply bind_done in H. destruct H as (? & w0 & Hm & H).
  apply modify_done in Hm. subst w0.
  apply bind_done in H. destruct H as (? & w0 & Hm & H).
  apply modify_done in Hm. subst w0. cbn [w_conn w_trace] in H.
  set (c1 := set_inbuf rest (set_headers (Some hs') (w_conn w))) in *.
  assert (Hc1 : write_side c1 = write_side (w_conn w)) by reflexivity.
  clearbody c1. rewrite <- Hc1. clear Hc1.
  destruct rc.
  - apply end_message_write_side in H. exact H.
  - apply ret_done in H. destruct H as [_ ->]. reflexivity.
  - apply bind_done in H. destruct H as (c & w0 & Hg & H).
    apply get_done in Hg. destruct Hg as [-> ->]. cbn [w_conn] in H.
    apply bind_done in H. destruct H as (? & w0 & Ha & H).
    apply assert_done in Ha. destruct Ha as [_ ->].
    apply bind_done in H. destruct H as (req & w0 & Hreq & H).
    assert (w0 = {| w_conn := c1; w_trace := w_trace w |}).
    { destruct (type_eqb (type c1) HTTP_CLIENT).
      - apply build_request_same in Hreq. exact Hreq.
      - apply ret_done in Hreq. destruct Hreq as [_ ->]. reflexivity. }
    subst w0. clear Hreq.
    apply bind_done in H. destruct H as (resp & w0 & Hresp & H).
    assert (w0 = {| w_conn := c1; w_trace := w_trace w |}).
    { destruct (type_eqb (type c1) HTTP_CLIENT).
      - apply ret_done in Hresp. destruct Hresp as [_ ->]. reflexivity.
      - apply build_response_same in Hresp. exact Hresp. }
    subst w0. clear Hresp.
    apply bind_done in H. destruct H as (? & w0 & Hm & H).
    apply modify_done in Hm. subst w0. cbn [w_conn w_trace] in H.
    destruct (is_null req && is_null resp)%bool.
    + apply end_message_write_side in H. exact H.
    + apply bind_done in H. destruct H as (? & w1 & Hch & H).
      apply check_headers_write_side in Hch. cbn [w_conn] in Hch.
      apply bind_done in H. destruct H as (? & w2 & Hm & H).
      apply modify_done in Hm. subst w2.
      apply bind_done in H. destruct H as (? & w2 & Hq & H).
      assert (Hq' : w_conn w2 = set_headers None (w_conn w1)).
      { destruct req.
        - unfold on_client_request in Hq. apply emit_done in Hq. subst w2. reflexivity.
        - apply ret_done in Hq. destruct Hq as [_ ->]. reflexivity. }
      clear Hq.
      apply bind_done in H. destruct H as (? & w3 & Hp & H).
      assert (Hp' : w_conn w3 = set_headers None (w_conn w1)).
      { destruct resp.
        - unfold on_server_response in Hp. apply emit_done in Hp. subst w3. exact Hq'.
        - apply ret_done in Hp. destruct Hp as [_ ->]. exact Hq'. }
      clear Hp.
      assert (H3 : write_side (w_conn w3) = write_side c1).
      { rewrite Hp'. etransitivity; [|exact Hch]. reflexivity. }
      apply bind_done in H. destruct H as (c & w4 & Hg & H).
      apply get_done in Hg. destruct Hg as [-> ->].
      destruct (negb (has_body (w_conn w3))).
      * apply end_message_write_side in H. congruence.
      * apply modify_done in H. subst w'. exact H3.
Qed.

Lemma read_firstline_write_side (w w' : world) (a : unit) :
  read_firstline w = Done a w' -> write_side (w_conn w') = write_side (w_conn w).
Proof.
  unfold read_firstline. run_m. intros H.
  repeat (break_match; run_in H; try discriminate); done_inv; reflexivity.
Qed.

Lemma process_one_message_write_side (w w' : world) (a : unit) :
  process_one_message w = Done a w' -> write_side (w_conn w') = write_side (w_conn w).
Proof.
  unfold process_one_message. unfold bind at 1. unfold get at 1. intros H.
  destruct (state (w_conn w)); try discriminate H.
  - unfold bind at 1 in H. unfold modify at 1 in H.
    apply read_firstline_write_side in H. exact H.
  - eapply read_firstline_write_side; eauto.
  - eapply read_headers_write_side; eauto.
  - eapply read_body_write_side; eauto.
Qed.

Lemma process_inbuf_write_side (fuel : nat) : forall (w w' : world) (a : unit),
  process_inbuf fuel w = Done a w' -> write_side (w_conn w') = write_side (w_conn w).
Proof.
  induction fuel as [|fuel IH]; intros w w' a H; [discriminate H|].
  cbn [process_inbuf] in H. unfold bind at 1 in H.
  destruct (process_one_message w) as [? w1| |] eqn:E; try discriminate H.
  apply process_one_message_write_side in E.
  unfold bind at 1 in H. unfold get at 1 in H.
  destruct (negb (read_paused (w_conn w1)) && (blen (inbuf (w_conn w1)) >? 0))%bool.
  - apply IH in H. congruence.
  - unfold ret in H. done_inv. exact E.
Qed.

Lemma http_errorcb_write_side (what : Z) (w w' : world) (a : unit) :
  http_errorcb what w = Done a w' -> write_side (w_conn w') = write_side (w_conn w).
Proof.
  unfold http_errorcb, on_connect, on_error. unfold bind at 1. unfold get at 1.
  intros H.
  destruct (state_eqb (state (w_conn w)) HTTP_STATE_CONNECTING).
  - destruct (has_flag what BEV_EVENT_CONNECTED).
    + unfold bind at 1 in H.
      destruct (begin_message w) as [? w1| |] eqn:E; try discriminate H.
      apply begin_message_write_side in E. run_in H. done_inv. exact E.
    + run_in H. done_inv. reflexivity.
  - unfold bind at 1 in H.
    destruct (negb (has_flag what BEV_EVENT_CONNECTED)); [|discriminate H].
    cbn [assert] in H. unfold ret at 1 in H.
    unfold bind at 1 in H. unfold modify at 1 in H. cbn [w_conn w_trace] in H.
    destruct (has_flag what BEV_EVENT_WRITING).
    + apply end_message_write_side in H. exact H.
    + destruct (state (w_conn w)); try discriminate H;
        try (apply end_message_write_side in H; exact H).
      destruct (has_flag what BEV_EVENT_EOF && msg_complete_on_eof (w_conn w))%bool;
        apply end_message_write_side in H; exact H.
Qed.

(** X19: the read side never touches the write side.  The read callback,
    the event callback, [http_conn_connect],
    [http_conn_set_current_message_bodyless], [http_conn_stop_reading],
    [http_conn_start_reading] and [http_conn_flush], when they return, leave
    the output buffer, the choke flag and the low-water mark for writing as
    they were. *)
Theorem reading_leaves_the_write_side (fuel : nat) (a : action) (w w' : world) :
  act fuel a w = Done tt w' ->
  match a with
  | Readable _ | Event _ | Connect | SetBodyless | StopReading | StartReading | Flush => True
  | Writable _ | SendRequest _ | SendResponse _ | SendBuf _ => False
  end ->
  write_side (w_conn w') = write_side (w_conn w).
Proof.
  intros H Ha. destruct a; try contradiction; cbn [act] in H.
  - unfold bev_readable in H. run_in H.
    destruct (ev_read (bev (w_conn w)) && negb (blen data =? 0))%bool.
    + unfold http_readcb in H. apply process_inbuf_write_side in H. exact H.
    + done_inv. reflexivity.
  - unfold bev_event in H. eapply http_errorcb_write_side; eauto.
  - unfold http_conn_connect in H. run_in H. done_inv. reflexivity.
  - unfold http_conn_set_current_message_bodyless in H. run_in H.
    repeat (break_match; run_in H; try discriminate); done_inv; reflexivity.
  - unfold http_conn_stop_reading in H. run_in H. done_inv. reflexivity.
  - unfold http_conn_start_reading in H. run_in H.
    destruct (blen _ >? 0) in H.
    + apply process_inbuf_write_side in H. exact H.
    + done_inv. reflexivity.
  - unfold http_conn_flush, on_flush in H. run_in H.
    destruct (blen _ =? 0) in H; run_in H; done_inv; reflexivity.
Qed.

Lemma reading_leaves_the_write_side_witness :
  write_side (w_conn (world_of (act 10 (Readable chunked_body) chunked_world)))
  = write_side (w_conn chunked_world).
Proof.
  apply (@reading_leaves_the_write_side 10 (Readable chunked_body) chunked_world
           (world_of (act 10 (Readable chunked_body) chunked_world))).
  - vm_compute. reflexivity.
  - exact I.
Defined.

Lemma choke_ok_same (c c' : http_conn) :
  write_side c' = write_side c -> choke_ok c -> choke_ok c'.
Proof.
  unfold write_side, choke_ok. intros H Hok. injection H as _ H1 H2. rewrite H1, H2. exact Hok.
Qed.

(** X20: the low-water mark follows the choke flag.  In every state a
    connection is in when a call into the engine has returned, the low-water
    mark for writing is half of [max_write_backlog] when the connection is
    choked and 0 when it is not. *)
Theorem watermark_follows_choke (w : world) :
  reachable w -> choke_ok (w_conn w).
Proof.
  induction 1 as [sock type w H | fuel a w w' Hr IH H].
  - unfold http_conn_new, when in H. destruct (sock >=? 0).
    + apply begin_message_write_side in H. eapply choke_ok_same; [exact H|]. reflexivity.
    + unfold ret in H. done_inv. reflexivity.
  - destruct a; cbn [act] in H.
    + unfold bev_readable in H. run_in H.
      destruct (ev_read (bev (w_conn w)) && negb (blen data =? 0))%bool.
      * unfold http_readcb in H. apply process_inbuf_write_side in H.
        eapply choke_ok_same; [exact H | exact IH].
      * done_inv. exact IH.
    + rewrite writable_spec in H. cbv zeta in H.
      destruct (ev_write (bev (w_conn w)) && (n >? 0) && (blen (outbuf (w_conn w)) >? 0))%bool;
        [|done_inv; exact IH].
      destruct (_ <=? _) in H; [|done_inv; exact IH].
      rewrite writecb_spec in H. cbn [w_conn w_trace] in H.
      change (is_choaked (set_outbuf (skipn (Z.to_nat n) (outbuf (w_conn w))) (w_conn w)))
        with (is_choaked (w_conn w)) in H.
      destruct (is_choaked (w_conn w)) eqn:C.
      * done_inv. reflexivity.
      * destruct (_ =? 0) in H; done_inv; unfold choke_ok in *; cbn; rewrite C in *; exact IH.
    + unfold bev_event in H. apply http_errorcb_write_side in H.
      eapply choke_ok_same; [exact H | exact IH].
    + unfold http_conn_connect in H. run_in H. done_inv. exact IH.
    + unfold http_conn_write_request in H. run_in H.
      repeat (break_match; run_in H; try discriminate); done_inv; exact IH.
    + unfold http_conn_write_response in H. run_in H.
      repeat (break_match; run_in H; try discriminate); done_inv; exact IH.
    + unfold bind in H. rewrite write_buf_spec in H. cbv zeta in H.
      destruct (_ >? _) in H; unfold ret in H; done_inv; [reflexivity | exact IH].
    + unfold http_conn_set_current_message_bodyless in H. run_in H.
      repeat (break_match; run_in H; try discriminate); done_inv; exact IH.
    + unfold http_conn_stop_reading in H. run_in H. done_inv. exact IH.
    + unfold http_conn_start_reading in H. run_in H.
      destruct (blen _ >? 0) in H.
      * apply process_inbuf_write_side in H. eapply choke_ok_same; [exact H | exact IH].
      * done_inv. exact IH.
    + unfold http_conn_flush, on_flush in H. run_in H.
      destruct (blen _ =? 0) in H; run_in H; done_inv; exact IH.
Qed.

Lemma watermark_follows_choke_witness : choke_ok (w_conn chunked_world).
Proof.
  apply (@watermark_follows_choke chunked_world). exact chunked_world_reachable.
Defined.

(** ** The data of a chunk in several reads *)

(** One read of data of the current chunk, not beyond its end. *)
Lemma chunk_piece (fuel : nat) (p : bytes) (w : world) (n : Z) :
  reading_chunked (w_conn w) n [] ->
  ev_read (bev (w_conn w)) = true ->
  p <> [] ->
  blen p <= n < 2 ^ 63 ->
  exists w',
    bev_readable (S fuel) p w = Done tt w'
    /\ w_trace w' = w_trace w ++ [on_read_body_ev p]
    /\ reading_chunked (w_conn w') (if blen p =? n then -1 else n - blen p) []
    /\ ev_read (bev (w_conn w')) = true
    /\ persistent (w_conn w') = persistent (w_conn w).
Proof.
  intros [Hs Hb Ht Hp Hi Hg Hr Hh Hf] He Hne Hn.
  pose proof (blen_pos Hne) as Hpos.
  unfold bev_readable, http_readcb. unfold bind at 1, get at 1. rewrite He.
  replace (blen p =? 0) with false by (symmetry; apply Z.eqb_neq; lia).
  cbn [andb negb]. unfold bind at 1, modify at 1. rewrite Hi. cbn [app w_conn w_trace].
  cbn [process_inbuf]. unfold bind at 1.
  unfold process_one_message. run_m. cbn [state set_inbuf set_bev]. rewrite Hs.
  unfold read_body. run_m. cbn [has_body te set_inbuf set_bev]. rewrite Hb, Ht.
  cbn [te_eqb]. run_m.
  unfold read_chunk, on_read_body, evbuffer_remove_buffer. run_m.
  change (inbuf (set_inbuf p (w_conn w))) with p.
  change (data_remaining (set_inbuf p (w_conn w))) with (data_remaining (w_conn w)).
  rewrite Hr.
  replace (n <? 0) with false by (symmetry; apply Z.ltb_ge; lia).
  replace (n =? 0) with false by (symmetry; apply Z.eqb_neq; lia).
  rewrite to_size_t_id by lia.
  cbn [w_conn w_trace inbuf_processed set_inbuf_processed set_inbuf set_bev data_remaining
       set_data_remaining inbuf bev input set_input].
  rewrite Hg, Hr. cbn [app].
  destruct (blen p =? n) eqn:E.
  - apply Z.eqb_eq in E. clear Hr. subst n.
    replace (blen p >=? blen p) with true
      by (symmetry; rewrite Z.geb_leb; apply Z.leb_le; lia).
    cbv iota.
    replace (Z.to_nat (blen p)) with (List.length p) by (unfold blen; lia).
    rewrite firstn_all, skipn_all.
    replace (blen p - blen p) with 0 by lia.
    change (to_int64 0 =? 0) with true. cbv iota. run_m.
    cbn [read_paused set_data_remaining set_inbuf_processed set_inbuf set_bev
         inbuf bev input set_input blen List.length Z.of_nat].
    rewrite Hp. cbn [negb andb Z.gtb Z.compare].
    eexists. split; [reflexivity|]. cbn [w_conn w_trace].
    split; [reflexivity|]. split; [constructor; cbn; auto|]. split; [exact He | reflexivity].
  - apply Z.eqb_neq in E.
    replace (blen p >=? n) with false
      by (symmetry; rewrite Z.geb_leb; apply Z.leb_gt; lia).
    cbv iota.
    replace (Z.to_nat (blen p)) with (List.length p) by (unfold blen; lia).
    rewrite firstn_all, skipn_all.
    rewrite to_int64_id by lia.
    replace (n - blen p =? 0) with false by (symmetry; apply Z.eqb_neq; lia).
    run_m.
    cbn [read_paused set_data_remaining set_inbuf_processed set_inbuf set_bev
         inbuf bev input set_input blen List.length Z.of_nat].
    rewrite Hp. cbn [negb andb Z.gtb Z.compare].
    eexists. split; [reflexivity|]. cbn [w_conn w_trace].
    split; [reflexivity|]. split; [constructor; cbn; auto|]. split; [exact He | reflexivity].
Qed.

(** X21: the data of a chunk arrives in any number of reads.  On a
    connection that expects [n] more bytes of the current chunk, the bytes
    arriving in non-empty pieces that add up to [n] are handed to
    [on_read_body] piece by piece, in order and unchanged, and nothing else
    is called; after the last piece the counter is back at -1, the next
    chunk-size line is awaited and nothing is left in the buffers. *)
Theorem chunk_data_in_any_pieces (fuel : nat) (parts : list bytes) : forall (w : world),
  reading_chunked (w_conn w) (blen (List.concat parts)) [] ->
  ev_read (bev (w_conn w)) = true ->
  parts <> [] ->
  all_nonempty parts ->
  blen (List.concat parts) < 2 ^ 63 ->
  exists w',
    deliver (S fuel) parts w = Done tt w'
    /\ w_trace w' = w_trace w ++ map on_read_body_ev parts
    /\ reading_chunked (w_conn w') (-1) []
    /\ persistent (w_conn w') = persistent (w_conn w).
Proof.
  induction parts as [|p r IH]; intros w Hrc He Hne Hall Hlen; [congruence|].
  destruct Hall as [Hp Hr]. cbn [List.concat] in *. rewrite blen_app in *.
  pose proof (blen_pos Hp) as Hpos. pose proof (blen_nonneg (List.concat r)) as Hnn.
  cbn [deliver map]. unfold bind at 1.
  destruct (@chunk_piece fuel p w (blen p + blen (List.concat r)) Hrc He Hp)
    as (w1 & E & T & R1 & He1 & P1); [lia|].
  rewrite E.
  destruct r as [|q r].
  - cbn [List.concat] in *. change (blen []) with 0 in *.
    replace (blen p =? blen p + 0) with true in R1 by (symmetry; apply Z.eqb_eq; lia).
    cbn [deliver]. unfold ret. exists w1. cbn [map]. auto.
  - assert (Hq : 0 < blen (List.concat (q :: r))).
    { cbn [List.concat]. rewrite blen_app. destruct Hr as [Hq _].
      pose proof (blen_pos Hq). pose proof (blen_nonneg (List.concat r)). lia. }
    replace (blen p =? blen p + blen (List.concat (q :: r))) with false in R1
      by (symmetry; apply Z.eqb_neq; lia).
    replace (blen p + blen (List.concat (q :: r)) - blen p)
      with (blen (List.concat (q :: r))) in R1 by lia.
    destruct (IH w1 R1 He1) as (w' & E' & T' & R' & P'); [discriminate | exact Hr | lia |].
    exists w'. split; [exact E'|]. rewrite T', T, <- app_assoc. cbn [app].
    split; [reflexivity|]. split; [exact R' | congruence].
Qed.

Lemma chunk_data_in_any_pieces_witness :
  exists w',
    deliver 1 [txt "he"; txt "llo"] chunk_announced_world = Done tt w'
    /\ w_trace w' = w_trace chunk_announced_world
                    ++ map on_read_body_ev [txt "he"; txt "llo"]
    /\ reading_chunked (w_conn w') (-1) []
    /\ persistent (w_conn w') = persistent (w_conn chunk_announced_world).
Proof.
  apply (@chunk_data_in_any_pieces 0 [txt "he"; txt "llo"] chunk_announced_world).
  - constructor; reflexivity.
  - reflexivity.
  - discriminate.
  - cbn. repeat split; discriminate.
  - reflexivity.
Defined.

(** ** A request without a body *)

Lemma end_message_none_outcome (w : world) :
  read_paused (w_conn w) = false ->
  headers (w_conn w) = None ->
  firstline (w_conn w) = None ->
  exists w',
    end_message ERROR_NONE w = Done tt w'
    /\ w_trace w' = w_trace w ++ [on_msg_complete_ev]
    /\ state (w_conn w')
       = (if persistent (w_conn w) then HTTP_STATE_IDLE else HTTP_STATE_MANGLED)
    /\ inbuf (w_conn w') = inbuf (w_conn w)
    /\ has_body (w_conn w') = has_body (w_conn w)
    /\ persistent (w_conn w') = persistent (w_conn w).
Proof.
  intros Hp Hh Hf.
  destruct (persistent (w_conn w)) eqn:P.
  - unfold end_message, on_msg_complete, begin_message. run_m.
    cbn [error_eqb negb orb]. rewrite Hh, P. cbn [negb]. run_m.
    rewrite Hh, Hf, Hp. cbn [is_null andb negb]. run_m.
    eexists. split; [reflexivity|]. cbn. rewrite P. auto 10.
  - rewrite end_message_last by exact P. eexists. split; [reflexivity|].
    unfold clear_headers. rewrite Hh. cbn. rewrite P. auto 10.
Qed.

Lemma check_framing_headers_bev (w w' : world) (r : bool) :
  check_framing_headers w = Done r w' -> bev (w_conn w') = bev (w_conn w).
Proof.
  intros H. unfold check_framing_headers, on_error in H. run_in H. simpl_hyps.
  generalize dependent (headers_find (the_headers (w_conn w)) (txt "transfer-encoding")).
  intros o H.
  repeat (break_match; simpl_hyps; try discriminate); done_inv; reflexivity.
Qed.

Lemma check_headers_bev (req : option http_request) (resp : option http_response)
      (w w' : world) (a : unit) :
  check_headers req resp w = Done a w' -> bev (w_conn w') = bev (w_conn w).
Proof.
  intros H. unfold check_headers in H. run_in H. simpl_hyps.
  repeat (break_match; simpl_hyps; try discriminate); done_inv;
    try match goal with
        | E : check_framing_headers _ = Done _ _ |- _ =>
            apply check_framing_headers_bev in E;
            etransitivity; [|exact E]
        end;
    reflexivity.
Qed.

Lemma check_headers_bodyless (req : option http_request) (resp : option http_response)
      (w w' : world) (a : unit) :
  check_headers req resp w = Done a w' ->
  bodyless_by_kind (w_conn w) req resp ->
  has_body (w_conn w') = false /\ w_trace w' = w_trace w.
Proof.
  unfold bodyless_by_kind. intros H Hk. unfold check_headers in H. run_in H. simpl_hyps.
  repeat (break_match; simpl_hyps; try discriminate; try contradiction);
    try (destruct Hk as [Hk _]; congruence);
    done_inv; simpl_hyps; auto.
Qed.

(** X22: a request without a body is complete with its headers.  When
    the header block of a request is complete, its first line being that of
    a request other than POST and PUT with a known version and a URL that
    [url_tokenize] accepts, [read_headers] hands the request, with the
    headers loaded, to [on_client_request], calls [on_msg_complete] at once
    and nothing else, and leaves what follows the header block in the input
    buffer; the connection is then IDLE when persistent and MANGLED when
    not. *)
Theorem bodyless_request_is_complete_at_once
        (w : world) (q : http_request) (u : url) (hs hs' : header_list) (rest : bytes) :
  type (w_conn w) = HTTP_CLIENT ->
  state (w_conn w) = HTTP_STATE_READ_HEADERS ->
  read_paused (w_conn w) = false ->
  firstline (w_conn w) = Some (request_line q) ->
  headers (w_conn w) = Some hs ->
  headers_load hs (inbuf (w_conn w)) = (LOAD_COMPLETE, hs', rest) ->
  is_post_or_put (req_meth q) = false ->
  req_vers q <> HTTP_UNKNOWN ->
  ~ In SP (query (req_url q)) ->
  url_tokenize (query (req_url q)) = Some u ->
  exists w',
    read_headers w = Done tt w'
    /\ w_trace w' = w_trace w
                    ++ [on_client_request_ev
                          {| req_meth := req_meth q; req_vers := req_vers q;
                             req_url := u; req_headers := hs' |};
                        on_msg_complete_ev]
    /\ has_body (w_conn w') = false
    /\ inbuf (w_conn w') = rest
    /\ state (w_conn w')
       = (if persistent (w_conn w') then HTTP_STATE_IDLE else HTTP_STATE_MANGLED).
Proof.
  intros Ht Hs Hp Hf Hh Hl Hm Hv Hq Hu.
  unfold read_headers. unfold bind at 1, get at 1. unfold bind at 1.
  rewrite Hs. cbn [state_eqb assert]. unfold ret at 1.
  rewrite Hh, Hl.
  unfold bind at 1, modify at 1. unfold bind at 1, modify at 1. cbn [w_conn w_trace].
  set (c1 := set_inbuf rest (set_headers (Some hs') (w_conn w))).
  assert (Hf1 : firstline c1 = Some (request_line q)) by exact Hf.
  assert (Hp1 : read_paused c1 = false) by exact Hp.
  assert (Hh1 : headers c1 = Some hs') by reflexivity.
  assert (Ht1 : type c1 = HTTP_CLIENT) by exact Ht.
  assert (Hi1 : inbuf c1 = rest) by reflexivity.
  clearbody c1.
  unfold bind at 1, get at 1. cbn [w_conn]. unfold bind at 1.
  rewrite Hf1. cbn [is_null negb assert]. unfold ret at 1.
  rewrite Ht1. cbn [type_eqb].
  set (w1 := {| w_conn := c1; w_trace := w_trace w |}).
  set (r := {| req_meth := req_meth q; req_vers := req_vers q;
               req_url := u; req_headers := hs' |}).
  assert (Eb : build_request w1 = Done (Some r) w1)
    by (apply build_request_of_line; assumption).
  unfold bind at 1. rewrite Eb. unfold bind at 1, ret at 1.
  clear Eb. subst w1.
  unfold bind at 1, modify at 1. cbn [w_conn w_trace is_null andb].
  set (w2 := {| w_conn := set_firstline None c1; w_trace := w_trace w |}).
  assert (Hk : bodyless_by_kind (w_conn w2) (Some r) None).
  { unfold bodyless_by_kind. cbn. rewrite Ht1. split; assumption. }
  assert (Hfit : message_fits (w_conn w2) (Some r) None).
  { unfold message_fits. cbn. rewrite Ht1. exact Hv. }
  destruct (@check_headers_returns (Some r) None w2 Hfit) as (w3 & Ech).
  unfold bind at 1. rewrite Ech.
  pose proof (@check_headers_frame _ _ _ _ _ Ech) as (F1 & F2 & _).
  pose proof (@check_headers_bev _ _ _ _ _ Ech) as F3.
  pose proof (@check_headers_bodyless _ _ _ _ _ Ech Hk) as (F4 & F5).
  clear Ech.
  unfold bind at 1, modify at 1. unfold bind at 1, on_client_request, emit.
  unfold bind at 1, ret at 1. unfold bind at 1, get at 1.
  cbn [w_conn w_trace has_body set_headers]. rewrite F4. cbn [negb].
  set (w4 := {| w_conn := set_headers None (w_conn w3);
                w_trace := w_trace w3 ++ [on_client_request_ev r] |}).
  destruct (@end_message_none_outcome w4) as (w' & E & T & S & I & B & P).
  - cbn. rewrite F1. exact Hp1.
  - reflexivity.
  - cbn. rewrite F2. reflexivity.
  - exists w'. split; [exact E|]. rewrite T, S, I, B, P. cbn.
    rewrite F5, F4. cbn [w_trace]. rewrite <- app_assoc.
    repeat split.
    change (inbuf (set_headers None (w_conn w3))) with (input (bev (w_conn w3))).
    rewrite F3. exact Hi1.
Qed.

Lemma bodyless_request_is_complete_at_once_witness :
  exists w',
    read_headers request_pending_world = Done tt w'
    /\ w_trace w' = w_trace request_pending_world
                    ++ [on_client_request_ev
                          (get_request [(txt "Host", txt "example.org")]);
                        on_msg_complete_ev]
    /\ has_body (w_conn w') = false
    /\ inbuf (w_conn w') = []
    /\ state (w_conn w')
       = (if persistent (w_conn w') then HTTP_STATE_IDLE else HTTP_STATE_MANGLED).
Proof.
  apply (@bodyless_request_is_complete_at_once request_pending_world (get_request [])
           index_url [] [(txt "Host", txt "example.org")] []).
  - reflexivity.
  - reflexivity.
  - reflexivity.
  - vm_compute. reflexivity.
  - reflexivity.
  - vm_compute. reflexivity.
  - reflexivity.
  - discriminate.
  - vm_compute. intuition discriminate.
  - vm_compute. reflexivity.
Defined.

(** ** A response with a body of known length *)

Lemma check_framing_headers_length (w w' : world) (r : bool) (val : bytes) :
  check_framing_headers w = Done r w' ->
  not_chunked (w_conn w) ->
  headers_find (the_headers (w_conn w)) (txt "content-length") = Some val ->
  0 < get_int val 10 ->
  te (w_conn w) = TE_IDENTITY ->
  r = false
  /\ w_trace w' = w_trace w
  /\ w_conn w' = set_data_remaining (get_int val 10) (w_conn w).
Proof.
  unfold not_chunked. intros H Hn Hf Hc Ht.
  unfold check_framing_headers, on_error in H. run_in H. simpl_hyps.
  assert (Hlt : (get_int val 10 <? 0) = false) by (apply Z.ltb_ge; lia).
  assert (Hz : (get_int val 10 =? 0) = false) by (apply Z.eqb_neq; lia).
  destruct (headers_find (the_headers (w_conn w)) (txt "transfer-encoding")) as [v|].
  - apply Z.eqb_neq in Hn. rewrite Hn in H. simpl_hyps.
    rewrite Ht, Hf in H. simpl_hyps. rewrite Hlt in H. simpl_hyps. rewrite Hz in H.
    simpl_hyps. rewrite Hlt, Ht in H. simpl_hyps. rewrite andb_false_r in H. simpl_hyps.
    done_inv. auto.
  - simpl_hyps.
    rewrite Ht, Hf in H. simpl_hyps. rewrite Hlt in H. simpl_hyps. rewrite Hz in H.
    simpl_hyps. rewrite Hlt, Ht in H. simpl_hyps. rewrite andb_false_r in H. simpl_hyps.
    done_inv. auto.
Qed.

(** X23: a response with a Content-Length starts a body.  When the header
    block of a response is complete and ends the input, its first line
    being a status line with a known version, a status code that does not
    rule a body out and a reason, and the headers announce a positive
    Content-Length and no chunked encoding, [read_headers] hands the
    response, with the headers loaded, to [on_server_response] and calls
    nothing else; the connection is then reading an identity body of that
    many bytes, nothing of it buffered yet. *)
Theorem response_with_length_starts_a_body
        (w : world) (c : http_conn) (resp : http_response) (hs hs' : header_list)
        (val : bytes) :
  type (w_conn w) = HTTP_SERVER ->
  state (w_conn w) = HTTP_STATE_READ_HEADERS ->
  read_paused (w_conn w) = false ->
  ev_read (bev (w_conn w)) = true ->
  inbuf_processed (w_conn w) = [] ->
  firstline (w_conn w) = Some (response_line c resp) ->
  headers (w_conn w) = Some hs ->
  headers_load hs (inbuf (w_conn w)) = (LOAD_COMPLETE, hs', []) ->
  vers c <> HTTP_UNKNOWN ->
  100 <= resp_code resp <= 999 ->
  bodyless_code (resp_code resp) = false ->
  resp_reason resp <> [] ->
  match headers_find hs' (txt "transfer-encoding") with
  | Some v => evutil_ascii_strcasecmp v (txt "chunked") <> 0
  | None => True
  end ->
  headers_find hs' (txt "content-length") = Some val ->
  0 < get_int val 10 ->
  exists w',
    read_headers w = Done tt w'
    /\ w_trace w' = w_trace w
                    ++ [on_server_response_ev
                          {| resp_vers := vers c; resp_code := resp_code resp;
                             resp_reason := resp_reason resp; resp_headers := hs' |}]
    /\ reading_identity (w_conn w') (get_int val 10).
Proof.
  intros Ht Hs Hp He Hg Hf Hh Hl Hv Hc Hb Hr Hn Hcl Hpos.
  unfold read_headers. unfold bind at 1, get at 1. unfold bind at 1.
  rewrite Hs. cbn [state_eqb assert]. unfold ret at 1.
  rewrite Hh, Hl.
  unfold bind at 1, modify at 1. unfold bind at 1, modify at 1. cbn [w_conn w_trace].
  set (c1 := set_inbuf [] (set_headers (Some hs') (w_conn w))).
  assert (Hf1 : firstline c1 = Some (response_line c resp)) by exact Hf.
  assert (Hp1 : read_paused c1 = false) by exact Hp.
  assert (Hh1 : headers c1 = Some hs') by reflexivity.
  assert (Ht1 : type c1 = HTTP_SERVER) by exact Ht.
  assert (Hi1 : inbuf c1 = []) by reflexivity.
  assert (He1 : ev_read (bev c1) = true) by exact He.
  assert (Hg1 : inbuf_processed c1 = []) by exact Hg.
  clearbody c1.
  unfold bind at 1, get at 1. cbn [w_conn]. unfold bind at 1.
  rewrite Hf1. cbn [is_null negb assert]. unfold ret at 1.
  rewrite Ht1. cbn [type_eqb].
  unfold bind at 1, ret at 1.
  set (w1 := {| w_conn := c1; w_trace := w_trace w |}).
  set (r := {| resp_vers := vers c; resp_code := resp_code resp;
               resp_reason := resp_reason resp; resp_headers := hs' |}).
  assert (Eb : build_response w1 = Done (Some r) w1)
    by (apply build_response_of_line; assumption).
  unfold bind at 1. rewrite Eb. clear Eb. subst w1.
  unfold bind at 1, modify at 1. cbn [w_conn w_trace is_null andb].
  (* check_headers, by hand *)
  unfold check_headers.
  unfold bind at 1. unfold bind at 1, modify at 1. unfold bind at 1, modify at 1.
  unfold bind at 1, modify at 1. unfold bind at 1, modify at 1.
  unfold bind at 1, get at 1.
  cbn [w_conn w_trace type set_te set_has_body set_msg_complete_on_eof set_data_remaining
       set_firstline].
  rewrite Ht1. cbn [resp_code r]. rewrite Hb.
  unfold bind at 1. unfold bind at 1, when at 1, ret at 1. unfold ret at 1.
  unfold bind at 1, get at 1. cbn [w_conn has_body set_has_body set_data_remaining
                                    set_msg_complete_on_eof set_te].
  set (w2 := {| w_conn := set_data_remaining (-1)
                            (set_msg_complete_on_eof false
                               (set_has_body true (set_te TE_IDENTITY (set_firstline None c1))));
                w_trace := w_trace w |}).
  destruct (check_framing_headers_returns w2) as (ret_early & w3 & Efr).
  unfold bind at 1. rewrite Efr.
  apply (@check_framing_headers_length w2 w3 ret_early val) in Efr;
    [| unfold not_chunked, the_headers; cbn; rewrite Hh1; exact Hn
     | unfold the_headers; cbn; rewrite Hh1; exact Hcl
     | exact Hpos
     | reflexivity].
  destruct Efr as (-> & Tr3 & C3).
  destruct w3 as [c3 t3]. cbn [w_conn w_trace] in Tr3, C3. subst c3 t3.
  assert (Hvk : negb (version_eqb (resp_vers r) HTTP_UNKNOWN) = true).
  { cbn [resp_vers r]. destruct (vers c); [congruence | reflexivity | reflexivity]. }
  unfold bind at 1. rewrite Hvk. cbn [assert]. unfold ret at 1.
  unfold bind at 1, get at 1. unfold bind at 1, modify at 1. unfold modify at 1.
  cbn [w_conn w_trace].
  unfold bind at 1, modify at 1. unfold bind at 1, ret at 1.
  unfold bind at 1, on_server_response, emit. unfold bind at 1, get at 1.
  cbn [w_conn w_trace has_body set_headers set_persistent set_vers set_data_remaining
       set_msg_complete_on_eof set_has_body negb].
  unfold modify.
  eexists. split; [reflexivity|]. cbn [w_conn w_trace]. split; [reflexivity|].
  constructor; cbn; auto.
Qed.

Lemma response_with_length_starts_a_body_witness :
  exists w',
    read_headers headers_pending_world = Done tt w'
    /\ w_trace w' = w_trace headers_pending_world
                    ++ [on_server_response_ev
                          (ok_response [(txt "Content-Length", txt "5")])]
    /\ reading_identity (w_conn w') 5.
Proof.
  apply (@response_with_length_starts_a_body headers_pending_world
           (set_vers HTTP_11 (w_conn (idle_world HTTP_SERVER))) (ok_response [])
           [] [(txt "Content-Length", txt "5")] (txt "5")).
  - reflexivity.
  - reflexivity.
  - reflexivity.
  - reflexivity.
  - reflexivity.
  - vm_compute. reflexivity.
  - reflexivity.
  - vm_compute. reflexivity.
  - discriminate.
  - cbn. lia.
  - reflexivity.
  - discriminate.
  - vm_compute. exact I.
  - vm_compute. reflexivity.
  - vm_compute. reflexivity.
Defined.

(** ** The counter and the length the headers gave *)





























(** The scenario of a known length: the headers give 5 and the counter is
    at 5. *)
Lemma known_length_world_counter :
  state (w_conn known_length_world) = HTTP_STATE_READ_BODY
  /\ te (w_conn known_length_world) = TE_IDENTITY
  /\ length_of (last_headers (w_trace known_length_world)) = Some 5
  /\ data_remaining (w_conn known_length_world) = 5
  /\ length_of (last_headers (w_trace eof_body_world)) = None.
Proof. vm_compute. repeat split. Qed.

(** ** Writing a message and reading it back, headers and all *)














